(** * Bartender: the availability engine and the persistence service

    A shallow embedding of the two parts of the repository that carry
    behaviour:

    - [App]: the client-side availability engine of [src/App.tsx]
      ([useRecipeFilter] with its [canMakeRecipe] callback, and the
      [availableSuggestions] memo of [IngredientManager]);
    - [Server]: the Express route handlers of the API server
      ([POST /api/ingredients], [GET /api/recipes], [POST /api/recipes],
      [DELETE /api/recipes/:id]) over a model of the PostgreSQL store they
      talk to.

    Strings.  A JavaScript string is modelled by a Rocq [string].  The case
    conversions and the white-space class are exact on ASCII text; a
    character above 127 is treated as a caseless, non-blank character. *)

From Stdlib Require Import List String Ascii Bool Arith ZArith Lia.
From Stdlib Require Import Permutation Sorted.
Import ListNotations.

Local Open Scope string_scope.

(* ------------------------------------------------------------------ *)
(** ** JavaScript string primitives *)

Module JsString.

Definition isUpper (c : ascii) : bool :=
  let n := nat_of_ascii c in (65 <=? n)%nat && (n <=? 90)%nat.

Definition isLower (c : ascii) : bool :=
  let n := nat_of_ascii c in (97 <=? n)%nat && (n <=? 122)%nat.

Definition lowerChar (c : ascii) : ascii :=
  if isUpper c then ascii_of_nat (nat_of_ascii c + 32) else c.

Definition upperChar (c : ascii) : ascii :=
  if isLower c then ascii_of_nat (nat_of_ascii c - 32) else c.

(** [String.prototype.toLowerCase], exact on strings of ASCII characters,
    where ECMAScript maps [A]-[Z] to [a]-[z] and nothing else.  A character
    outside ASCII is left as it is, which is not what ECMAScript does with
    each of them (it lower-cases the Kelvin sign to [k]): what rests on the
    way the two case maps undo each other is stated for ASCII names, see
    [isAscii]. *)
Fixpoint toLowerCase (s : string) : string :=
  match s with
  | EmptyString => EmptyString
  | String c r => String (lowerChar c) (toLowerCase r)
  end.

(** [String.prototype.toUpperCase], exact on strings of ASCII characters,
    where ECMAScript maps [a]-[z] to [A]-[Z] and nothing else.  A character
    outside ASCII is left as it is, whereas ECMAScript maps some of them to
    another character or to several (the dotless i to [I], the sharp s to
    [SS]); see [toLowerCase]. *)
Fixpoint toUpperCase (s : string) : string :=
  match s with
  | EmptyString => EmptyString
  | String c r => String (upperChar c) (toUpperCase r)
  end.

(** The ASCII members of ECMAScript's WhiteSpace and LineTerminator:
    TAB, LF, VT, FF, CR and SPACE. *)
Definition isWhiteSpace (c : ascii) : bool :=
  let n := nat_of_ascii c in
  ((9 <=? n)%nat && (n <=? 13)%nat) || (n =? 32)%nat.

Fixpoint trimStart (s : string) : string :=
  match s with
  | EmptyString => EmptyString
  | String c r => if isWhiteSpace c then trimStart r else s
  end.

Fixpoint trimEnd (s : string) : string :=
  match s with
  | EmptyString => EmptyString
  | String c r =>
      match trimEnd r with
      | EmptyString => if isWhiteSpace c then EmptyString else String c EmptyString
      | r' => String c r'
      end
  end.

(** [String.prototype.trim] *)
Definition trim (s : string) : string := trimEnd (trimStart s).

(** [s.charAt(0)]: the first character as a string, or the empty string. *)
Definition charAt0 (s : string) : string :=
  match s with
  | EmptyString => EmptyString
  | String c _ => String c EmptyString
  end.

(** [s.slice(1)] *)
Definition slice1 (s : string) : string :=
  match s with
  | EmptyString => EmptyString
  | String _ r => r
  end.

(** [s.split(sep)] for a one-character separator: never the empty list,
    [split sep ""] is [[""]]. *)
Fixpoint split (sep : ascii) (s : string) : list string :=
  match s with
  | EmptyString => [EmptyString]
  | String c r =>
      if Ascii.eqb c sep then EmptyString :: split sep r
      else match split sep r with
           | w :: ws => String c w :: ws
           | [] => [String c EmptyString]
           end
  end.

(** [words.join(sep)] *)
Definition join (sep : string) (words : list string) : string :=
  String.concat sep words.

(** [s.includes(sub)] *)
Fixpoint includes (s sub : string) : bool :=
  String.prefix sub s ||
  match s with
  | EmptyString => false
  | String _ r => includes r sub
  end.

(** Truthiness of a string value: every string but the empty one. *)
Definition truthy (s : string) : bool := negb (s =? "").

(** The tab character, U+0009. *)
Definition TAB : ascii := ascii_of_nat 9.

End JsString.

Import JsString.

(* ------------------------------------------------------------------ *)
(** ** JavaScript containers used by the client *)

Module JsSet.

(** A [Set<string>] keeps its members in insertion order; [add] of a
    member already present changes nothing. *)
Definition has (x : string) (s : list string) : bool :=
  existsb (String.eqb x) s.

Definition add (x : string) (s : list string) : list string :=
  if has x s then s else s ++ [x].

(** [new Set(xs)] *)
Definition ofList (xs : list string) : list string :=
  fold_left (fun s x => add x s) xs [].

End JsSet.

Module JsArray.

Section Sort.
Context {A : Type}.
Variable cmp : A -> A -> Z.

(** [Array.prototype.sort(cmp)] is a stable sort; it is modelled by the
    stable insertion sort, which every stable sort agrees with on a
    consistent comparator. *)
Fixpoint insert (x : A) (l : list A) : list A :=
  match l with
  | [] => [x]
  | y :: l' => if (cmp x y <=? 0)%Z then x :: y :: l' else y :: insert x l'
  end.

Fixpoint sort (l : list A) : list A :=
  match l with
  | [] => []
  | x :: l' => insert x (sort l')
  end.
End Sort.

(** [xs.includes(x)] on an array of strings. *)
Definition includes (xs : list string) (x : string) : bool :=
  existsb (String.eqb x) xs.

End JsArray.

(* ------------------------------------------------------------------ *)
(** ** The client: [src/App.tsx] *)

Module App.

(** Types *)
Record Ingredient := { i_id : string; i_name : string }.
Record RecipeIngredient :=
  { ri_name : string; ri_quantity : string; ri_unit : string }.
Record Recipe :=
  { r_id : string;
    r_name : string;
    r_ingredients : list RecipeIngredient;
    r_instructions : string;
    r_isCustom : bool }.

(** Pre-populated standard recipes *)
Definition STANDARD_RECIPES : list Recipe :=
  [ {| r_id := "1";
       r_name := "Margarita";
       r_isCustom := false;
       r_ingredients :=
         [ {| ri_name := "Tequila"; ri_quantity := "2"; ri_unit := "oz" |};
           {| ri_name := "Lime Juice"; ri_quantity := "1"; ri_unit := "oz" |};
           {| ri_name := "Triple Sec"; ri_quantity := "1"; ri_unit := "oz" |} ];
       r_instructions := "Shake with ice and strain into a salt-rimmed glass." |};
    {| r_id := "2";
       r_name := "Old Fashioned";
       r_isCustom := false;
       r_ingredients :=
         [ {| ri_name := "Bourbon"; ri_quantity := "2"; ri_unit := "oz" |};
           {| ri_name := "Simple Syrup"; ri_quantity := "0.5"; ri_unit := "oz" |};
           {| ri_name := "Angostura Bitters"; ri_quantity := "2"; ri_unit := "dashes" |} ];
       r_instructions := "Stir with ice and strain into a rocks glass." |} ].

Record State :=
  { ingredients : list Ingredient; customRecipes : list Recipe }.

(** *** [useRecipeFilter]

    The local-storage client and the API client carry the same text of
    this hook. *)

(** The [canMakeRecipe] callback, closed over [ingredients]. *)
Definition canMakeRecipe (ingredients : list Ingredient) (recipe : Recipe) : bool :=
  let ingredientNames := map (fun i => toLowerCase (i_name i)) ingredients in
  forallb
    (fun ri => JsArray.includes ingredientNames (toLowerCase (ri_name ri)))
    (r_ingredients recipe).

(** The search predicate of the first [filter]. *)
Definition matchesSearch (search : string) (r : Recipe) : bool :=
  JsString.includes (toLowerCase (r_name r)) (toLowerCase search).

Definition useRecipeFilter
    (recipes : list Recipe) (ingredients : list Ingredient)
    (search : string) (showMakeable : bool) : list Recipe :=
  let filtered := recipes in
  let filtered :=
    if truthy search then filter (matchesSearch search) filtered
    else filtered in
  let filtered :=
    if showMakeable then filter (canMakeRecipe ingredients) filtered
    else filtered in
  filtered.

(** The same two steps taken in the opposite order: the [canMakeRecipe]
    filter first, the search filter second. *)
Definition useRecipeFilter_swapped
    (recipes : list Recipe) (ingredients : list Ingredient)
    (search : string) (showMakeable : bool) : list Recipe :=
  let filtered := recipes in
  let filtered :=
    if showMakeable then filter (canMakeRecipe ingredients) filtered
    else filtered in
  let filtered :=
    if truthy search then filter (matchesSearch search) filtered
    else filtered in
  filtered.

(** *** [availableSuggestions] *)

(** [word.charAt(0).toUpperCase() + word.slice(1).toLowerCase()] *)
Definition capitalize (word : string) : string :=
  toUpperCase (charAt0 word) ++ toLowerCase (slice1 word).

(** [ing.name.trim().split(" ").map(...).join(" ")] *)
Definition normalizedName (name : string) : string :=
  join " " (map capitalize (split " " (trim name))).

(** The two nested [forEach] loops filling [allRecipeIngredientNames]. *)
Definition allRecipeIngredientNames (allRecipes : list Recipe) : list string :=
  fold_left
    (fun names recipe =>
       fold_left
         (fun names ing =>
            let n := normalizedName (ri_name ing) in
            if truthy n then JsSet.add n names else names)
         (r_ingredients recipe) names)
    allRecipes [].

Section Suggestions.
(** [a.localeCompare(b)]: negative, zero or positive.  The collation
    tables belong to the JavaScript engine, so the comparator is a
    parameter. *)
Variable localeCompare : string -> string -> Z.

(** The body of the memo, over the recipe collection it reads. *)
Definition suggestIngredients
    (allRecipes : list Recipe) (ingredients : list Ingredient) : list string :=
  let currentIngredientNames :=
    JsSet.ofList (map (fun i => toLowerCase (i_name i)) ingredients) in
  let suggestions :=
    filter
      (fun suggestion =>
         negb (JsSet.has (toLowerCase suggestion) currentIngredientNames))
      (allRecipeIngredientNames allRecipes) in
  JsArray.sort localeCompare suggestions.

(** [availableSuggestions] of the local-storage client: the standard
    recipes followed by the custom ones. *)
Definition availableSuggestions (state : State) : list string :=
  suggestIngredients (STANDARD_RECIPES ++ customRecipes state) (ingredients state).
End Suggestions.

(** *** State management *)

Inductive Action : Type :=
| ADD_INGREDIENT (payload : Ingredient)
| REMOVE_INGREDIENT (payload : string)
| ADD_RECIPE (payload : Recipe)
| REMOVE_RECIPE (payload : string).

Definition initialState : State := {| ingredients := []; customRecipes := [] |}.

Definition reducer (state : State) (action : Action) : State :=
  match action with
  | ADD_INGREDIENT payload =>
      {| ingredients := ingredients state ++ [payload];
         customRecipes := customRecipes state |}
  | REMOVE_INGREDIENT payload =>
      {| ingredients := filter (fun i => negb (i_id i =? payload)) (ingredients state);
         customRecipes := customRecipes state |}
  | ADD_RECIPE payload =>
      {| ingredients := ingredients state;
         customRecipes := customRecipes state ++ [payload] |}
  | REMOVE_RECIPE payload =>
      {| ingredients := ingredients state;
         customRecipes := filter (fun r => negb (r_id r =? payload)) (customRecipes state) |}
  end.

(** A handler that may [dispatch] one action: the state after it. *)
Definition dispatched (state : State) (action : option Action) : State :=
  match action with
  | Some a => reducer state a
  | None => state
  end.

(** *** [IngredientManager] *)

(** [addIngredient(nameToAdd?)]: the action it dispatches, if any, and the
    text of the input field afterwards.  [newIngredient] is the text of the
    input field and [now] is [Date.now().toString()]. *)
Definition addIngredient
    (state : State) (newIngredient : string) (nameToAdd : option string)
    (now : string) : option Action * string :=
  let ingredientName :=
    trim (match nameToAdd with
          | Some n => if truthy n then n else newIngredient
          | None => newIngredient
          end) in
  if truthy ingredientName
     && negb (existsb
                (fun i => toLowerCase (i_name i) =? toLowerCase ingredientName)
                (ingredients state))
  then
    (Some (ADD_INGREDIENT {| i_id := now; i_name := ingredientName |}),
     match nameToAdd with
     | Some n => if truthy n then newIngredient else ""
     | None => ""
     end)
  else (None, newIngredient).

(** [quickAddIngredient(name)] *)
Definition quickAddIngredient
    (state : State) (newIngredient name now : string) : option Action * string :=
  addIngredient state newIngredient (Some name) now.

(** *** [RecipeCreator] *)

(** The row [{ name: "", quantity: "", unit: "" }]. *)
Definition blankRow : RecipeIngredient :=
  {| ri_name := ""; ri_quantity := ""; ri_unit := "" |}.

(** [xs.filter((_, i) => keep(i))], with the index of the first element
    [from]. *)
Fixpoint filterIndex {A} (keep : nat -> bool) (from : nat) (xs : list A) : list A :=
  match xs with
  | [] => []
  | x :: xs' =>
      if keep from then x :: filterIndex keep (S from) xs'
      else filterIndex keep (S from) xs'
  end.

(** [addIngredientField()]: the new rows of the form. *)
Definition addIngredientField (ingredients : list RecipeIngredient) :
    list RecipeIngredient :=
  ingredients ++ [blankRow].

(** [removeIngredientField(index)]: the new rows of the form. *)
Definition removeIngredientField (ingredients : list RecipeIngredient) (index : nat) :
    list RecipeIngredient :=
  let newIngredients := filterIndex (fun i => negb (i =? index)%nat) 0 ingredients in
  if (0 <? List.length newIngredients)%nat then newIngredients else [blankRow].

(** [saveRecipe()] of the local-storage client: the action it dispatches,
    if any.  [now] is [Date.now().toString()]. *)
Definition saveRecipe
    (name instructions : string) (ingredients : list RecipeIngredient)
    (now : string) : option Action :=
  if truthy name && truthy instructions
     && forallb (fun i => truthy (ri_name i) && truthy (ri_quantity i)) ingredients
  then
    let validIngredients :=
      filter (fun i => truthy (ri_name i) || truthy (ri_quantity i) || truthy (ri_unit i))
             ingredients in
    if (List.length validIngredients =? 0)%nat
       && (0 <? List.length ingredients)%nat
       && negb (match ingredients with
                | [i0] => negb (truthy (ri_name i0)) && negb (truthy (ri_quantity i0))
                          && negb (truthy (ri_unit i0))
                | _ => false
                end)
    then None
    else
      Some (ADD_RECIPE
              {| r_id := now;
                 r_name := name;
                 r_ingredients :=
                   filter (fun ing => truthy (ri_name ing) && truthy (ri_quantity ing))
                     (map (fun ing => {| ri_name := trim (ri_name ing);
                                         ri_quantity := trim (ri_quantity ing);
                                         ri_unit := trim (ri_unit ing) |})
                          validIngredients);
                 r_instructions := instructions;
                 r_isCustom := true |})
  else None.

(** *** [RecipeBrowser] *)

(** [hasIngredient(ingredientName)], closed over [state.ingredients]. *)
Definition hasIngredient (ingredients : list Ingredient) (ingredientName : string) : bool :=
  existsb (fun i => toLowerCase (i_name i) =? toLowerCase ingredientName) ingredients.

End App.

(* ------------------------------------------------------------------ *)
(** ** The server: Express handlers over PostgreSQL *)

Module Server.

(** *** The persisted state

    The three tables of [initializeDb], each a list of rows in insertion
    order, and the sequences behind the [SERIAL] keys.  Identifiers are
    unbounded integers. *)

Record IngredientRow := { ing_id : Z; ing_name : string }.

Record RecipeRow :=
  { rec_id : Z; rec_name : string; rec_instructions : string; rec_is_custom : bool }.

Record RecipeIngredientRow :=
  { rin_id : Z; rin_recipe_id : Z;
    rin_name : string; rin_quantity : string; rin_unit : string }.

Record Tables :=
  { ingredients : list IngredientRow;
    recipes : list RecipeRow;
    recipe_ingredients : list RecipeIngredientRow }.

Record Sequences :=
  { ingredients_id_seq : Z; recipes_id_seq : Z; recipe_ingredients_id_seq : Z }.

Record Db := { tables : Tables; sequences : Sequences }.

(** *** SQL statements

    A statement reads and writes the tables it runs against.  It either
    yields a result and the new tables or is rejected (a constraint
    violation); the sequences move on either way, as [nextval] is never
    undone. *)

Definition Sql (A : Type) : Type :=
  Tables -> Sequences -> option (A * Tables) * Sequences.

(** [SELECT id FROM ingredients WHERE LOWER(name) = LOWER($1)] *)
Definition select_ingredient_ids_by_lower_name (p1 : string) : Sql (list Z) :=
  fun t s =>
    (Some (map ing_id
             (filter (fun r => toLowerCase (ing_name r) =? toLowerCase p1)
                     (ingredients t)), t), s).

(** [INSERT INTO ingredients (name) VALUES ($1) RETURNING *], with the
    [UNIQUE] constraint on [name]. *)
Definition insert_ingredient (p1 : string) : Sql (list IngredientRow) :=
  fun t s =>
    let row := {| ing_id := ingredients_id_seq s; ing_name := p1 |} in
    let s' := {| ingredients_id_seq := ingredients_id_seq s + 1;
                 recipes_id_seq := recipes_id_seq s;
                 recipe_ingredients_id_seq := recipe_ingredients_id_seq s |} in
    if existsb (fun r => ing_name r =? p1) (ingredients t) then (None, s')
    else (Some ([row],
                {| ingredients := ingredients t ++ [row];
                   recipes := recipes t;
                   recipe_ingredients := recipe_ingredients t |}), s').

Section Collation.
(** The collation of the database orders [ORDER BY name]; it belongs to
    the database, so it is a parameter. *)
Variable collate : string -> string -> Z.

(** [SELECT * FROM recipes WHERE is_custom = TRUE ORDER BY name ASC] *)
Definition select_custom_recipes : Sql (list RecipeRow) :=
  fun t s =>
    (Some (JsArray.sort (fun a b => collate (rec_name a) (rec_name b))
             (filter rec_is_custom (recipes t)), t), s).
End Collation.

(** [SELECT name, quantity, unit FROM recipe_ingredients WHERE recipe_id = $1] *)
Definition select_recipe_ingredients (p1 : Z) : Sql (list RecipeIngredientRow) :=
  fun t s =>
    (Some (filter (fun r => (rin_recipe_id r =? p1)%Z) (recipe_ingredients t), t), s).

(** [INSERT INTO recipes (name, instructions, is_custom)
     VALUES ($1, $2, TRUE) RETURNING *] *)
Definition insert_recipe (p1 p2 : string) : Sql (list RecipeRow) :=
  fun t s =>
    let row := {| rec_id := recipes_id_seq s; rec_name := p1;
                  rec_instructions := p2; rec_is_custom := true |} in
    (Some ([row],
           {| ingredients := ingredients t;
              recipes := recipes t ++ [row];
              recipe_ingredients := recipe_ingredients t |}),
     {| ingredients_id_seq := ingredients_id_seq s;
        recipes_id_seq := recipes_id_seq s + 1;
        recipe_ingredients_id_seq := recipe_ingredients_id_seq s |}).

(** [INSERT INTO recipe_ingredients (recipe_id, name, quantity, unit)
     VALUES ($1, $2, $3, $4)] *)
Definition insert_recipe_ingredient (p1 : Z) (p2 p3 p4 : string) : Sql unit :=
  fun t s =>
    let row := {| rin_id := recipe_ingredients_id_seq s; rin_recipe_id := p1;
                  rin_name := p2; rin_quantity := p3; rin_unit := p4 |} in
    (Some (tt,
           {| ingredients := ingredients t;
              recipes := recipes t;
              recipe_ingredients := recipe_ingredients t ++ [row] |}),
     {| ingredients_id_seq := ingredients_id_seq s;
        recipes_id_seq := recipes_id_seq s;
        recipe_ingredients_id_seq := recipe_ingredients_id_seq s + 1 |}).

(** [SELECT is_custom FROM recipes WHERE id = $1] *)
Definition select_is_custom (p1 : Z) : Sql (list bool) :=
  fun t s =>
    (Some (map rec_is_custom (filter (fun r => (rec_id r =? p1)%Z) (recipes t)), t), s).

(** [DELETE FROM recipe_ingredients WHERE recipe_id = $1] *)
Definition delete_recipe_ingredients (p1 : Z) : Sql unit :=
  fun t s =>
    (Some (tt,
           {| ingredients := ingredients t;
              recipes := recipes t;
              recipe_ingredients :=
                filter (fun r => negb (rin_recipe_id r =? p1)%Z) (recipe_ingredients t) |}),
     s).

(** [DELETE FROM recipes WHERE id = $1 RETURNING *]; the foreign key of
    [recipe_ingredients] is [ON DELETE CASCADE]. *)
Definition delete_recipe (p1 : Z) : Sql (list RecipeRow) :=
  fun t s =>
    (Some (filter (fun r => (rec_id r =? p1)%Z) (recipes t),
           {| ingredients := ingredients t;
              recipes := filter (fun r => negb (rec_id r =? p1)%Z) (recipes t);
              recipe_ingredients :=
                filter (fun r => negb (rin_recipe_id r =? p1)%Z) (recipe_ingredients t) |}),
     s).

(** [SELECT * FROM ingredients ORDER BY name ASC] *)
Definition select_ingredients (collate : string -> string -> Z) :
    Sql (list IngredientRow) :=
  fun t s =>
    (Some (JsArray.sort (fun a b => collate (ing_name a) (ing_name b))
             (ingredients t), t), s).

(** [DELETE FROM ingredients WHERE id = $1 RETURNING *]; no table of the
    schema refers to [ingredients]. *)
Definition delete_ingredient (p1 : Z) : Sql (list IngredientRow) :=
  fun t s =>
    (Some (filter (fun r => (ing_id r =? p1)%Z) (ingredients t),
           {| ingredients := filter (fun r => negb (ing_id r =? p1)%Z) (ingredients t);
              recipes := recipes t;
              recipe_ingredients := recipe_ingredients t |}),
     s).

(** *** Asynchronous code over a connection

    [committed] is what every connection sees; [tx] is the working copy of
    the open transaction of the handler's client, if any.  [clock] counts
    the requests sent to the database so far. *)

Record Pg :=
  { committed : Tables; tx : option Tables; seqs : Sequences; clock : nat }.

Inductive Outcome (A : Type) : Type :=
| Returned (a : A)
| Thrown.
Arguments Returned {A} a.
Arguments Thrown {A}.

Definition Async (A : Type) : Type := Pg -> Outcome A * Pg.

Definition ret {A} (a : A) : Async A := fun pg => (Returned a, pg).

Definition throw {A} : Async A := fun pg => (Thrown, pg).

Definition bind {A B} (m : Async A) (k : A -> Async B) : Async B :=
  fun pg =>
    match m pg with
    | (Returned a, pg') => k a pg'
    | (Thrown, pg') => (Thrown, pg')
    end.

(** [try { body } catch (err) { handler }] *)
Definition try_catch {A} (body handler : Async A) : Async A :=
  fun pg =>
    match body pg with
    | (Returned a, pg') => (Returned a, pg')
    | (Thrown, pg') => handler pg'
    end.

Declare Scope async_scope.
Delimit Scope async_scope with async.
Notation "x <- m ;; k" := (bind m (fun x => k))
  (at level 61, m at next level, right associativity) : async_scope.
Notation "m ;; k" := (bind m (fun _ => k))
  (at level 61, right associativity) : async_scope.
Local Open Scope async_scope.

(** [for (const x of xs) { await f(x) }] *)
Fixpoint for_of {A} (xs : list A) (f : A -> Async unit) : Async unit :=
  match xs with
  | [] => ret tt
  | x :: xs' => f x ;; for_of xs' f
  end.

(** A loop or [map] that builds one result per element, in order. *)
Fixpoint map_of {A B} (xs : list A) (f : A -> Async B) : Async (list B) :=
  match xs with
  | [] => ret []
  | x :: xs' => y <- f x ;; ys <- map_of xs' f ;; ret (y :: ys)
  end.

Definition tick (pg : Pg) : Pg :=
  {| committed := committed pg; tx := tx pg; seqs := seqs pg; clock := S (clock pg) |}.

(** *** Requests and responses

    Request bodies are read at the types of the API contract; a field that
    is absent (or [null]) is [None]. *)

Record IngredientInput :=
  { in_name : option string; in_quantity : option string; in_unit : option string }.

Record RecipeInput :=
  { body_name : option string;
    body_instructions : option string;
    body_ingredients : option (list IngredientInput) }.

Record IngredientJson :=
  { json_name : string; json_quantity : string; json_unit : string }.

(** A [recipes] row with its [ingredients] property set. *)
Record RecipeJson :=
  { json_recipe : RecipeRow; json_ingredients : list IngredientJson }.

Inductive Json : Type :=
| JError (error : string)
| JUndefined
| JIngredient (row : IngredientRow)
| JRecipe (recipe : RecipeJson)
| JRecipes (recipes : list RecipeJson)
| JDeletedRecipe (message : string) (deletedRecipe : RecipeRow).

(** [res.status(status).json(body)] *)
Record Response := { status : nat; body : Json }.

(** The bodies of [GET /api/ingredients] and [DELETE /api/ingredients/:id]. *)
Inductive IngredientsJson : Type :=
| JIngredientsError (error : string)
| JIngredients (rows : list IngredientRow)
| JDeletedIngredient (message : string) (deletedIngredient : IngredientRow).

Record IngredientsResponse :=
  { ingredients_status : nat; ingredients_body : IngredientsJson }.

Definition json (status : nat) (body : Json) : Async Response :=
  ret {| status := status; body := body |}.

(** [!v] for a string-valued field *)
Definition falsy (v : option string) : bool :=
  match v with
  | None => true
  | Some s => s =? ""
  end.

(** [v.trim()]: a [TypeError] when [v] is missing. *)
Definition method_trim (v : option string) : Async string :=
  match v with
  | Some s => ret (trim s)
  | None => throw
  end.

(** [newRecipe.id], with [newRecipe] the first row of a result: a
    [TypeError] when there is no such row. *)
Definition property_id (newRecipe : option RecipeRow) : Async Z :=
  match newRecipe with
  | Some r => ret (rec_id r)
  | None => throw
  end.

(** [v?.trim() || ''] *)
Definition trim_or_empty (v : option string) : string :=
  match v with
  | Some s => if truthy (trim s) then trim s else ""
  | None => ""
  end.

Definition isDigit (c : ascii) : bool :=
  let n := nat_of_ascii c in (48 <=? n)%nat && (n <=? 57)%nat.

Fixpoint allDigits (s : string) : bool :=
  match s with
  | EmptyString => true
  | String c r => isDigit c && allDigits r
  end.

(** [/^\d+$/.test(id)] *)
Definition test_digits (id : string) : bool := truthy id && allDigits id.

Fixpoint int_of_digits (acc : Z) (s : string) : Z :=
  match s with
  | EmptyString => acc
  | String c r => int_of_digits (10 * acc + Z.of_nat (nat_of_ascii c - 48)) r
  end.

(** The integer a digit string denotes when it is compared with an
    [INTEGER] column. *)
Definition int_of_param (id : string) : Z := int_of_digits 0 id.

Section Storage.
(** [fails n] tells whether the storage layer rejects the [n]-th request
    sent to it (a lost connection, a value a column does not take, ...):
    that request then throws and changes nothing. *)
Variable fails : nat -> bool.

(** [pool.connect()]: a client with no transaction open. *)
Definition connect : Async unit :=
  fun pg =>
    if fails (clock pg) then (Thrown, tick pg)
    else (Returned tt,
          {| committed := committed pg; tx := None; seqs := seqs pg;
             clock := S (clock pg) |}).

(** [client.query(stmt)]: inside the open transaction when there is one. *)
Definition client_query {A} (stmt : Sql A) : Async A :=
  fun pg =>
    if fails (clock pg) then (Thrown, tick pg)
    else
      match tx pg with
      | Some t =>
          match stmt t (seqs pg) with
          | (Some (a, t'), s') =>
              (Returned a,
               {| committed := committed pg; tx := Some t'; seqs := s';
                  clock := S (clock pg) |})
          | (None, s') =>
              (Thrown,
               {| committed := committed pg; tx := Some t; seqs := s';
                  clock := S (clock pg) |})
          end
      | None =>
          match stmt (committed pg) (seqs pg) with
          | (Some (a, t'), s') =>
              (Returned a,
               {| committed := t'; tx := None; seqs := s'; clock := S (clock pg) |})
          | (None, s') =>
              (Thrown,
               {| committed := committed pg; tx := None; seqs := s';
                  clock := S (clock pg) |})
          end
      end.

(** [pool.query(stmt)]: one statement, committed on its own. *)
Definition pool_query {A} (stmt : Sql A) : Async A :=
  fun pg =>
    if fails (clock pg) then (Thrown, tick pg)
    else
      match stmt (committed pg) (seqs pg) with
      | (Some (a, t'), s') =>
          (Returned a,
           {| committed := t'; tx := tx pg; seqs := s'; clock := S (clock pg) |})
      | (None, s') =>
          (Thrown,
           {| committed := committed pg; tx := tx pg; seqs := s';
              clock := S (clock pg) |})
      end.

(** [client.query('BEGIN')] *)
Definition BEGIN : Async unit :=
  fun pg =>
    if fails (clock pg) then (Thrown, tick pg)
    else (Returned tt,
          {| committed := committed pg;
             tx := Some (match tx pg with Some t => t | None => committed pg end);
             seqs := seqs pg; clock := S (clock pg) |}).

(** [client.query('COMMIT')]; a [COMMIT] that is rejected commits nothing. *)
Definition COMMIT : Async unit :=
  fun pg =>
    if fails (clock pg) then (Thrown, tick pg)
    else (Returned tt,
          {| committed := match tx pg with Some t => t | None => committed pg end;
             tx := None; seqs := seqs pg; clock := S (clock pg) |}).

(** [client.query('ROLLBACK')] *)
Definition ROLLBACK : Async unit :=
  fun pg =>
    if fails (clock pg) then (Thrown, tick pg)
    else (Returned tt,
          {| committed := committed pg; tx := None; seqs := seqs pg;
             clock := S (clock pg) |}).

(** *** Route handlers *)

(** [POST /api/ingredients], with [name] from [req.body]. *)
Definition addIngredient (name : option string) : Async Response :=
  match name with
  | None => json 400 (JError "Ingredient name is required.")
  | Some name =>
      if negb (truthy name) || (trim name =? "") then
        json 400 (JError "Ingredient name is required.")
      else
        try_catch
          (check <- pool_query (select_ingredient_ids_by_lower_name (trim name)) ;;
           if (0 <? List.length check)%nat then
             json 409 (JError "Ingredient already exists.")
           else
             result <- pool_query (insert_ingredient (trim name)) ;;
             json 201 (match result with
                       | row :: _ => JIngredient row
                       | [] => JUndefined
                       end))
          (json 500 (JError "Internal server error"))
  end.

Section Collation.
Variable collate : string -> string -> Z.

(** [GET /api/recipes]; the handler does not read the request, whose query
    string is [query]. *)
Definition listRecipes (query : list (string * string)) : Async Response :=
  try_catch
    (recipes <- pool_query (select_custom_recipes collate) ;;
     recipes <- map_of recipes
                  (fun recipe =>
                     ingredientsResult <-
                       pool_query (select_recipe_ingredients (rec_id recipe)) ;;
                     ret {| json_recipe := recipe;
                            json_ingredients :=
                              map (fun r => {| json_name := rin_name r;
                                               json_quantity := rin_quantity r;
                                               json_unit := rin_unit r |})
                                  ingredientsResult |}) ;;
     json 200 (JRecipes recipes))
    (json 500 (JError "Internal server error")).
End Collation.

(** [POST /api/recipes], with [name], [instructions] and [ingredients] from
    [req.body]. *)
Definition createRecipe (req : RecipeInput) : Async Response :=
  match body_ingredients req with
  | None =>
      json 400 (JError "Missing required recipe fields (name, instructions, ingredients array).")
  | Some ingredients =>
      if falsy (body_name req) || falsy (body_instructions req) then
        json 400 (JError "Missing required recipe fields (name, instructions, ingredients array).")
      else if existsb (fun ing => falsy (in_name ing) || falsy (in_quantity ing))
                      ingredients then
        json 400 (JError "Each ingredient must have a name and quantity.")
      else
        connect ;;
        try_catch
          (BEGIN ;;
           name <- method_trim (body_name req) ;;
           instructions <- method_trim (body_instructions req) ;;
           recipeResult <- client_query (insert_recipe name instructions) ;;
           let newRecipe := hd_error recipeResult in
           for_of ingredients
             (fun ing =>
                recipe_id <- property_id newRecipe ;;
                name <- method_trim (in_name ing) ;;
                quantity <- method_trim (in_quantity ing) ;;
                client_query
                  (insert_recipe_ingredient recipe_id
                     name quantity (trim_or_empty (in_unit ing)))) ;;
           COMMIT ;;
           ingredients' <- map_of ingredients
             (fun ing =>
                name <- method_trim (in_name ing) ;;
                quantity <- method_trim (in_quantity ing) ;;
                ret {| json_name := name;
                       json_quantity := quantity;
                       json_unit := trim_or_empty (in_unit ing) |}) ;;
           match newRecipe with
           | Some newRecipe =>
               json 201 (JRecipe {| json_recipe := newRecipe;
                                    json_ingredients := ingredients' |})
           | None => throw
           end)
          (ROLLBACK ;;
           json 500 (JError "Internal server error while adding recipe."))
  end.

(** [DELETE /api/recipes/:id], with [id] from [req.params]. *)
Definition deleteRecipe (id : string) : Async Response :=
  if negb (test_digits id) then
    json 400 (JError "Invalid recipe ID format.")
  else
    connect ;;
    try_catch
      (BEGIN ;;
       checkResult <- client_query (select_is_custom (int_of_param id)) ;;
       match checkResult with
       | [] =>
           ROLLBACK ;;
           json 404 (JError "Recipe not found.")
       | is_custom :: _ =>
           if negb is_custom then
             ROLLBACK ;;
             json 403 (JError "Cannot delete standard recipes.")
           else
             client_query (delete_recipe_ingredients (int_of_param id)) ;;
             deleteRecipeResult <- client_query (delete_recipe (int_of_param id)) ;;
             match deleteRecipeResult with
             | [] =>
                 ROLLBACK ;;
                 json 404 (JError "Recipe not found during deletion.")
             | deletedRecipe :: _ =>
                 COMMIT ;;
                 json 200 (JDeletedRecipe "Custom recipe deleted successfully"
                                          deletedRecipe)
             end
       end)
      (ROLLBACK ;;
       json 500 (JError "Internal server error while deleting recipe."))
.

(** *** The ingredient routes that return or remove rows *)

(** [res.status(status).json(body)] for the two routes below. *)
Definition send_ingredients (status : nat) (body : IngredientsJson) :
    Async IngredientsResponse :=
  ret {| ingredients_status := status; ingredients_body := body |}.

Section Collation.
Variable collate : string -> string -> Z.

(** [GET /api/ingredients] *)
Definition listIngredients : Async IngredientsResponse :=
  try_catch
    (result <- pool_query (select_ingredients collate) ;;
     send_ingredients 200 (JIngredients result))
    (send_ingredients 500 (JIngredientsError "Internal server error")).
End Collation.

Section ErrorCodes.
(** [sqlstate n] is the [code] of the error with which the store rejects
    its [n]-th request, when it does. *)
Variable sqlstate : nat -> string.

(** [DELETE /api/ingredients/:id], with [id] from [req.params].  The only
    request of the [try] block is the one before the clock of the [catch]
    block. *)
Definition deleteIngredient (id : string) : Async IngredientsResponse :=
  if negb (test_digits id) then
    send_ingredients 400 (JIngredientsError "Invalid ingredient ID format.")
  else
    try_catch
      (result <- pool_query (delete_ingredient (int_of_param id)) ;;
       match result with
       | [] => send_ingredients 404 (JIngredientsError "Ingredient not found.")
       | deletedIngredient :: _ =>
           send_ingredients 200
             (JDeletedIngredient "Ingredient deleted successfully" deletedIngredient)
       end)
      (fun pg =>
         if sqlstate (pred (clock pg)) =? "23503" then
           send_ingredients 409
             (JIngredientsError "Cannot delete ingredient as it is used in recipes.") pg
         else
           send_ingredients 500 (JIngredientsError "Internal server error") pg).
End ErrorCodes.

End Storage.

(** *** Serving one request

    A handler runs on a connection of its own against the persisted state;
    what it leaves behind is what was committed.  No response is sent when
    the handler itself throws. *)
Definition serve {A} (handler : Async A) (db : Db) : option A * Db :=
  let '(outcome, pg) :=
    handler {| committed := tables db; tx := None; seqs := sequences db; clock := 0 |} in
  (match outcome with Returned a => Some a | Thrown => None end,
   {| tables := committed pg; sequences := seqs pg |}).

End Server.

(* ------------------------------------------------------------------ *)
(** ** The API client: the [App.tsx] that talks to the server *)

Module ApiClient.

(** Types *)
Record Ingredient := { i_id : Z; i_name : string }.
Record Recipe :=
  { r_id : Z;
    r_name : string;
    r_ingredients : list App.RecipeIngredient;
    r_instructions : string }.

(** State management *)
Record State :=
  { ingredients : list Ingredient;
    recipes : list Recipe;
    loading : bool;
    error : option string }.

Inductive Action : Type :=
| SET_LOADING (payload : bool)
| SET_ERROR (payload : option string)
| SET_INGREDIENTS (payload : list Ingredient)
| ADD_INGREDIENT (payload : Ingredient)
| REMOVE_INGREDIENT (payload : Z)
| SET_RECIPES (payload : list Recipe)
| ADD_RECIPE (payload : Recipe)
| REMOVE_RECIPE (payload : Z).

Definition initialState : State :=
  {| ingredients := []; recipes := []; loading := true; error := None |}.

Definition reducer (state : State) (action : Action) : State :=
  match action with
  | SET_LOADING payload =>
      {| ingredients := ingredients state; recipes := recipes state;
         loading := payload; error := error state |}
  | SET_ERROR payload =>
      {| ingredients := ingredients state; recipes := recipes state;
         loading := false; error := payload |}
  | SET_INGREDIENTS payload =>
      {| ingredients := payload; recipes := recipes state;
         loading := false; error := error state |}
  | ADD_INGREDIENT payload =>
      if existsb (fun i => (i_id i =? i_id payload)%Z) (ingredients state) then state
      else {| ingredients := ingredients state ++ [payload]; recipes := recipes state;
              loading := loading state; error := error state |}
  | REMOVE_INGREDIENT payload =>
      {| ingredients := filter (fun i => negb (i_id i =? payload)%Z) (ingredients state);
         recipes := recipes state; loading := loading state; error := error state |}
  | SET_RECIPES payload =>
      {| ingredients := ingredients state; recipes := payload;
         loading := false; error := error state |}
  | ADD_RECIPE payload =>
      if existsb (fun r => (r_id r =? r_id payload)%Z) (recipes state) then state
      else {| ingredients := ingredients state; recipes := recipes state ++ [payload];
              loading := loading state; error := error state |}
  | REMOVE_RECIPE payload =>
      {| ingredients := ingredients state;
         recipes := filter (fun r => negb (r_id r =? payload)%Z) (recipes state);
         loading := loading state; error := error state |}
  end.

(** [response.ok]: a status from 200 to 299. *)
Definition ok (r : Server.Response) : bool :=
  (200 <=? Server.status r)%nat && (Server.status r <=? 299)%nat.

(** *** [IngredientManager.addIngredient]

    The name the handler posts, if it posts one: nothing when the trimmed
    name is empty or some ingredient of the state has it up to case. *)
Definition addIngredient_name
    (state : State) (newIngredient : string) (nameToAdd : option string) :
    option string :=
  let ingredientName :=
    trim (match nameToAdd with
          | Some n => if truthy n then n else newIngredient
          | None => newIngredient
          end) in
  if negb (truthy ingredientName) then None
  else if existsb (fun i => toLowerCase (i_name i) =? toLowerCase ingredientName)
                  (ingredients state)
  then None
  else Some ingredientName.


(** The ingredient the client reads from the body of a response. *)
Definition ingredient_of_json (j : Server.Json) : option Ingredient :=
  match j with
  | Server.JIngredient row =>
      Some {| i_id := Server.ing_id row; i_name := Server.ing_name row |}
  | _ => None
  end.

Section Storage.
Variable fails : nat -> bool.

(** [addIngredient(nameToAdd?)] against the server on [db]: the state and
    the store afterwards.  A request that is not answered, or not with a
    status from 200 to 299, ends in the [catch] block, which leaves the
    state alone. *)
Definition addIngredient
    (state : State) (newIngredient : string) (nameToAdd : option string)
    (db : Server.Db) : State * Server.Db :=
  match addIngredient_name state newIngredient nameToAdd with
  | None => (state, db)
  | Some ingredientName =>
      let '(response, db') :=
        Server.serve (Server.addIngredient fails (Some ingredientName)) db in
      match response with
      | Some r =>
          if ok r then
            match ingredient_of_json (Server.body r) with
            | Some addedIngredient => (reducer state (ADD_INGREDIENT addedIngredient), db')
            | None => (state, db')
            end
          else (state, db')
      | None => (state, db')
      end
  end.
End Storage.

(** *** [RecipeCreator.saveRecipe] *)

(** The object [recipeData]. *)
Record RecipeData :=
  { data_name : string;
    data_instructions : string;
    data_ingredients : list App.RecipeIngredient }.

(** The [recipeData] that [saveRecipe] posts; nothing when it alerts
    instead. *)
Definition saveRecipe_recipeData
    (name instructions : string) (ingredients : list App.RecipeIngredient) :
    option RecipeData :=
  if negb (truthy name) || negb (truthy instructions)
     || negb (existsb (fun i => truthy (App.ri_name i) && truthy (App.ri_quantity i))
                      ingredients)
  then None
  else
    let validIngredients :=
      filter (fun ing => truthy (App.ri_name ing) && truthy (App.ri_quantity ing))
        (map (fun ing => {| App.ri_name := trim (App.ri_name ing);
                            App.ri_quantity := trim (App.ri_quantity ing);
                            App.ri_unit := trim (App.ri_unit ing) |})
             ingredients) in
    if (List.length validIngredients =? 0)%nat then None
    else Some {| data_name := trim name;
                 data_instructions := trim instructions;
                 data_ingredients := validIngredients |}.

(** The request body the server parses out of [JSON.stringify(recipeData)]:
    every field is present. *)
Definition body_of (d : RecipeData) : Server.RecipeInput :=
  {| Server.body_name := Some (data_name d);
     Server.body_instructions := Some (data_instructions d);
     Server.body_ingredients :=
       Some (map (fun ing => {| Server.in_name := Some (App.ri_name ing);
                                Server.in_quantity := Some (App.ri_quantity ing);
                                Server.in_unit := Some (App.ri_unit ing) |})
                 (data_ingredients d)) |}.

(** The recipe the client reads from the body of a response. *)
Definition recipe_of_json (j : Server.Json) : option Recipe :=
  match j with
  | Server.JRecipe recipe =>
      Some {| r_id := Server.rec_id (Server.json_recipe recipe);
              r_name := Server.rec_name (Server.json_recipe recipe);
              r_ingredients :=
                map (fun i => {| App.ri_name := Server.json_name i;
                                 App.ri_quantity := Server.json_quantity i;
                                 App.ri_unit := Server.json_unit i |})
                    (Server.json_ingredients recipe);
              r_instructions := Server.rec_instructions (Server.json_recipe recipe) |}
  | _ => None
  end.

Section Saving.
Variable fails : nat -> bool.

(** [saveRecipe()] against the server on [db]: the state and the store
    afterwards. *)
Definition saveRecipe
    (state : State) (name instructions : string)
    (ingredients : list App.RecipeIngredient) (db : Server.Db) : State * Server.Db :=
  match saveRecipe_recipeData name instructions ingredients with
  | None => (state, db)
  | Some recipeData =>
      let '(response, db') :=
        Server.serve (Server.createRecipe fails (body_of recipeData)) db in
      match response with
      | Some r =>
          if ok r then
            match recipe_of_json (Server.body r) with
            | Some savedRecipe => (reducer state (ADD_RECIPE savedRecipe), db')
            | None => (state, db')
            end
          else (state, db')
      | None => (state, db')
      end
  end.
End Saving.

End ApiClient.

(* ------------------------------------------------------------------ *)
(** ** Notions the statements below are phrased with *)

(** [Subseq l1 l2]: [l1] is [l2] with some elements left out. *)
Inductive Subseq {A : Type} : list A -> list A -> Prop :=
| Subseq_nil : Subseq [] []
| Subseq_skip x l1 l2 : Subseq l1 l2 -> Subseq l1 (x :: l2)
| Subseq_keep x l1 l2 : Subseq l1 l2 -> Subseq (x :: l1) (x :: l2).

(** [s] lies inside [t]: [t] is [s] with something before and after. *)
Definition Substring (s t : string) : Prop :=
  exists before after, t = before ++ s ++ after.

(** Title case in one pass over the characters: a character for which
    [sep] holds separates words and is kept as it is; the first character
    of a word is upper-cased, the others are lower-cased.  [atStart] tells
    whether the next character starts a word. *)
Fixpoint titleCaseBy (sep : ascii -> bool) (atStart : bool) (s : string) : string :=
  match s with
  | EmptyString => EmptyString
  | String c r =>
      if sep c then String c (titleCaseBy sep true r)
      else String (if atStart then upperChar c else lowerChar c)
                  (titleCaseBy sep false r)
  end.

(** Words separated by the space character. *)
Definition titleCaseSpaces (s : string) : string :=
  titleCaseBy (fun c => Ascii.eqb c " ") true s.

(** Words separated by any white-space character. *)
Definition titleCaseWhiteSpace (s : string) : string :=
  titleCaseBy isWhiteSpace true s.

(** A string that does not begin with white space. *)
Definition cleanStart (s : string) : Prop :=
  match s with
  | EmptyString => True
  | String c _ => isWhiteSpace c = false
  end.

(** A character of ASCII: a code unit below 128. *)
Definition isAsciiChar (c : ascii) : bool := (nat_of_ascii c <? 128)%nat.

(** A string of ASCII characters: the strings on which [toLowerCase],
    [toUpperCase] and [trim] are exactly ECMAScript's. *)
Fixpoint isAscii (s : string) : bool :=
  match s with
  | EmptyString => true
  | String c r => isAsciiChar c && isAscii r
  end.

(** The comparison of strings by their code units, a consistent comparator. *)
Definition ordinalCompare (a b : string) : Z :=
  match String.compare a b with
  | Lt => (-1)%Z
  | Eq => 0%Z
  | Gt => 1%Z
  end.

(** Notions for the statements about the server. *)

Module ServerSpec.
Import Server.

(** A storage layer that accepts every request. *)
Definition reliable : nat -> bool := fun _ => false.

(** The string a field holds; the empty string when it is absent. *)
Definition field (v : option string) : string :=
  match v with
  | Some s => s
  | None => ""
  end.

(** A field that is present and not empty once trimmed. *)
Definition nonblank (v : option string) : bool :=
  match v with
  | Some s => negb (trim s =? "")
  | None => false
  end.

(** An ingredient of a request, trimmed, with [unit] defaulting to the
    empty string. *)
Definition trimmed (ing : IngredientInput) : IngredientJson :=
  {| json_name := trim (field (in_name ing));
     json_quantity := trim (field (in_quantity ing));
     json_unit := trim (field (in_unit ing)) |}.

(** What a [recipe_ingredients] row shows of an ingredient. *)
Definition shown (r : RecipeIngredientRow) : IngredientJson :=
  {| json_name := rin_name r; json_quantity := rin_quantity r; json_unit := rin_unit r |}.

(** The rows an ingredient list becomes under recipe [rid], with
    identifiers from [next] on. *)
Fixpoint rows_of (rid next : Z) (ings : list IngredientJson) : list RecipeIngredientRow :=
  match ings with
  | [] => []
  | ing :: rest =>
      {| rin_id := next; rin_recipe_id := rid;
         rin_name := json_name ing; rin_quantity := json_quantity ing;
         rin_unit := json_unit ing |} :: rows_of rid (next + 1) rest
  end.

(** The rows of [recipe_ingredients] that belong to recipe [rid]. *)
Definition ingredients_of (rid : Z) (t : Tables) : list RecipeIngredientRow :=
  filter (fun r => (rin_recipe_id r =? rid)%Z) (recipe_ingredients t).

(** The tables once recipe [rid] and its ingredient rows are gone. *)
Definition without_recipe (rid : Z) (t : Tables) : Tables :=
  {| ingredients := ingredients t;
     recipes := filter (fun r => negb (rec_id r =? rid)%Z) (recipes t);
     recipe_ingredients :=
       filter (fun r => negb (rin_recipe_id r =? rid)%Z) (recipe_ingredients t) |}.

(** The tables once [recipe] and its ingredient [rows] are added. *)
Definition with_recipe (recipe : RecipeRow) (rows : list RecipeIngredientRow)
    (t : Tables) : Tables :=
  {| ingredients := ingredients t;
     recipes := recipes t ++ [recipe];
     recipe_ingredients := recipe_ingredients t ++ rows |}.

(** The tables once the ingredient [row] is added. *)
Definition with_ingredient (row : IngredientRow) (t : Tables) : Tables :=
  {| ingredients := ingredients t ++ [row];
     recipes := recipes t;
     recipe_ingredients := recipe_ingredients t |}.

(** A recipe row with the ingredient rows of [t] that belong to it nested
    under it. *)
Definition nested (t : Tables) (recipe : RecipeRow) : RecipeJson :=
  {| json_recipe := recipe;
     json_ingredients := map shown (ingredients_of (rec_id recipe) t) |}.

(** An ingredient that passes the check of [createRecipe]: its name and
    its quantity are present and not empty. *)
Definition accepted (ing : IngredientInput) : Prop :=
  falsy (in_name ing) = false /\ falsy (in_quantity ing) = false.

(** The requests [createRecipe] turns down before it touches the store. *)
Definition rejected (req : RecipeInput) : bool :=
  match body_ingredients req with
  | None => true
  | Some ingredients =>
      falsy (body_name req) || falsy (body_instructions req)
      || existsb (fun ing => falsy (in_name ing) || falsy (in_quantity ing)) ingredients
  end.

(** The ingredient list of a request; empty when it is absent. *)
Definition ingredients_in (req : RecipeInput) : list IngredientInput :=
  match body_ingredients req with
  | Some ingredients => ingredients
  | None => []
  end.

(** The [recipes] row a request becomes under identifier [id]. *)
Definition recipe_row (id : Z) (req : RecipeInput) : RecipeRow :=
  {| rec_id := id;
     rec_name := trim (field (body_name req));
     rec_instructions := trim (field (body_instructions req));
     rec_is_custom := true |}.

(** The number of requests [createRecipe] sends to the store for a request
    that passes its validation: the connection, [BEGIN], the recipe row,
    one row per ingredient, and [COMMIT].  Numbered from 0, they are the
    requests [fails] is asked about during the write. *)
Definition requests_of (req : RecipeInput) : nat :=
  4 + List.length (ingredients_in req).

(** A store with a standard recipe and a custom one. *)
Definition cellar : Db :=
  {| tables :=
       {| ingredients := [ {| ing_id := 1; ing_name := "Gin" |} ];
          recipes :=
            [ {| rec_id := 1; rec_name := "Margarita";
                 rec_instructions := "Shake with ice."; rec_is_custom := false |};
              {| rec_id := 2; rec_name := "House Punch";
                 rec_instructions := "Stir."; rec_is_custom := true |} ];
          recipe_ingredients :=
            [ {| rin_id := 1; rin_recipe_id := 1; rin_name := "Tequila";
                 rin_quantity := "2"; rin_unit := "oz" |};
              {| rin_id := 2; rin_recipe_id := 2; rin_name := "Rum";
                 rin_quantity := "1"; rin_unit := "oz" |} ] |};
     sequences := {| ingredients_id_seq := 2; recipes_id_seq := 3;
                     recipe_ingredients_id_seq := 3 |} |}.

(** The ways [deleteRecipe] ends that are not a success: it throws, or it
    answers 403, 404 or 500. *)
Definition refusal (o : Outcome Response) : Prop :=
  o = Thrown \/ exists r, o = Returned r /\ In (status r) [403; 404; 500].

(** The status of the response, if one was sent. *)
Definition status_of (r : option Response) : option nat := option_map status r.

(** The validation the specification words for [createRecipe]: name and
    instructions not empty once trimmed, a non-empty ingredient sequence,
    every ingredient with a name and a quantity that are not empty once
    trimmed. *)
Definition valid_as_specified (req : RecipeInput) : bool :=
  nonblank (body_name req) && nonblank (body_instructions req) &&
  match body_ingredients req with
  | Some (ing :: rest) =>
      forallb (fun i => nonblank (in_name i) && nonblank (in_quantity i)) (ing :: rest)
  | _ => false
  end.

End ServerSpec.

(** Notions for the statements about the two clients. *)

Module ClientSpec.

(** Recipes whose ingredient names are strings of ASCII characters. *)
Definition asciiNames (rs : list App.Recipe) : bool :=
  forallb (fun r => forallb (fun ri => isAscii (App.ri_name ri)) (App.r_ingredients r))
          rs.

(** An inventory as [addIngredient] keeps it: no two names equal up to
    case, every name trimmed and not empty. *)
Definition inventory_ok (ings : list App.Ingredient) : Prop :=
  NoDup (map (fun i => toLowerCase (App.i_name i)) ings)
  /\ Forall (fun i => trim (App.i_name i) = App.i_name i /\ App.i_name i <> "") ings.

(** A row of the recipe form, trimmed. *)
Definition trimmedRow (ing : App.RecipeIngredient) : App.RecipeIngredient :=
  {| App.ri_name := trim (App.ri_name ing);
     App.ri_quantity := trim (App.ri_quantity ing);
     App.ri_unit := trim (App.ri_unit ing) |}.

(** A row whose name and quantity are trimmed and not empty. *)
Definition cleanRow (ing : App.RecipeIngredient) : Prop :=
  trim (App.ri_name ing) = App.ri_name ing /\ App.ri_name ing <> ""
  /\ trim (App.ri_quantity ing) = App.ri_quantity ing /\ App.ri_quantity ing <> ""
  /\ trim (App.ri_unit ing) = App.ri_unit ing.

(** The state of the API client holds no identifier twice. *)
Definition ids_distinct (s : ApiClient.State) : Prop :=
  NoDup (map ApiClient.i_id (ApiClient.ingredients s))
  /\ NoDup (map ApiClient.r_id (ApiClient.recipes s)).

(** An action whose payload, when it is a whole list, holds no identifier
    twice. *)
Definition payload_distinct (a : ApiClient.Action) : Prop :=
  match a with
  | ApiClient.SET_INGREDIENTS l => NoDup (map ApiClient.i_id l)
  | ApiClient.SET_RECIPES l => NoDup (map ApiClient.r_id l)
  | _ => True
  end.



End ClientSpec.

(** Notions for the statements about the store as a whole. *)

Module StoreSpec.
Import Server.


(** Every ingredient row of a recipe belongs to a recipe of the table. *)
Definition references_ok (t : Tables) : Prop :=
  Forall (fun i => exists r, In r (recipes t) /\ rec_id r = rin_recipe_id i)
         (recipe_ingredients t).

(** The identifiers of a table are pairwise distinct and below the next
    value of its sequence. *)
Definition ids_ok (t : Tables) (s : Sequences) : Prop :=
  (NoDup (map ing_id (ingredients t))
   /\ Forall (fun r => (ing_id r < ingredients_id_seq s)%Z) (ingredients t))
  /\ (NoDup (map rec_id (recipes t))
      /\ Forall (fun r => (rec_id r < recipes_id_seq s)%Z) (recipes t))
  /\ (NoDup (map rin_id (recipe_ingredients t))
      /\ Forall (fun r => (rin_id r < recipe_ingredients_id_seq s)%Z)
                (recipe_ingredients t)).

(** No sequence has gone back. *)
Definition seqs_le (s s' : Sequences) : Prop :=
  (ingredients_id_seq s <= ingredients_id_seq s')%Z
  /\ (recipes_id_seq s <= recipes_id_seq s')%Z
  /\ (recipe_ingredients_id_seq s <= recipe_ingredients_id_seq s')%Z.

(** The status of a response of the ingredient routes, if one was sent. *)
Definition ingredients_status_of (r : option IngredientsResponse) : option nat :=
  option_map ingredients_status r.

(** The tables without the ingredient [id]. *)
Definition without_ingredient (id : Z) (t : Tables) : Tables :=
  {| ingredients := filter (fun r => negb (ing_id r =? id)%Z) (ingredients t);
     recipes := recipes t;
     recipe_ingredients := recipe_ingredients t |}.

(** The identifiers are in order on a connection: in what is committed
    and in the working copy of the open transaction. *)
Definition pg_ids_ok (pg : Pg) : Prop :=
  ids_ok (committed pg) (seqs pg)
  /\ match tx pg with
     | Some t => ids_ok t (seqs pg)
     | None => True
     end.

(** A computation that keeps the identifiers in order and never moves a
    sequence back, however it ends. *)
Definition keeps {A} (m : Async A) : Prop :=
  forall pg, pg_ids_ok pg ->
    pg_ids_ok (snd (m pg)) /\ seqs_le (seqs pg) (seqs (snd (m pg))).

(** A statement that keeps the identifiers in order. *)
Definition sql_keeps {A} (stmt : Sql A) : Prop :=
  forall t s, ids_ok t s ->
    seqs_le s (snd (stmt t s))
    /\ match fst (stmt t s) with
       | Some (_, t') => ids_ok t' (snd (stmt t s))
       | None => True
       end.

End StoreSpec.

(* ------------------------------------------------------------------ *)
(** ** Facts about the JavaScript primitives *)

Module JsFacts.

Lemma has_In (x : string) (l : list string) :
  existsb (String.eqb x) l = true <-> In x l.
Proof.
  rewrite existsb_exists. split.
  - intros [y [Hy He]]. apply String.eqb_eq in He. now subst.
  - intros H. exists x. split; [assumption | apply String.eqb_refl].
Qed.

Lemma prefix_app (p s : string) :
  String.prefix p s = true <-> exists rest, s = p ++ rest.
Proof.
  revert s. induction p as [| a p IH]; intros s; simpl.
  - split; [intros _; now exists s | intros _; now destruct s].
  - destruct s as [| b s].
    + split; [discriminate | intros [rest H]; discriminate].
    + simpl. destruct (ascii_dec a b) as [-> | Hne].
      * rewrite IH. split; intros [rest H]; exists rest.
        -- now rewrite H.
        -- now inversion H.
      * split; [discriminate | intros [rest H]; simpl in H; congruence].
Qed.

Lemma includes_Substring (s sub : string) :
  JsString.includes s sub = true <-> Substring sub s.
Proof.
  unfold Substring. induction s as [| c s IH]; cbn [JsString.includes].
  - rewrite orb_false_r, prefix_app. split.
    + intros [rest H]. exists "", rest. exact H.
    + intros [before [after H]]. destruct before; simpl in H.
      * now exists after.
      * discriminate.
  - rewrite orb_true_iff, prefix_app, IH. split.
    + intros [[rest H] | [before [after H]]].
      * exists "", rest. exact H.
      * exists (String c before), after. simpl. now rewrite H.
    + intros [before [after H]]. destruct before as [| b before]; simpl in H.
      * left. now exists after.
      * right. inversion H. now exists before, after.
Qed.

Lemma filter_Subseq {A} (f : A -> bool) (l : list A) : Subseq (filter f l) l.
Proof.
  induction l as [| x l IH]; simpl.
  - constructor.
  - destruct (f x); now constructor.
Qed.

Lemma Subseq_refl {A} (l : list A) : Subseq l l.
Proof. induction l; now constructor. Qed.

Lemma Subseq_trans {A} (l1 l2 l3 : list A) :
  Subseq l1 l2 -> Subseq l2 l3 -> Subseq l1 l3.
Proof.
  intros H12 H23. revert l1 H12.
  induction H23 as [| x l2 l3 H IH | x l2 l3 H IH]; intros l1 H12.
  - assumption.
  - constructor. now apply IH.
  - inversion H12; subst.
    + constructor. now apply IH.
    + apply Subseq_keep. now apply IH.
Qed.

Lemma Subseq_In {A} (l1 l2 : list A) :
  Subseq l1 l2 -> forall x, In x l1 -> In x l2.
Proof.
  induction 1 as [| y l1 l2 H IH | y l1 l2 H IH]; intros x Hx.
  - assumption.
  - right. now apply IH.
  - destruct Hx as [-> | Hx]; [now left | right; now apply IH].
Qed.

Lemma Subseq_NoDup {A} (l1 l2 : list A) :
  Subseq l1 l2 -> NoDup l2 -> NoDup l1.
Proof.
  induction 1 as [| y l1 l2 H IH | y l1 l2 H IH]; intros Hnd.
  - assumption.
  - inversion Hnd; subst. now apply IH.
  - inversion Hnd; subst. constructor.
    + intros Hin. apply (Subseq_In _ _ H) in Hin. contradiction.
    + now apply IH.
Qed.

(** The insertion-ordered set. *)

Lemma add_In (x y : string) (l : list string) :
  In y (JsSet.add x l) <-> In y l \/ y = x.
Proof.
  unfold JsSet.add, JsSet.has. destruct (existsb (String.eqb x) l) eqn:E.
  - apply has_In in E. split; [tauto | intros [H | ->]; assumption].
  - rewrite in_app_iff. simpl. intuition auto.
Qed.

Lemma add_NoDup (x : string) (l : list string) :
  NoDup l -> NoDup (JsSet.add x l).
Proof.
  intros Hnd. unfold JsSet.add, JsSet.has.
  destruct (existsb (String.eqb x) l) eqn:E; [assumption |].
  apply NoDup_app; [assumption | repeat constructor; intros [] |].
  intros y Hy [<- | []].
  apply has_In in Hy. congruence.
Qed.

Lemma ofList_In (x : string) (l : list string) :
  In x (JsSet.ofList l) <-> In x l.
Proof.
  unfold JsSet.ofList.
  assert (G : forall acc, In x (fold_left (fun s y => JsSet.add y s) l acc) <->
                          In x acc \/ In x l).
  { induction l as [| y l IH]; intros acc; simpl.
    - tauto.
    - rewrite IH, add_In. split; intros H; intuition auto. }
  rewrite G. simpl. tauto.
Qed.

(** The stable sort. *)

Section SortFacts.
Context {A : Type}.
Variable cmp : A -> A -> Z.

Lemma insert_Permutation (x : A) (l : list A) :
  Permutation (JsArray.insert cmp x l) (x :: l).
Proof.
  induction l as [| y l IH]; simpl.
  - reflexivity.
  - destruct (cmp x y <=? 0)%Z.
    + reflexivity.
    + rewrite IH. apply perm_swap.
Qed.

Lemma sort_Permutation (l : list A) : Permutation (JsArray.sort cmp l) l.
Proof.
  induction l as [| x l IH]; simpl.
  - reflexivity.
  - rewrite insert_Permutation. now constructor.
Qed.

Hypothesis cmp_flip : forall a b, (0 < cmp a b)%Z -> (cmp b a <= 0)%Z.
Hypothesis cmp_trans :
  forall a b c, (cmp a b <= 0)%Z -> (cmp b c <= 0)%Z -> (cmp a c <= 0)%Z.

Lemma insert_StronglySorted (x : A) (l : list A) :
  StronglySorted (fun a b => (cmp a b <= 0)%Z) l ->
  StronglySorted (fun a b => (cmp a b <= 0)%Z) (JsArray.insert cmp x l).
Proof.
  induction l as [| y l IH]; intros Hs; simpl.
  - repeat constructor.
  - inversion Hs as [| y' l' Hl Hy]; subst.
    destruct (cmp x y <=? 0)%Z eqn:E.
    + apply Z.leb_le in E. constructor; [assumption |].
      constructor; [assumption |].
      rewrite Forall_forall in *. intros z Hz. eapply cmp_trans; eauto.
    + apply Z.leb_gt in E. constructor; [now apply IH |].
      rewrite Forall_forall in *. intros z Hz.
      apply (Permutation_in _ (insert_Permutation x l)) in Hz.
      destruct Hz as [<- | Hz]; [now apply cmp_flip | now apply Hy].
Qed.

Lemma sort_StronglySorted (l : list A) :
  StronglySorted (fun a b => (cmp a b <= 0)%Z) (JsArray.sort cmp l).
Proof.
  induction l as [| x l IH]; simpl.
  - constructor.
  - now apply insert_StronglySorted.
Qed.
End SortFacts.

(** [ordinalCompare] is a consistent comparator. *)

Lemma compare_le_trans (a b c : string) :
  String.compare a b <> Gt -> String.compare b c <> Gt -> String.compare a c <> Gt.
Proof.
  revert b c. induction a as [| x a IH]; intros [| y b] [| z c]; simpl;
    try congruence.
  unfold Ascii.compare.
  destruct (N.compare_spec (N_of_ascii x) (N_of_ascii y)) as [Exy | Lxy | Gxy];
    destruct (N.compare_spec (N_of_ascii y) (N_of_ascii z)) as [Eyz | Lyz | Gyz];
    destruct (N.compare_spec (N_of_ascii x) (N_of_ascii z)) as [Exz | Lxz | Gxz];
    intros H1 H2; try congruence; try lia.
  now apply (IH b c).
Qed.

Lemma ordinalCompare_flip (a b : string) :
  (0 < ordinalCompare a b)%Z -> (ordinalCompare b a <= 0)%Z.
Proof.
  unfold ordinalCompare. rewrite (String.compare_antisym b a).
  destruct (String.compare a b); simpl; lia.
Qed.

Lemma ordinalCompare_trans (a b c : string) :
  (ordinalCompare a b <= 0)%Z -> (ordinalCompare b c <= 0)%Z ->
  (ordinalCompare a c <= 0)%Z.
Proof.
  unfold ordinalCompare. intros Hab Hbc.
  assert (H := compare_le_trans a b c).
  destruct (String.compare a b), (String.compare b c), (String.compare a c);
    try lia; exfalso; apply H; congruence.
Qed.

End JsFacts.

(* ------------------------------------------------------------------ *)
(** ** The availability engine *)

Module AppFacts.
Import App JsFacts.

Lemma canMakeRecipe_iff (ings : list Ingredient) (r : Recipe) :
  canMakeRecipe ings r = true <->
  forall ri, In ri (r_ingredients r) ->
    exists i, In i ings /\ toLowerCase (i_name i) = toLowerCase (ri_name ri).
Proof.
  unfold canMakeRecipe, JsArray.includes. rewrite forallb_forall.
  split; intros H ri Hri; specialize (H ri Hri).
  - apply has_In, in_map_iff in H. destruct H as [i [He Hi]]. now exists i.
  - destruct H as [i [Hi He]]. apply has_In, in_map_iff. now exists i.
Qed.

Lemma canMakeRecipe_names (ings : list Ingredient) (r r' : Recipe) :
  map ri_name (r_ingredients r) = map ri_name (r_ingredients r') ->
  canMakeRecipe ings r = canMakeRecipe ings r'.
Proof.
  unfold canMakeRecipe. intros H.
  set (f := fun n => JsArray.includes
                       (map (fun i => toLowerCase (i_name i)) ings) (toLowerCase n)).
  change (forallb (fun ri => f (ri_name ri)) (r_ingredients r) =
          forallb (fun ri => f (ri_name ri)) (r_ingredients r')).
  assert (E : forall l, forallb (fun ri => f (ri_name ri)) l = forallb f (map ri_name l)).
  { induction l as [| x l IH]; simpl; [reflexivity | now rewrite IH]. }
  now rewrite !E, H.
Qed.

(** C5. [canMakeRecipe] holds exactly when every ingredient name of the
    recipe equals, after lower-casing both, the name of some ingredient of
    the set; two recipes that list the same names (whatever the quantities
    and units) get the same answer; the Margarita of the standard recipes
    is makeable from Tequila, Lime Juice and Triple Sec, and no longer
    makeable once Triple Sec is taken away. *)
Theorem canMakeRecipe_spec :
  (forall ings r,
     canMakeRecipe ings r = true <->
     forall ri, In ri (r_ingredients r) ->
       exists i, In i ings /\ toLowerCase (i_name i) = toLowerCase (ri_name ri))
  /\ (forall ings r r',
        map ri_name (r_ingredients r) = map ri_name (r_ingredients r') ->
        canMakeRecipe ings r = canMakeRecipe ings r')
  /\ (forall margarita id1 id2 id3,
        In margarita STANDARD_RECIPES -> r_name margarita = "Margarita" ->
        canMakeRecipe [ {| i_id := id1; i_name := "Tequila" |};
                        {| i_id := id2; i_name := "Lime Juice" |};
                        {| i_id := id3; i_name := "Triple Sec" |} ] margarita = true
        /\ canMakeRecipe [ {| i_id := id1; i_name := "Tequila" |};
                           {| i_id := id2; i_name := "Lime Juice" |} ] margarita = false).
Proof.
  split; [exact canMakeRecipe_iff | split; [exact canMakeRecipe_names |]].
  intros margarita id1 id2 id3 Hin Hname.
  destruct Hin as [<- | [<- | []]].
  - split; reflexivity.
  - discriminate Hname.
Qed.

(** C6. [canMakeRecipe] is monotonic in the ingredient set: a recipe that
    can be made from [S1] can be made from every [S2] that includes [S1]. *)
Theorem canMakeRecipe_monotonic (r : Recipe) (S1 S2 : list Ingredient) :
  incl S1 S2 -> canMakeRecipe S1 r = true -> canMakeRecipe S2 r = true.
Proof.
  intros Hincl. rewrite !canMakeRecipe_iff. intros H ri Hri.
  destruct (H ri Hri) as [i [Hi He]].
  exists i. split; [now apply Hincl | exact He].
Qed.

Lemma canMakeRecipe_monotonic_witness :
  canMakeRecipe
    [ {| i_id := "3"; i_name := "triple sec" |};
      {| i_id := "1"; i_name := "Tequila" |};
      {| i_id := "4"; i_name := "Gin" |};
      {| i_id := "2"; i_name := "LIME JUICE" |} ]
    (hd {| r_id := ""; r_name := ""; r_ingredients := [];
           r_instructions := ""; r_isCustom := false |} STANDARD_RECIPES) = true.
Proof.
  apply (canMakeRecipe_monotonic _
           [ {| i_id := "1"; i_name := "Tequila" |};
             {| i_id := "2"; i_name := "LIME JUICE" |};
             {| i_id := "3"; i_name := "triple sec" |} ]).
  - intros i [<- | [<- | [<- | []]]]; simpl; tauto.
  - reflexivity.
Defined.

Lemma filter_filter_comm {A} (f g : A -> bool) (l : list A) :
  filter f (filter g l) = filter g (filter f l).
Proof.
  induction l as [| x l IH]; simpl; [reflexivity |].
  destruct (f x) eqn:Ef, (g x) eqn:Eg; simpl; rewrite ?Ef, ?Eg, IH; reflexivity.
Qed.

Lemma filter_filter_andb {A} (f g : A -> bool) (l : list A) :
  filter g (filter f l) = filter (fun x => f x && g x) l.
Proof.
  induction l as [| x l IH]; simpl; [reflexivity |].
  destruct (f x) eqn:Ef; simpl; [destruct (g x) |]; now rewrite IH.
Qed.

(** C8. [useRecipeFilter] first keeps the recipes whose lower-cased name
    contains the lower-cased search term (only when the term is not empty),
    then keeps the makeable ones (only when [showMakeable] is set); a recipe
    is in the result exactly when it passes each active filter, and taking
    the two steps in the opposite order gives the same list. *)
Theorem useRecipeFilter_order_independent
    (recipes : list Recipe) (ings : list Ingredient)
    (search : string) (showMakeable : bool) :
  useRecipeFilter recipes ings search showMakeable =
    (if showMakeable then filter (canMakeRecipe ings) else fun l => l)
      ((if truthy search then filter (matchesSearch search) else fun l => l) recipes)
  /\ (forall r, matchesSearch search r = true <->
                Substring (toLowerCase search) (toLowerCase (r_name r)))
  /\ (truthy search = true <-> search <> "")
  /\ (forall r, In r (useRecipeFilter recipes ings search showMakeable) <->
                In r recipes
                /\ (search <> "" ->
                    Substring (toLowerCase search) (toLowerCase (r_name r)))
                /\ (showMakeable = true -> canMakeRecipe ings r = true))
  /\ useRecipeFilter_swapped recipes ings search showMakeable =
     useRecipeFilter recipes ings search showMakeable.
Proof.
  assert (Ht : truthy search = true <-> search <> "").
  { unfold truthy. rewrite negb_true_iff. split.
    - intros H ->. discriminate.
    - intros H. destruct (String.eqb_spec search ""); [contradiction | reflexivity]. }
  assert (Hm : forall r, matchesSearch search r = true <->
                         Substring (toLowerCase search) (toLowerCase (r_name r))).
  { intros r. apply includes_Substring. }
  split; [| split; [exact Hm | split; [exact Ht | split]]].
  - unfold useRecipeFilter. destruct (truthy search), showMakeable; reflexivity.
  - intros r. unfold useRecipeFilter.
    destruct (truthy search) eqn:Es, showMakeable;
      rewrite ?filter_In, ?Hm; try rewrite filter_In; rewrite ?Hm.
    + split.
      * intros [[H1 H2] H3]. auto.
      * intros [H1 [H2 H3]]. split; [split |]; auto. apply H2. now apply Ht.
    + split.
      * intros [H1 H2]. split; [| split]; auto. discriminate.
      * intros [H1 [H2 _]]. split; auto. apply H2. now apply Ht.
    + split.
      * intros [H1 H2]. split; [| split]; auto.
        intros Hne. apply Ht in Hne. discriminate.
      * intros [H1 [_ H3]]. auto.
    + split.
      * intros H1. split; [| split]; auto; try discriminate.
        intros Hne. apply Ht in Hne. discriminate.
      * tauto.
  - unfold useRecipeFilter_swapped, useRecipeFilter.
    destruct (truthy search), showMakeable; try reflexivity.
    apply filter_filter_comm.
Qed.

(** C10. The result of [useRecipeFilter] is its input with some recipes
    left out: every recipe of the result is a recipe of the input, the
    input's order is kept, nothing is repeated that the input does not
    repeat, and with an empty search term and [showMakeable] off the result
    is the input itself. *)
Theorem useRecipeFilter_subsequence
    (recipes : list Recipe) (ings : list Ingredient)
    (search : string) (showMakeable : bool) :
  Subseq (useRecipeFilter recipes ings search showMakeable) recipes
  /\ (forall r, In r (useRecipeFilter recipes ings search showMakeable) -> In r recipes)
  /\ (NoDup recipes -> NoDup (useRecipeFilter recipes ings search showMakeable))
  /\ useRecipeFilter recipes ings "" false = recipes.
Proof.
  assert (H : Subseq (useRecipeFilter recipes ings search showMakeable) recipes).
  { unfold useRecipeFilter. destruct (truthy search), showMakeable.
    - eapply Subseq_trans; apply filter_Subseq.
    - apply filter_Subseq.
    - apply filter_Subseq.
    - apply Subseq_refl. }
  split; [exact H | split; [| split]].
  - apply Subseq_In, H.
  - apply Subseq_NoDup, H.
  - reflexivity.
Qed.

(** *** [availableSuggestions] *)

Lemma split_not_nil (sep : ascii) (s : string) : split sep s <> [].
Proof.
  induction s as [| c s IH]; simpl; [discriminate |].
  destruct (Ascii.eqb c sep); [discriminate |].
  destruct (split sep s); [contradiction | discriminate].
Qed.

Lemma join_String (sep : string) (c : ascii) (w : string) (ws : list string) :
  join sep (String c w :: ws) = String c (join sep (w :: ws)).
Proof. unfold join. destruct ws; reflexivity. Qed.

Lemma join_empty_cons (sep w : string) (ws : list string) :
  join sep ("" :: w :: ws) = sep ++ join sep (w :: ws).
Proof. reflexivity. Qed.

(** The words of [split], re-joined after the first one is lower-cased or
    capitalised, are the one-pass title case started inside or at the start
    of a word. *)
Lemma split_titleCaseBy (s : string) :
  join " " (map capitalize (split " " s)) =
    titleCaseBy (fun c => Ascii.eqb c " ") true s
  /\ join " " (match split " " s with
               | w :: ws => toLowerCase w :: map capitalize ws
               | [] => []
               end) =
     titleCaseBy (fun c => Ascii.eqb c " ") false s.
Proof.
  induction s as [| c s [IHt IHf]]; [split; reflexivity |].
  cbn [split titleCaseBy].
  destruct (Ascii.eqb c " ") eqn:E.
  - apply Ascii.eqb_eq in E. subst c.
    destruct (split " " s) as [| w ws] eqn:Es; [now apply split_not_nil in Es |].
    cbn [map]. change (capitalize "") with "". change (toLowerCase "") with "".
    rewrite join_empty_cons. cbn [map] in IHt. rewrite IHt. split; reflexivity.
  - destruct (split " " s) as [| w ws] eqn:Es; [now apply split_not_nil in Es |].
    cbn [map].
    change (capitalize (String c w)) with (String (upperChar c) (toLowerCase w)).
    cbn [toLowerCase]. rewrite !join_String, IHf. split; reflexivity.
Qed.

Lemma normalizedName_titleCase (name : string) :
  normalizedName name = titleCaseSpaces (trim name).
Proof. unfold normalizedName, titleCaseSpaces. apply split_titleCaseBy. Qed.

Lemma truthy_iff (s : string) : truthy s = true <-> s <> "".
Proof.
  unfold truthy. rewrite negb_true_iff. split.
  - intros H ->. discriminate.
  - intros H. destruct (String.eqb_spec s ""); [contradiction | reflexivity].
Qed.

(** What one recipe adds to the set of names. *)
Lemma names_of_recipe_In (l : list RecipeIngredient) (acc : list string) (s : string) :
  In s (fold_left
          (fun names ing =>
             let n := normalizedName (ri_name ing) in
             if truthy n then JsSet.add n names else names) l acc) <->
  In s acc \/
  exists ri, In ri l /\ s = normalizedName (ri_name ri) /\ s <> "".
Proof.
  revert acc. induction l as [| ing l IH]; intros acc; simpl.
  - split; [tauto | intros [H | [ri [[] _]]]; assumption].
  - rewrite IH. destruct (truthy (normalizedName (ri_name ing))) eqn:E.
    + rewrite add_In. apply truthy_iff in E. split.
      * intros [[H | ->] | [ri [H1 H2]]]; eauto 6.
      * intros [H | [ri [[-> | H1] [H2 H3]]]]; eauto 6.
    + split.
      * intros [H | [ri [H1 H2]]]; eauto 6.
      * intros [H | [ri [[-> | H1] [H2 H3]]]]; eauto 6.
        subst s. apply truthy_iff in H3. congruence.
Qed.

Lemma names_of_recipe_NoDup (l : list RecipeIngredient) (acc : list string) :
  NoDup acc ->
  NoDup (fold_left
           (fun names ing =>
              let n := normalizedName (ri_name ing) in
              if truthy n then JsSet.add n names else names) l acc).
Proof.
  revert acc. induction l as [| ing l IH]; intros acc Hnd; simpl; [assumption |].
  apply IH. destruct (truthy _); [now apply add_NoDup | assumption].
Qed.

Lemma allRecipeIngredientNames_In (allRecipes : list Recipe) (s : string) :
  In s (allRecipeIngredientNames allRecipes) <->
  exists r ri, In r allRecipes /\ In ri (r_ingredients r)
               /\ s = normalizedName (ri_name ri) /\ s <> "".
Proof.
  unfold allRecipeIngredientNames.
  assert (G : forall acc,
    In s (fold_left
            (fun names recipe =>
               fold_left
                 (fun names ing =>
                    let n := normalizedName (ri_name ing) in
                    if truthy n then JsSet.add n names else names)
                 (r_ingredients recipe) names) allRecipes acc) <->
    In s acc \/
    exists r ri, In r allRecipes /\ In ri (r_ingredients r)
                 /\ s = normalizedName (ri_name ri) /\ s <> "").
  { induction allRecipes as [| r rs IH]; intros acc; simpl.
    - split; [tauto | intros [H | [r [ri [[] _]]]]; assumption].
    - rewrite IH, names_of_recipe_In. split.
      + intros [[H | [ri [H1 H2]]] | [r' [ri [H1 H2]]]]; eauto 8.
      + intros [H | [r' [ri [[-> | H1] H2]]]]; eauto 8. }
  rewrite G. simpl. tauto.
Qed.

Lemma allRecipeIngredientNames_NoDup (allRecipes : list Recipe) :
  NoDup (allRecipeIngredientNames allRecipes).
Proof.
  unfold allRecipeIngredientNames.
  assert (G : forall acc, NoDup acc ->
    NoDup (fold_left
             (fun names recipe =>
                fold_left
                  (fun names ing =>
                     let n := normalizedName (ri_name ing) in
                     if truthy n then JsSet.add n names else names)
                  (r_ingredients recipe) names) allRecipes acc)).
  { induction allRecipes as [| r rs IH]; intros acc Hnd; simpl; [assumption |].
    apply IH. now apply names_of_recipe_NoDup. }
  apply G. constructor.
Qed.

Lemma filter_NoDup {A} (f : A -> bool) (l : list A) : NoDup l -> NoDup (filter f l).
Proof. apply Subseq_NoDup, filter_Subseq. Qed.

(** C7, as the code has it.  For a consistent comparator, the suggestions
    are pairwise distinct and sorted by [localeCompare]; a name is suggested
    exactly when it is the normalised name of an ingredient of some recipe,
    is not empty, and differs, lower-cased, from the lower-cased name of
    every current ingredient.  Normalising a name trims it and puts it in
    title case with words separated by the space character.  With a recipe
    asking for "lime juice" and "gin" and the current ingredient
    "Lime Juice", the suggestions are "Gin" alone. *)
Theorem suggestIngredients_spec
    (localeCompare : string -> string -> Z)
    (allRecipes : list Recipe) (ings : list Ingredient) :
  (forall a b, (0 < localeCompare a b)%Z -> (localeCompare b a <= 0)%Z) ->
  (forall a b c, (localeCompare a b <= 0)%Z -> (localeCompare b c <= 0)%Z ->
                 (localeCompare a c <= 0)%Z) ->
  NoDup (suggestIngredients localeCompare allRecipes ings)
  /\ StronglySorted (fun a b => (localeCompare a b <= 0)%Z)
                    (suggestIngredients localeCompare allRecipes ings)
  /\ (forall s,
        In s (suggestIngredients localeCompare allRecipes ings) <->
        (exists r ri, In r allRecipes /\ In ri (r_ingredients r)
                      /\ s = titleCaseSpaces (trim (ri_name ri)))
        /\ s <> ""
        /\ (forall i, In i ings -> toLowerCase (i_name i) <> toLowerCase s))
  /\ (forall id instructions isCustom q1 u1 q2 u2 iid,
        suggestIngredients localeCompare
          [ {| r_id := id; r_name := "Gimlet";
               r_ingredients :=
                 [ {| ri_name := "lime juice"; ri_quantity := q1; ri_unit := u1 |};
                   {| ri_name := "gin"; ri_quantity := q2; ri_unit := u2 |} ];
               r_instructions := instructions; r_isCustom := isCustom |} ]
          [ {| i_id := iid; i_name := "Lime Juice" |} ] = ["Gin"]).
Proof.
  intros Hflip Htrans. unfold suggestIngredients.
  split; [| split; [| split]].
  - eapply Permutation_NoDup.
    + symmetry. apply sort_Permutation.
    + apply filter_NoDup, allRecipeIngredientNames_NoDup.
  - now apply sort_StronglySorted.
  - intros s.
    assert (P := sort_Permutation localeCompare
      (filter (fun suggestion =>
                 negb (JsSet.has (toLowerCase suggestion)
                         (JsSet.ofList (map (fun i => toLowerCase (i_name i)) ings))))
              (allRecipeIngredientNames allRecipes))).
    split.
    + intros H. apply (Permutation_in _ P) in H.
      apply filter_In in H. destruct H as [H1 H2].
      apply allRecipeIngredientNames_In in H1.
      destruct H1 as [r [ri [Hr [Hri [Hs Hne]]]]].
      split; [| split].
      * exists r, ri. now rewrite <- normalizedName_titleCase.
      * assumption.
      * intros i Hi He. apply negb_true_iff in H2.
        assert (T : JsSet.has (toLowerCase s)
                      (JsSet.ofList (map (fun i => toLowerCase (i_name i)) ings)) = true).
        { apply has_In, ofList_In, in_map_iff. now exists i. }
        congruence.
    + intros [[r [ri [Hr [Hri Hs]]]] [Hne Hnot]].
      apply (Permutation_in _ (Permutation_sym P)).
      apply filter_In. split.
      * apply allRecipeIngredientNames_In. exists r, ri.
        now rewrite normalizedName_titleCase.
      * apply negb_true_iff.
        destruct (JsSet.has _ _) eqn:E; [| reflexivity].
        apply has_In, ofList_In, in_map_iff in E.
        destruct E as [i [He Hi]]. exfalso. now apply (Hnot i).
  - intros. reflexivity.
Qed.

Lemma suggestIngredients_spec_witness :
  NoDup (suggestIngredients ordinalCompare STANDARD_RECIPES
           [ {| i_id := "1"; i_name := "tequila" |} ])
  /\ StronglySorted (fun a b => (ordinalCompare a b <= 0)%Z)
       (suggestIngredients ordinalCompare STANDARD_RECIPES
          [ {| i_id := "1"; i_name := "tequila" |} ]).
Proof.
  destruct (suggestIngredients_spec ordinalCompare STANDARD_RECIPES
              [ {| i_id := "1"; i_name := "tequila" |} ]
              ordinalCompare_flip ordinalCompare_trans) as [H1 [H2 _]].
  exact (conj H1 H2).
Defined.

(** C7, as the claim has it, fails: a tab separates words for the claim
    but not for the code, so the name "gin<TAB>tonic" is suggested as
    "Gin<TAB>tonic", which is not in title case. *)
Lemma suggestIngredients_whitespace_counterexample :
  suggestIngredients ordinalCompare
    [ {| r_id := "3"; r_name := "Gin and Tonic";
         r_ingredients :=
           [ {| ri_name := "gin" ++ String TAB "tonic";
                ri_quantity := "1"; ri_unit := "glass" |} ];
         r_instructions := "Pour over ice."; r_isCustom := true |} ]
    [] = [ "Gin" ++ String TAB "tonic" ]
  /\ titleCaseWhiteSpace ("gin" ++ String TAB "tonic") = "Gin" ++ String TAB "Tonic"
  /\ titleCaseWhiteSpace ("Gin" ++ String TAB "tonic") <> "Gin" ++ String TAB "tonic".
Proof.
  split; [reflexivity | split; [reflexivity | discriminate]].
Qed.

End AppFacts.

(* ------------------------------------------------------------------ *)
(** ** The persistence service *)

Module ServerFacts.
Import Server ServerSpec JsFacts.

Lemma filter_nil_iff {A} (f : A -> bool) (l : list A) :
  filter f l = [] <-> forall x, In x l -> f x = false.
Proof.
  induction l as [| y l IH]; simpl.
  - split; [intros _ x [] | reflexivity].
  - destruct (f y) eqn:E.
    + split; [discriminate |]. intros H. specialize (H y (or_introl eq_refl)). congruence.
    + rewrite IH. split.
      * intros H x [<- | Hx]; auto.
      * intros H x Hx. apply H. now right.
Qed.

Lemma trim_nonblank (s : string) : trim s <> "" -> truthy s = true.
Proof. intros H. apply AppFacts.truthy_iff. intros ->. now apply H. Qed.

Lemma toLowerCase_empty (s : string) : toLowerCase s = "" -> s = "".
Proof. destruct s; [reflexivity | discriminate]. Qed.

Lemma trim_or_empty_field (v : option string) : trim_or_empty v = trim (field v).
Proof.
  destruct v as [s |]; simpl; [| reflexivity].
  unfold truthy. destruct (String.eqb_spec (trim s) ""); simpl; congruence.
Qed.

Lemma db_eta (db : Db) : {| tables := tables db; sequences := sequences db |} = db.
Proof. now destruct db. Qed.

Lemma tables_eta (t : Tables) :
  {| ingredients := ingredients t; recipes := recipes t;
     recipe_ingredients := recipe_ingredients t |} = t.
Proof. now destruct t. Qed.

(** *** [POST /api/ingredients] *)

(** The three outcomes of [addIngredient] on a reliable store. *)
Lemma addIngredient_cases (name : string) (db : Db) :
  (trim name = "" ->
     serve (addIngredient reliable (Some name)) db =
       (Some {| status := 400; body := JError "Ingredient name is required." |}, db))
  /\ (trim name <> "" ->
      (exists row, In row (ingredients (tables db))
                   /\ toLowerCase (ing_name row) = toLowerCase (trim name)) ->
      serve (addIngredient reliable (Some name)) db =
        (Some {| status := 409; body := JError "Ingredient already exists." |}, db))
  /\ (trim name <> "" ->
      (forall row, In row (ingredients (tables db)) ->
                   toLowerCase (ing_name row) <> toLowerCase (trim name)) ->
      serve (addIngredient reliable (Some name)) db =
        (Some {| status := 201;
                 body := JIngredient {| ing_id := ingredients_id_seq (sequences db);
                                        ing_name := trim name |} |},
         {| tables :=
              with_ingredient {| ing_id := ingredients_id_seq (sequences db);
                                 ing_name := trim name |} (tables db);
            sequences :=
              {| ingredients_id_seq := ingredients_id_seq (sequences db) + 1;
                 recipes_id_seq := recipes_id_seq (sequences db);
                 recipe_ingredients_id_seq :=
                   recipe_ingredients_id_seq (sequences db) |} |})).
Proof.
  split; [| split].
  - intros H. unfold serve, addIngredient. rewrite H, orb_true_r. simpl.
    now rewrite db_eta.
  - intros Hne [row [Hin Hlow]]. unfold serve, addIngredient.
    rewrite (trim_nonblank _ Hne). simpl.
    destruct (String.eqb_spec (trim name) ""); [contradiction |].
    unfold try_catch, bind, pool_query, select_ingredient_ids_by_lower_name, reliable.
    cbn [clock committed seqs tx].
    destruct (filter _ (ingredients (tables db))) as [| x l] eqn:Ef.
    + rewrite filter_nil_iff in Ef. specialize (Ef row Hin).
      rewrite Hlow, String.eqb_refl in Ef. discriminate.
    + simpl. now rewrite db_eta.
  - intros Hne Hnone. unfold serve, addIngredient.
    rewrite (trim_nonblank _ Hne). simpl.
    destruct (String.eqb_spec (trim name) ""); [contradiction |].
    unfold try_catch, bind, pool_query, select_ingredient_ids_by_lower_name, reliable.
    cbn [clock committed seqs tx].
    assert (Ef : filter (fun r => toLowerCase (ing_name r) =? toLowerCase (trim name))
                   (ingredients (tables db)) = []).
    { apply filter_nil_iff. intros x Hx. apply String.eqb_neq. now apply Hnone. }
    rewrite Ef. cbn [map List.length Nat.ltb Nat.leb clock committed seqs tx].
    unfold insert_ingredient.
    assert (Eu : existsb (fun r => ing_name r =? trim name) (ingredients (tables db)) = false).
    { destruct (existsb _ _) eqn:E; [| reflexivity].
      apply existsb_exists in E. destruct E as [x [Hx He]].
      apply String.eqb_eq in He. exfalso. apply (Hnone x Hx). now rewrite He. }
    rewrite Eu. reflexivity.
Qed.

(** C4. On a store that does not fail, [addIngredient] answers 400 when
    the name is missing or empty once trimmed; answers 409, changing
    nothing, when some ingredient has the same name once both are
    lower-cased (the new one trimmed first); and otherwise appends exactly
    one ingredient, the trimmed name under the next identifier, and returns
    it with 201.  Hence for two names that differ only in case and outer
    white space, adding the first and then the second answers 409 to the
    second, which changes nothing; starting from a store that has neither,
    the first is added, so exactly one of the two calls succeeds. *)
Theorem addIngredient_spec (db : Db) :
  serve (addIngredient reliable None) db =
    (Some {| status := 400; body := JError "Ingredient name is required." |}, db)
  /\ (forall name, trim name = "" ->
        serve (addIngredient reliable (Some name)) db =
          (Some {| status := 400; body := JError "Ingredient name is required." |}, db))
  /\ (forall name, trim name <> "" ->
        (exists row, In row (ingredients (tables db))
                     /\ toLowerCase (ing_name row) = toLowerCase (trim name)) ->
        serve (addIngredient reliable (Some name)) db =
          (Some {| status := 409; body := JError "Ingredient already exists." |}, db))
  /\ (forall name, trim name <> "" ->
        (forall row, In row (ingredients (tables db)) ->
                     toLowerCase (ing_name row) <> toLowerCase (trim name)) ->
        let row := {| ing_id := ingredients_id_seq (sequences db);
                      ing_name := trim name |} in
        fst (serve (addIngredient reliable (Some name)) db) =
          Some {| status := 201; body := JIngredient row |}
        /\ tables (snd (serve (addIngredient reliable (Some name)) db)) =
           with_ingredient row (tables db))
  /\ (forall n1 n2, trim n1 <> "" ->
        toLowerCase (trim n1) = toLowerCase (trim n2) ->
        let first := serve (addIngredient reliable (Some n1)) db in
        let second := serve (addIngredient reliable (Some n2)) (snd first) in
        second =
          (Some {| status := 409; body := JError "Ingredient already exists." |},
           snd first)
        /\ ((forall row, In row (ingredients (tables db)) ->
                         toLowerCase (ing_name row) <> toLowerCase (trim n1)) ->
            status_of (fst first) = Some 201
            /\ ingredients (tables (snd second)) =
               (ingredients (tables db) ++
                  [ {| ing_id := ingredients_id_seq (sequences db);
                       ing_name := trim n1 |} ])%list)).
Proof.
  split; [| split; [| split; [| split]]].
  - unfold serve, addIngredient. simpl. now rewrite db_eta.
  - intros name. apply addIngredient_cases.
  - intros name. apply addIngredient_cases.
  - intros name Hne Hnone row.
    destruct (addIngredient_cases name db) as [_ [_ H]].
    rewrite (H Hne Hnone). split; reflexivity.
  - intros n1 n2 Hne Hlow first second.
    assert (Hne2 : trim n2 <> "").
    { intros E. rewrite E in Hlow. apply toLowerCase_empty in Hlow. contradiction. }
    assert (Hdec : (exists row, In row (ingredients (tables db))
                       /\ toLowerCase (ing_name row) = toLowerCase (trim n1))
                   \/ (forall row, In row (ingredients (tables db)) ->
                         toLowerCase (ing_name row) <> toLowerCase (trim n1))).
    { destruct (filter (fun r => toLowerCase (ing_name r) =? toLowerCase (trim n1))
                  (ingredients (tables db))) as [| x l] eqn:Ef.
      - right. intros row Hrow. apply String.eqb_neq.
        now apply (proj1 (filter_nil_iff _ _) Ef).
      - left. exists x.
        assert (Hx : In x (x :: l)) by now left.
        rewrite <- Ef in Hx. apply filter_In in Hx.
        destruct Hx as [Hx He]. apply String.eqb_eq in He. now split. }
    destruct (addIngredient_cases n1 db) as [_ [Hdup Hnew]].
    destruct Hdec as [Hex | Hnone].
    + assert (E1 : first = (Some {| status := 409;
                                   body := JError "Ingredient already exists." |}, db))
        by now apply Hdup.
      assert (E2 : second = (Some {| status := 409;
                                    body := JError "Ingredient already exists." |}, db)).
      { subst second. rewrite E1. simpl.
        apply (proj1 (proj2 (addIngredient_cases n2 db)) Hne2).
        destruct Hex as [row [Hrow He]]. exists row. split; [assumption | congruence]. }
      rewrite E2, E1. split; [reflexivity |].
      intros Hnone. destruct Hex as [row [Hrow He]]. now apply Hnone in Hrow.
    + specialize (Hnew Hne Hnone). fold first in Hnew.
      assert (E2 : second = (Some {| status := 409;
                                    body := JError "Ingredient already exists." |},
                             snd first)).
      { subst second.
        apply (proj1 (proj2 (addIngredient_cases n2 (snd first))) Hne2).
        exists {| ing_id := ingredients_id_seq (sequences db); ing_name := trim n1 |}.
        split; [| simpl; congruence].
        rewrite Hnew. simpl. apply in_or_app. right. now left. }
      split; [exact E2 |]. intros _.
      rewrite E2. simpl. rewrite Hnew. split; reflexivity.
Qed.

(** "rum" is new to the cellar and " GIN " is not; once "rum" is in, " Rum"
    is turned down. *)
Example addIngredient_example :
  serve (addIngredient reliable (Some " GIN ")) cellar =
    (Some {| status := 409; body := JError "Ingredient already exists." |}, cellar)
  /\ fst (serve (addIngredient reliable (Some "rum ")) cellar) =
     Some {| status := 201; body := JIngredient {| ing_id := 2; ing_name := "rum" |} |}
  /\ fst (serve (addIngredient reliable (Some " Rum"))
            (snd (serve (addIngredient reliable (Some "rum ")) cellar))) =
     Some {| status := 409; body := JError "Ingredient already exists." |}.
Proof. repeat split. Qed.

(** *** [GET /api/recipes] *)

Lemma attach_ingredients (rows : list RecipeRow) (pg : Pg) :
  exists pg',
    map_of rows
      (fun recipe =>
         bind (pool_query reliable (select_recipe_ingredients (rec_id recipe)))
           (fun ingredientsResult =>
              ret {| json_recipe := recipe;
                     json_ingredients :=
                       map (fun r => {| json_name := rin_name r;
                                        json_quantity := rin_quantity r;
                                        json_unit := rin_unit r |})
                           ingredientsResult |})) pg =
      (Returned (map (nested (committed pg)) rows), pg')
    /\ committed pg' = committed pg /\ seqs pg' = seqs pg.
Proof.
  revert pg. induction rows as [| r rows IH]; intros pg.
  - exists pg. repeat split.
  - cbn [map_of]. unfold bind at 1 2.
    unfold pool_query at 1, select_recipe_ingredients at 1, reliable at 1.
    cbn [clock committed seqs tx ret].
    destruct (IH {| committed := committed pg; tx := tx pg; seqs := seqs pg;
                    clock := S (clock pg) |}) as [pg' [E [Hc Hs]]].
    unfold bind at 1. rewrite E. exists pg'. repeat split; assumption.
Qed.

(** C9, as the code has it.  On a store that does not fail, [listRecipes]
    reads nothing of the request; it answers 200 with the custom recipes
    only, ordered by name, each with the name, quantity and unit of its
    rows of [recipe_ingredients], in table order, nested under it, and it
    changes nothing. *)
Theorem listRecipes_spec
    (collate : string -> string -> Z) (query : list (string * string)) (db : Db) :
  exists rows,
    serve (listRecipes reliable collate query) db =
      (Some {| status := 200; body := JRecipes (map (nested (tables db)) rows) |}, db)
    /\ rows = JsArray.sort (fun a b => collate (rec_name a) (rec_name b))
                (filter rec_is_custom (recipes (tables db)))
    /\ Permutation rows (filter rec_is_custom (recipes (tables db)))
    /\ (forall r, In r rows <-> In r (recipes (tables db)) /\ rec_is_custom r = true)
    /\ (forall r, json_ingredients (nested (tables db) r) =
                  map shown (filter (fun i => (rin_recipe_id i =? rec_id r)%Z)
                               (recipe_ingredients (tables db)))).
Proof.
  eexists. split; [| split; [reflexivity | split; [| split]]].
  - unfold serve, listRecipes, try_catch, json.
    unfold bind at 1. unfold pool_query at 1, select_custom_recipes at 1, reliable at 1.
    cbn [clock committed seqs tx].
    unfold bind at 1.
    match goal with
    | |- context [map_of ?rows _ ?pg] =>
        destruct (attach_ingredients rows pg) as [pg' [E [Hc Hs]]]
    end.
    rewrite E. cbn [ret committed seqs] in *.
    rewrite Hc, Hs, db_eta. reflexivity.
  - apply sort_Permutation.
  - intros r. rewrite <- filter_In.
    split; apply Permutation_in;
      [| symmetry]; apply sort_Permutation.
  - reflexivity.
Qed.

(** C9, as the claim has it, fails: no request makes [listRecipes] return
    a standard recipe, so there is no choice of "all recipes". *)
Lemma listRecipes_filter_counterexample :
  In {| rec_id := 1; rec_name := "Margarita";
        rec_instructions := "Shake with ice."; rec_is_custom := false |}
     (recipes (tables cellar))
  /\ ~ exists query recipes,
        fst (serve (listRecipes reliable ordinalCompare query) cellar)
          = Some {| status := 200; body := JRecipes recipes |}
        /\ In "Margarita" (map (fun r => rec_name (json_recipe r)) recipes).
Proof.
  split; [now left |].
  intros [query [recipes [H Hin]]].
  vm_compute in H. inversion H; subst recipes.
  simpl in Hin. destruct Hin as [Hin | []]. discriminate Hin.
Qed.

(** The cellar lists its custom recipe, not the Margarita. *)
Example listRecipes_example :
  fst (serve (listRecipes reliable ordinalCompare []) cellar) =
    Some {| status := 200;
            body := JRecipes
                      [ {| json_recipe :=
                             {| rec_id := 2; rec_name := "House Punch";
                                rec_instructions := "Stir."; rec_is_custom := true |};
                           json_ingredients :=
                             [ {| json_name := "Rum"; json_quantity := "1";
                                  json_unit := "oz" |} ] |} ] |}.
Proof. reflexivity. Qed.

(** *** [POST /api/recipes] *)

Lemma falsy_false (v : option string) :
  falsy v = false -> exists s, v = Some s /\ s <> "".
Proof.
  destruct v as [s |]; simpl; [| discriminate].
  intros H. exists s. split; [reflexivity |]. now apply String.eqb_neq.
Qed.

Lemma nonblank_accepted (v : option string) : nonblank v = true -> falsy v = false.
Proof.
  destruct v as [s |]; simpl; [| discriminate].
  intros H. apply String.eqb_neq. intros ->. discriminate H.
Qed.

Lemma trimmed_Some (ing : IngredientInput) (n q : string) :
  in_name ing = Some n -> in_quantity ing = Some q ->
  trimmed ing = {| json_name := trim n; json_quantity := trim q;
                   json_unit := trim_or_empty (in_unit ing) |}.
Proof. intros En Eq. unfold trimmed. now rewrite En, Eq, trim_or_empty_field. Qed.

Lemma method_trim_Some {B} (v : option string) (s : string)
    (k : string -> Async B) (pg : Pg) :
  v = Some s -> bind (method_trim v) k pg = k (trim s) pg.
Proof. intros ->. reflexivity. Qed.

(** The loop that inserts the ingredient rows inside the transaction: it
    never touches what is committed; when it returns, the working copy has
    the rows of the whole list appended; and it returns when the store does
    not fail. *)
Lemma insert_loop (fails : nat -> bool) (newRecipe : RecipeRow)
    (ings : list IngredientInput) :
  Forall accepted ings ->
  forall pg t, tx pg = Some t ->
  exists o pg',
    for_of ings
      (fun ing =>
         bind (property_id (Some newRecipe)) (fun recipe_id =>
         bind (method_trim (in_name ing)) (fun name =>
         bind (method_trim (in_quantity ing)) (fun quantity =>
         client_query fails
           (insert_recipe_ingredient recipe_id name quantity
              (trim_or_empty (in_unit ing))))))) pg = (o, pg')
    /\ committed pg' = committed pg
    /\ (o = Thrown \/
        (o = Returned tt
         /\ tx pg' =
            Some {| ingredients := ingredients t;
                    recipes := recipes t;
                    recipe_ingredients :=
                      recipe_ingredients t ++
                      rows_of (rec_id newRecipe)
                              (recipe_ingredients_id_seq (seqs pg))
                              (map trimmed ings) |}))
    /\ ((forall k, fails k = false) -> o = Returned tt).
Proof.
  induction 1 as [| ing ings [Hn Hq] _ IH]; intros pg t Htx.
  - exists (Returned tt), pg. cbn [for_of map rows_of ret].
    rewrite app_nil_r, tables_eta. repeat split; auto.
  - apply falsy_false in Hn. destruct Hn as [n [En _]].
    apply falsy_false in Hq. destruct Hq as [q [Eq _]].
    cbn [for_of]. unfold bind at 1.
    unfold bind at 1, property_id at 1, ret at 1.
    rewrite (method_trim_Some _ n) by exact En.
    rewrite (method_trim_Some _ q) by exact Eq.
    unfold client_query at 1.
    destruct (fails (clock pg)) eqn:F.
    + exists Thrown, (tick pg). repeat split; auto.
      intros H. rewrite H in F. discriminate.
    + rewrite Htx. unfold insert_recipe_ingredient at 1.
      cbn [ingredients recipes recipe_ingredients]. cbv beta.
      match goal with
      | |- context [for_of _ _ ?pg1] =>
          destruct (IH pg1 _ eq_refl) as [o [pg' [E [Hc [Ho Hr]]]]]
      end.
      exists o, pg'. rewrite E. cbn [committed seqs recipe_ingredients_id_seq] in *.
      split; [reflexivity | split; [assumption | split; [| assumption]]].
      destruct Ho as [-> | [-> Ht]]; [now left | right].
      split; [reflexivity |]. rewrite Ht.
      cbn [ingredients recipes recipe_ingredients map rows_of].
      rewrite (trimmed_Some ing n q En Eq).
      cbn [json_name json_quantity json_unit].
      now rewrite <- app_assoc.
Qed.

(** The [map] that rebuilds the ingredient list for the response. *)
Lemma response_ingredients (ings : list IngredientInput) (pg : Pg) :
  Forall accepted ings ->
  map_of ings
    (fun ing =>
       bind (method_trim (in_name ing)) (fun name =>
       bind (method_trim (in_quantity ing)) (fun quantity =>
       ret {| json_name := name; json_quantity := quantity;
              json_unit := trim_or_empty (in_unit ing) |}))) pg =
    (Returned (map trimmed ings), pg).
Proof.
  induction 1 as [| ing ings [Hn Hq] _ IH].
  - reflexivity.
  - apply falsy_false in Hn. destruct Hn as [n [En _]].
    apply falsy_false in Hq. destruct Hq as [q [Eq _]].
    cbn [map_of map]. unfold bind at 1.
    rewrite (method_trim_Some _ n) by exact En.
    rewrite (method_trim_Some _ q) by exact Eq.
    unfold ret at 1. unfold bind at 1. rewrite IH. unfold ret.
    now rewrite (trimmed_Some ing n q En Eq).
Qed.

(** The catch block of the two transactional handlers never touches what
    is committed, and answers 500 if it answers. *)
Lemma rollback_handler (fails : nat -> bool) (message : string) (pg : Pg) :
  exists o pg',
    bind (ROLLBACK fails) (fun _ => json 500 (JError message)) pg = (o, pg')
    /\ committed pg' = committed pg
    /\ (o = Thrown \/ o = Returned {| status := 500; body := JError message |}).
Proof.
  unfold bind, ROLLBACK, json, ret. destruct (fails (clock pg)).
  - exists Thrown, (tick pg). auto.
  - eexists _, _. split; [reflexivity |]. auto.
Qed.

(** Ends a case in which the [try] block has thrown: the catch block
    decides the outcome and leaves what is committed alone. *)
Ltac by_rollback fails F :=
  match goal with
  | |- exists o pg', bind (ROLLBACK fails) (fun _ => json 500 (JError ?m)) ?pg = _ /\ _ =>
      let o := fresh "o" in
      let pg' := fresh "pg'" in
      let E := fresh "E" in
      let Hc := fresh "Hc" in
      let Ho := fresh "Ho" in
      let H := fresh "H" in
      destruct (rollback_handler fails m pg) as [o [pg' [E [Hc Ho]]]];
      exists o, pg'; split; [exact E |];
      split;
      [ right; split; [exact Ho | exact Hc]
      | intros H; rewrite H in F; discriminate F ]
  end.

(** Every way a run of [createRecipe] on an accepted request can end. *)
Lemma createRecipe_run (fails : nat -> bool) (req : RecipeInput) (pg : Pg) :
  rejected req = false ->
  let newRecipe := recipe_row (recipes_id_seq (seqs pg)) req in
  let rows :=
    rows_of (rec_id newRecipe) (recipe_ingredients_id_seq (seqs pg))
            (map trimmed (ingredients_in req)) in
  let created :=
    Returned {| status := 201;
                body := JRecipe {| json_recipe := newRecipe;
                                   json_ingredients :=
                                     map trimmed (ingredients_in req) |} |} in
  exists o pg',
    createRecipe fails req pg = (o, pg')
    /\ ((o = created /\ committed pg' = with_recipe newRecipe rows (committed pg))
        \/ ((o = Thrown
             \/ o = Returned
                      {| status := 500;
                         body := JError "Internal server error while adding recipe." |})
            /\ committed pg' = committed pg))
    /\ ((forall k, fails k = false) -> o = created).
Proof.
  destruct req as [name instructions [ingredients |]]; [| discriminate].
  unfold rejected, createRecipe, ingredients_in, recipe_row.
  cbn [body_ingredients body_name body_instructions].
  destruct (falsy name || falsy instructions) eqn:Ev; [discriminate |].
  cbn [orb]. intros Ei. rewrite Ei.
  apply orb_false_elim in Ev. destruct Ev as [Hn Hi].
  apply falsy_false in Hn. destruct Hn as [n [-> _]].
  apply falsy_false in Hi. destruct Hi as [i [-> _]].
  assert (Hacc : Forall accepted ingredients).
  { apply Forall_forall. intros ing Hing.
    apply orb_false_elim.
    destruct (falsy (in_name ing) || falsy (in_quantity ing)) eqn:E; [| reflexivity].
    assert (T : existsb (fun ing => falsy (in_name ing) || falsy (in_quantity ing))
                  ingredients = true)
      by (apply existsb_exists; now exists ing).
    congruence. }
  cbv zeta. cbn [field].
  unfold bind at 1, connect at 1.
  destruct (fails (clock pg)) eqn:F0.
  { eexists _, _. split; [reflexivity |]. split; [right; auto |].
    intros H. rewrite H in F0. discriminate. }
  unfold try_catch. unfold bind at 1, BEGIN at 1. cbn [clock tx committed seqs].
  destruct (fails (S (clock pg))) eqn:F1.
  { by_rollback fails F1. }
  rewrite (method_trim_Some (Some n) n) by reflexivity.
  rewrite (method_trim_Some (Some i) i) by reflexivity.
  unfold bind at 1, client_query at 1. cbn [clock tx committed seqs].
  destruct (fails (S (S (clock pg)))) eqn:F2.
  { by_rollback fails F2. }
  unfold insert_recipe at 1. cbv zeta. cbn [hd_error].
  unfold bind at 1.
  match goal with
  | |- context [for_of _ (fun ing => bind (property_id (Some ?row)) _) ?pg3] =>
      destruct (insert_loop fails row ingredients Hacc pg3 _ eq_refl)
        as [o3 [pg4 [E3 [Hc3 [Ho3 Hr3]]]]]
  end.
  rewrite E3. cbn [committed seqs recipe_ingredients_id_seq
                   Server.ingredients recipes recipe_ingredients] in Hc3, Ho3.
  destruct Ho3 as [-> | [-> Ht3]].
  { destruct (rollback_handler fails "Internal server error while adding recipe." pg4)
      as [o [pg' [E [Hc Ho]]]].
    exists o, pg'. split; [exact E |]. split.
    - right. split; [exact Ho | congruence].
    - intros H. specialize (Hr3 H). discriminate Hr3. }
  unfold bind at 1, COMMIT at 1.
  destruct (fails (clock pg4)) eqn:F4.
  { destruct (rollback_handler fails "Internal server error while adding recipe."
                (tick pg4)) as [o [pg' [E [Hc Ho]]]].
    exists o, pg'. split; [exact E |]. split.
    - right. split; [exact Ho |]. rewrite Hc. cbn [tick committed]. exact Hc3.
    - intros H. rewrite H in F4. discriminate F4. }
  unfold bind at 1. rewrite (response_ingredients ingredients _ Hacc).
  unfold json, ret. eexists _, _. split; [reflexivity |]. split.
  - left. split; [reflexivity |]. cbn [committed]. rewrite Ht3. reflexivity.
  - reflexivity.
Qed.

(** The loop of inserts sends one request per ingredient: it returns when
    none of them fails, and throws when one does. *)
Lemma insert_loop_steps (fails : nat -> bool) (newRecipe : RecipeRow)
    (ings : list IngredientInput) :
  Forall accepted ings ->
  forall pg t, tx pg = Some t ->
  exists o pg',
    for_of ings
      (fun ing =>
         bind (property_id (Some newRecipe)) (fun recipe_id =>
         bind (method_trim (in_name ing)) (fun name =>
         bind (method_trim (in_quantity ing)) (fun quantity =>
         client_query fails
           (insert_recipe_ingredient recipe_id name quantity
              (trim_or_empty (in_unit ing))))))) pg = (o, pg')
    /\ ((o = Returned tt
         /\ clock pg' = clock pg + List.length ings
         /\ forall k, k < List.length ings -> fails (clock pg + k) = false)
        \/ (o = Thrown
            /\ exists k, k < List.length ings /\ fails (clock pg + k) = true)).
Proof.
  induction 1 as [| ing ings [Hn Hq] _ IH]; intros pg t Htx.
  - exists (Returned tt), pg. cbn [for_of ret List.length].
    split; [reflexivity | left]. split; [reflexivity | split; [lia |]].
    intros k Hk. lia.
  - apply falsy_false in Hn. destruct Hn as [n [En _]].
    apply falsy_false in Hq. destruct Hq as [q [Eq _]].
    cbn [for_of]. unfold bind at 1.
    unfold bind at 1, property_id at 1, ret at 1.
    rewrite (method_trim_Some _ n) by exact En.
    rewrite (method_trim_Some _ q) by exact Eq.
    unfold client_query at 1.
    destruct (fails (clock pg)) eqn:F.
    + exists Thrown, (tick pg). split; [reflexivity | right].
      split; [reflexivity |]. exists 0. cbn [List.length].
      split; [lia |]. now rewrite Nat.add_0_r.
    + rewrite Htx. unfold insert_recipe_ingredient at 1.
      cbn [ingredients recipes recipe_ingredients]. cbv beta.
      match goal with
      | |- context [for_of _ _ ?pg1] =>
          destruct (IH pg1 _ eq_refl) as [o [pg' [E [[-> [Hc Hall]] | [-> [k [Hk Hf]]]]]]]
      end.
      * exists (Returned tt), pg'. rewrite E. cbn [clock List.length] in *.
        split; [reflexivity | left]. split; [reflexivity | split; [lia |]].
        intros [| k] Hk; [now rewrite Nat.add_0_r |].
        replace (clock pg + S k) with (S (clock pg) + k) by lia.
        apply Hall. lia.
      * exists Thrown, pg'. rewrite E. cbn [clock List.length] in *.
        split; [reflexivity | right]. split; [reflexivity |].
        exists (S k). split; [lia |].
        now replace (clock pg + S k) with (S (clock pg) + k) by lia.
Qed.

(** When a run of [createRecipe] on an accepted request answers 201: when
    none of the requests it sends to the store fails, and only then. *)
Lemma createRecipe_steps (fails : nat -> bool) (req : RecipeInput) (pg : Pg) :
  rejected req = false ->
  exists o pg',
    createRecipe fails req pg = (o, pg')
    /\ (((exists r, o = Returned r /\ status r = 201)
         /\ forall k, k < requests_of req -> fails (clock pg + k) = false)
        \/ ((o = Thrown
             \/ o = Returned
                      {| status := 500;
                         body := JError "Internal server error while adding recipe." |})
            /\ exists k, k < requests_of req /\ fails (clock pg + k) = true)).
Proof.
  destruct req as [name instructions [ingredients |]]; [| discriminate].
  unfold rejected, createRecipe, requests_of, ingredients_in.
  cbn [body_ingredients body_name body_instructions].
  destruct (falsy name || falsy instructions) eqn:Ev; [discriminate |].
  cbn [orb]. intros Ei. rewrite Ei.
  apply orb_false_elim in Ev. destruct Ev as [Hn Hi].
  apply falsy_false in Hn. destruct Hn as [n [-> _]].
  apply falsy_false in Hi. destruct Hi as [i [-> _]].
  assert (Hacc : Forall accepted ingredients).
  { apply Forall_forall. intros ing Hing.
    apply orb_false_elim.
    destruct (falsy (in_name ing) || falsy (in_quantity ing)) eqn:E; [| reflexivity].
    assert (T : existsb (fun ing => falsy (in_name ing) || falsy (in_quantity ing))
                  ingredients = true)
      by (apply existsb_exists; now exists ing).
    congruence. }
  assert (Hcatch : forall pg1 k,
            k < 4 + List.length ingredients -> fails (clock pg + k) = true ->
            exists o pg',
              bind (ROLLBACK fails)
                   (fun _ => json 500 (JError "Internal server error while adding recipe."))
                   pg1 = (o, pg')
              /\ (((exists r, o = Returned r /\ status r = 201)
                   /\ forall k, k < 4 + List.length ingredients ->
                                fails (clock pg + k) = false)
                  \/ ((o = Thrown
                       \/ o = Returned
                                {| status := 500;
                                   body := JError
                                     "Internal server error while adding recipe." |})
                      /\ exists k, k < 4 + List.length ingredients
                                   /\ fails (clock pg + k) = true))).
  { intros pg1 k Hk Hf.
    destruct (rollback_handler fails "Internal server error while adding recipe." pg1)
      as [o [pg' [E [_ Ho]]]].
    exists o, pg'. split; [exact E | right]. split; [exact Ho | now exists k]. }
  unfold bind at 1, connect at 1.
  destruct (fails (clock pg)) eqn:F0.
  { eexists _, _. split; [reflexivity | right]. split; [now left |].
    exists 0. split; [lia | now rewrite Nat.add_0_r]. }
  unfold try_catch. unfold bind at 1, BEGIN at 1. cbn [clock tx committed seqs].
  destruct (fails (S (clock pg))) eqn:F1.
  { apply (Hcatch _ 1); [lia | now rewrite Nat.add_1_r]. }
  rewrite (method_trim_Some (Some n) n) by reflexivity.
  rewrite (method_trim_Some (Some i) i) by reflexivity.
  unfold bind at 1, client_query at 1. cbn [clock tx committed seqs].
  destruct (fails (S (S (clock pg)))) eqn:F2.
  { apply (Hcatch _ 2); [lia |].
    now replace (clock pg + 2) with (S (S (clock pg))) by lia. }
  unfold insert_recipe at 1. cbv zeta. cbn [hd_error].
  unfold bind at 1.
  match goal with
  | |- context [for_of _ (fun ing => bind (property_id (Some ?row)) _) ?pg3] =>
      destruct (insert_loop_steps fails row ingredients Hacc pg3 _ eq_refl)
        as [o3 [pg4 [E3 [[-> [Hc3 Hall]] | [-> [k [Hk Hf]]]]]]]
  end; rewrite E3; cbn [clock] in *.
  2: { apply (Hcatch _ (3 + k)); [lia |].
       now replace (clock pg + (3 + k)) with (S (S (S (clock pg))) + k) by lia. }
  unfold bind at 1, COMMIT at 1.
  destruct (fails (clock pg4)) eqn:F4.
  { apply (Hcatch _ (3 + List.length ingredients)); [lia |].
    now replace (clock pg + (3 + List.length ingredients))
      with (clock pg4) by lia. }
  unfold bind at 1. rewrite (response_ingredients ingredients _ Hacc).
  unfold json, ret. eexists _, _. split; [reflexivity | left].
  split; [eexists; split; reflexivity |].
  intros k Hk.
  destruct (Nat.lt_ge_cases k 3) as [Hlt | Hge].
  - destruct k as [| [| [| k]]]; [| | | lia].
    + now rewrite Nat.add_0_r.
    + now rewrite Nat.add_1_r.
    + now replace (clock pg + 2) with (S (S (clock pg))) by lia.
  - destruct (Nat.eq_dec k (3 + List.length ingredients)) as [-> | Hne].
    + now replace (clock pg + (3 + List.length ingredients)) with (clock pg4) by lia.
    + replace (clock pg + k) with (S (S (S (clock pg))) + (k - 3)) by lia.
      apply Hall. lia.
Qed.

(** The same for a [try] block of [deleteRecipe]. *)
Ltac by_refusal fails F :=
  match goal with
  | |- exists o pg', bind (ROLLBACK fails) (fun _ => json 500 (JError ?m)) ?pg = _ /\ _ =>
      let o := fresh "o" in
      let pg' := fresh "pg'" in
      let E := fresh "E" in
      let Hc := fresh "Hc" in
      let Ho := fresh "Ho" in
      let H := fresh "H" in
      destruct (rollback_handler fails m pg) as [o [pg' [E [Hc Ho]]]];
      exists o, pg'; split; [exact E |];
      split;
      [ right; split; [| exact Hc];
        destruct Ho as [Ho | Ho]; [left; exact Ho | right];
        eexists; split; [exact Ho | simpl; tauto]
      | intros H; rewrite H in F; discriminate F ]
  end.

Lemma rows_of_length (rid next : Z) (ings : list IngredientJson) :
  List.length (rows_of rid next ings) = List.length ings.
Proof.
  revert next. induction ings as [| ing ings IH]; intros next; simpl;
    [reflexivity | now rewrite IH].
Qed.

Lemma rows_of_recipe (rid next : Z) (ings : list IngredientJson) :
  Forall (fun r => rin_recipe_id r = rid) (rows_of rid next ings).
Proof.
  revert next. induction ings as [| ing ings IH]; intros next; simpl;
    constructor; [reflexivity | apply IH].
Qed.

Lemma rows_of_shown (rid next : Z) (ings : list IngredientJson) :
  map shown (rows_of rid next ings) = ings.
Proof.
  revert next. induction ings as [| ing ings IH]; intros next; simpl;
    [reflexivity |].
  rewrite IH. now destruct ing.
Qed.

Lemma rejected_answer (fails : nat -> bool) (req : RecipeInput) (db : Db) :
  rejected req = true ->
  status_of (fst (serve (createRecipe fails req) db)) = Some 400
  /\ snd (serve (createRecipe fails req) db) = db.
Proof.
  destruct req as [name instructions [ingredients |]];
    unfold rejected, serve, createRecipe;
    cbn [body_ingredients body_name body_instructions].
  - destruct (falsy name || falsy instructions); cbn [orb].
    + intros _. cbn. now rewrite db_eta.
    + intros ->. cbn. now rewrite db_eta.
  - intros _. cbn. now rewrite db_eta.
Qed.

(** C1. [createRecipe] is all or nothing, whatever the request and
    wherever the store fails.  Either it answers 201 and what is committed
    is the old tables with the new recipe row and one ingredient row per
    ingredient of the request, all under the new recipe's identifier, so
    that [recipes] has one row more and [recipe_ingredients] one more per
    ingredient; this is the case exactly when the request passes the
    validation and none of the requests the handler sends to the store
    (the connection, [BEGIN], each insert, [COMMIT]) fails.  Or it does not
    answer 201 and the three tables are what they were, so the row counts
    of [recipes] and [recipe_ingredients] are unchanged; this is the case
    exactly when the validation turns the request down or one of those
    requests fails. *)
Theorem createRecipe_atomic (fails : nat -> bool) (req : RecipeInput) (db : Db) :
  (status_of (fst (serve (createRecipe fails req) db)) = Some 201
   /\ tables (snd (serve (createRecipe fails req) db)) =
      with_recipe
        (recipe_row (recipes_id_seq (sequences db)) req)
        (rows_of (recipes_id_seq (sequences db))
                 (recipe_ingredients_id_seq (sequences db))
                 (map trimmed (ingredients_in req)))
        (tables db)
   /\ Forall (fun r => rin_recipe_id r = recipes_id_seq (sequences db))
             (rows_of (recipes_id_seq (sequences db))
                      (recipe_ingredients_id_seq (sequences db))
                      (map trimmed (ingredients_in req)))
   /\ List.length (recipes (tables (snd (serve (createRecipe fails req) db)))) =
      S (List.length (recipes (tables db)))
   /\ List.length
        (recipe_ingredients (tables (snd (serve (createRecipe fails req) db)))) =
      List.length (recipe_ingredients (tables db)) + List.length (ingredients_in req)
   /\ rejected req = false
   /\ forall k, k < requests_of req -> fails k = false)
  \/ (status_of (fst (serve (createRecipe fails req) db)) <> Some 201
      /\ tables (snd (serve (createRecipe fails req) db)) = tables db
      /\ List.length (recipes (tables (snd (serve (createRecipe fails req) db)))) =
         List.length (recipes (tables db))
      /\ List.length
           (recipe_ingredients (tables (snd (serve (createRecipe fails req) db)))) =
         List.length (recipe_ingredients (tables db))
      /\ (rejected req = true
          \/ exists k, k < requests_of req /\ fails k = true)).
Proof.
  destruct (rejected req) eqn:Er.
  - right. destruct (rejected_answer fails req db Er) as [Hs Hd].
    rewrite Hs, Hd. repeat split; try congruence. now left.
  - destruct (createRecipe_run fails req
                {| committed := tables db; tx := None; seqs := sequences db; clock := 0 |}
                Er) as [o [pg' [E [Ho _]]]].
    destruct (createRecipe_steps fails req
                {| committed := tables db; tx := None; seqs := sequences db; clock := 0 |}
                Er) as [o' [pg'' [E' Hsteps]]].
    rewrite E in E'. injection E' as <- <-.
    unfold serve. rewrite E. cbn [fst snd tables committed seqs clock] in *.
    destruct Ho as [[-> Hc] | [Ho Hc]].
    + left. split; [reflexivity |]. split; [exact Hc |].
      split; [apply rows_of_recipe |].
      rewrite Hc. cbn [with_recipe recipes recipe_ingredients].
      rewrite !length_app, rows_of_length, length_map. cbn [List.length].
      split; [lia |]. split; [reflexivity |]. split; [reflexivity |].
      destruct Hsteps as [[_ Hall] | [[Ho | Ho] _]]; [exact Hall | |]; discriminate Ho.
    + right. rewrite Hc.
      split; [destruct Ho as [-> | ->]; cbn; congruence |].
      split; [reflexivity |]. split; [reflexivity |]. split; [reflexivity |].
      right. destruct Hsteps as [[[r [-> Hr]] _] | [_ Hk]]; [| exact Hk].
      destruct Ho as [Ho | Ho]; [discriminate Ho |].
      injection Ho as ->. discriminate Hr.
Qed.

(** C2, as the code has it.  [createRecipe] answers 400, changing nothing,
    when the name or the instructions are missing or empty, when the
    ingredients are not a list, or when some ingredient has a missing or
    empty name or quantity.  When the name, the instructions and the name
    and quantity of every ingredient are not empty once trimmed (the list
    itself may be empty) and the store does not fail, it answers 201 with
    the recipe under the next identifier and the ingredients trimmed, the
    unit defaulting to the empty string; these are the rows it stores. *)
Theorem createRecipe_validation (req : RecipeInput) (db : Db) :
  (forall fails,
     falsy (body_name req) = true \/ falsy (body_instructions req) = true
     \/ body_ingredients req = None
     \/ (exists ing, In ing (ingredients_in req)
                     /\ (falsy (in_name ing) = true \/ falsy (in_quantity ing) = true)) ->
     status_of (fst (serve (createRecipe fails req) db)) = Some 400
     /\ snd (serve (createRecipe fails req) db) = db)
  /\ (forall ingredients,
        body_ingredients req = Some ingredients ->
        nonblank (body_name req) = true ->
        nonblank (body_instructions req) = true ->
        Forall (fun ing => nonblank (in_name ing) = true
                           /\ nonblank (in_quantity ing) = true) ingredients ->
        let newRecipe := recipe_row (recipes_id_seq (sequences db)) req in
        let rows :=
          rows_of (rec_id newRecipe) (recipe_ingredients_id_seq (sequences db))
                  (map trimmed ingredients) in
        fst (serve (createRecipe reliable req) db) =
          Some {| status := 201;
                  body := JRecipe {| json_recipe := newRecipe;
                                     json_ingredients := map trimmed ingredients |} |}
        /\ tables (snd (serve (createRecipe reliable req) db)) =
           with_recipe newRecipe rows (tables db)
        /\ map shown rows = map trimmed ingredients).
Proof.
  split.
  - intros fails H. apply rejected_answer. unfold rejected, ingredients_in in *.
    destruct (body_ingredients req) as [ingredients |]; [| reflexivity].
    destruct H as [-> | [-> | [H | [ing [Hin Hing]]]]].
    + reflexivity.
    + now rewrite orb_true_r.
    + discriminate H.
    + apply orb_true_iff. right. apply existsb_exists. exists ing.
      split; [assumption |]. apply orb_true_iff. exact Hing.
  - intros ingredients Ei Hn Hi Hall newRecipe rows.
    assert (Er : rejected req = false).
    { unfold rejected. rewrite Ei.
      rewrite (nonblank_accepted _ Hn), (nonblank_accepted _ Hi). cbn [orb].
      destruct (existsb _ ingredients) eqn:E; [| reflexivity].
      apply existsb_exists in E. destruct E as [ing [Hin Hing]].
      rewrite Forall_forall in Hall. destruct (Hall ing Hin) as [H1 H2].
      rewrite (nonblank_accepted _ H1), (nonblank_accepted _ H2) in Hing.
      discriminate Hing. }
    destruct (createRecipe_run reliable req
                {| committed := tables db; tx := None; seqs := sequences db; clock := 0 |}
                Er) as [o [pg' [E [Ho Hr]]]].
    specialize (Hr (fun _ => eq_refl)).
    unfold ingredients_in in *. rewrite Ei in *.
    cbn [committed seqs] in *. subst o.
    unfold serve. rewrite E. cbn [fst snd tables].
    split; [reflexivity |]. split; [| apply rows_of_shown].
    destruct Ho as [[_ Hc] | [[Ho | Ho] _]]; [exact Hc | discriminate Ho ..].
Qed.

(** C2, as the claim has it, fails: a request with an empty ingredient
    list is not valid for the claim, yet it is answered 201 and its recipe
    row is stored. *)
Lemma createRecipe_empty_list_counterexample :
  valid_as_specified
    {| body_name := Some "Mojito";
       body_instructions := Some "Muddle the mint.";
       body_ingredients := Some [] |} = false
  /\ serve (createRecipe reliable
              {| body_name := Some "Mojito";
                 body_instructions := Some "Muddle the mint.";
                 body_ingredients := Some [] |})
       {| tables := {| ingredients := []; recipes := []; recipe_ingredients := [] |};
          sequences := {| ingredients_id_seq := 1; recipes_id_seq := 1;
                          recipe_ingredients_id_seq := 1 |} |}
     = (Some {| status := 201;
                body := JRecipe
                          {| json_recipe :=
                               {| rec_id := 1; rec_name := "Mojito";
                                  rec_instructions := "Muddle the mint.";
                                  rec_is_custom := true |};
                             json_ingredients := [] |} |},
        {| tables :=
             {| ingredients := [];
                recipes := [ {| rec_id := 1; rec_name := "Mojito";
                                rec_instructions := "Muddle the mint.";
                                rec_is_custom := true |} ];
                recipe_ingredients := [] |};
           sequences := {| ingredients_id_seq := 1; recipes_id_seq := 2;
                           recipe_ingredients_id_seq := 1 |} |}).
Proof. split; reflexivity. Qed.

(** A request with two ingredients, one without a unit. *)
Example createRecipe_commits_example :
  serve (createRecipe reliable
           {| body_name := Some " Mojito ";
              body_instructions := Some "Muddle the mint.";
              body_ingredients :=
                Some [ {| in_name := Some " rum "; in_quantity := Some "2";
                          in_unit := None |};
                       {| in_name := Some "mint"; in_quantity := Some " 6 ";
                          in_unit := Some " leaves " |} ] |}) cellar
  = (Some {| status := 201;
             body := JRecipe
                       {| json_recipe :=
                            {| rec_id := 3; rec_name := "Mojito";
                               rec_instructions := "Muddle the mint.";
                               rec_is_custom := true |};
                          json_ingredients :=
                            [ {| json_name := "rum"; json_quantity := "2";
                                 json_unit := "" |};
                              {| json_name := "mint"; json_quantity := "6";
                                 json_unit := "leaves" |} ] |} |},
     {| tables :=
          with_recipe
            {| rec_id := 3; rec_name := "Mojito";
               rec_instructions := "Muddle the mint."; rec_is_custom := true |}
            [ {| rin_id := 3; rin_recipe_id := 3; rin_name := "rum";
                 rin_quantity := "2"; rin_unit := "" |};
              {| rin_id := 4; rin_recipe_id := 3; rin_name := "mint";
                 rin_quantity := "6"; rin_unit := "leaves" |} ]
            (tables cellar);
        sequences := {| ingredients_id_seq := 2; recipes_id_seq := 4;
                        recipe_ingredients_id_seq := 5 |} |}).
Proof. reflexivity. Qed.

(** The same request when the store rejects the insertion of the second
    ingredient (its fifth request): the answer is 500 and the recipe row
    and the first ingredient row are rolled back; the sequences keep the
    values they were advanced to. *)
Example createRecipe_rolls_back_example :
  serve (createRecipe (fun n => Nat.eqb n 4)
           {| body_name := Some " Mojito ";
              body_instructions := Some "Muddle the mint.";
              body_ingredients :=
                Some [ {| in_name := Some " rum "; in_quantity := Some "2";
                          in_unit := None |};
                       {| in_name := Some "mint"; in_quantity := Some " 6 ";
                          in_unit := Some " leaves " |} ] |}) cellar
  = (Some {| status := 500;
             body := JError "Internal server error while adding recipe." |},
     {| tables := tables cellar;
        sequences := {| ingredients_id_seq := 2; recipes_id_seq := 4;
                        recipe_ingredients_id_seq := 4 |} |}).
Proof. reflexivity. Qed.

(** A request whose name is blank but not empty passes the check, which
    is made before trimming; one whose second ingredient lacks a quantity
    does not. *)
Example createRecipe_check_example :
  status_of (fst (serve (createRecipe reliable
                           {| body_name := Some "   ";
                              body_instructions := Some "Stir.";
                              body_ingredients := Some [] |}) cellar)) = Some 201
  /\ serve (createRecipe reliable
              {| body_name := Some "Mojito";
                 body_instructions := Some "Muddle the mint.";
                 body_ingredients :=
                   Some [ {| in_name := Some "rum"; in_quantity := Some "2";
                             in_unit := None |};
                          {| in_name := Some "mint"; in_quantity := None;
                             in_unit := None |} ] |}) cellar
     = (Some {| status := 400;
                body := JError "Each ingredient must have a name and quantity." |},
        cellar).
Proof. split; reflexivity. Qed.

(** *** [DELETE /api/recipes/:id] *)

Lemma filter_find {A} (f : A -> bool) (l : list A) :
  match filter f l with
  | [] => find f l = None
  | x :: _ => find f l = Some x
  end.
Proof.
  induction l as [| y l IH]; simpl; [reflexivity |].
  destruct (f y); [reflexivity | exact IH].
Qed.

Lemma filter_idem {A} (f : A -> bool) (l : list A) :
  filter f (filter f l) = filter f l.
Proof.
  induction l as [| y l IH]; simpl; [reflexivity |].
  destruct (f y) eqn:E; simpl; rewrite ?E, IH; reflexivity.
Qed.



(** Every way a run of [deleteRecipe] on a well-formed identifier can end. *)
Lemma deleteRecipe_run (fails : nat -> bool) (id : string) (pg : Pg) :
  test_digits id = true ->
  exists o pg',
    deleteRecipe fails id pg = (o, pg')
    /\ ((exists row,
           o = Returned {| status := 200;
                           body := JDeletedRecipe "Custom recipe deleted successfully"
                                                  row |}
           /\ find (fun r => (rec_id r =? int_of_param id)%Z) (recipes (committed pg))
              = Some row
           /\ rec_is_custom row = true
           /\ committed pg' = without_recipe (int_of_param id) (committed pg))
        \/ (refusal o /\ committed pg' = committed pg))
    /\ ((forall k, fails k = false) ->
        match find (fun r => (rec_id r =? int_of_param id)%Z) (recipes (committed pg)) with
        | None =>
            o = Returned {| status := 404; body := JError "Recipe not found." |}
        | Some row =>
            if rec_is_custom row then
              o = Returned {| status := 200;
                              body := JDeletedRecipe "Custom recipe deleted successfully"
                                                     row |}
            else
              o = Returned {| status := 403;
                              body := JError "Cannot delete standard recipes." |}
        end).
Proof.
  intros Hid. unfold deleteRecipe. rewrite Hid. cbn [negb].
  unfold bind at 1, connect at 1.
  destruct (fails (clock pg)) eqn:F0.
  { eexists _, _. split; [reflexivity |]. split; [right; split; [now left | reflexivity] |].
    intros H. rewrite H in F0. discriminate. }
  unfold try_catch. unfold bind at 1, BEGIN at 1. cbn [clock tx committed seqs].
  destruct (fails (S (clock pg))) eqn:F1.
  { by_refusal fails F1. }
  unfold bind at 1, client_query at 1, select_is_custom at 1.
  cbn [clock tx committed seqs].
  destruct (fails (S (S (clock pg)))) eqn:F2.
  { by_refusal fails F2. }
  assert (Hfind := filter_find (fun r => (rec_id r =? int_of_param id)%Z)
                     (recipes (committed pg))).
  destruct (filter _ (recipes (committed pg))) as [| row rest] eqn:Ef; cbn [map].
  - (* no such recipe *)
    rewrite Hfind. unfold bind at 1, ROLLBACK at 1. cbn [clock tx committed seqs].
    destruct (fails (S (S (S (clock pg))))) eqn:F3.
    { by_refusal fails F3. }
    eexists _, _. split; [reflexivity |]. split.
    + right. split; [| reflexivity]. right. eexists. split; [reflexivity |].
      simpl. tauto.
    + reflexivity.
  - rewrite Hfind. destruct (rec_is_custom row) eqn:Ec; cbn [negb].
    + (* a custom recipe *)
      unfold bind at 1, client_query at 1, delete_recipe_ingredients at 1.
      cbn [clock tx committed seqs].
      destruct (fails (S (S (S (clock pg))))) eqn:F3.
      { by_refusal fails F3. }
      unfold bind at 1, client_query at 1, delete_recipe at 1.
      cbn [clock tx committed seqs ingredients recipes recipe_ingredients].
      destruct (fails (S (S (S (S (clock pg)))))) eqn:F4.
      { by_refusal fails F4. }
      rewrite Ef. unfold bind at 1, COMMIT at 1. cbn [clock tx committed seqs].
      destruct (fails (S (S (S (S (S (clock pg))))))) eqn:F5.
      { by_refusal fails F5. }
      eexists _, _. split; [reflexivity |]. split.
      * left. exists row. split; [reflexivity |]. split; [reflexivity |].
        split; [exact Ec |].
        cbn [committed]. unfold without_recipe. now rewrite filter_idem.
      * reflexivity.
    + (* a standard recipe *)
      unfold bind at 1, ROLLBACK at 1. cbn [clock tx committed seqs].
      destruct (fails (S (S (S (clock pg))))) eqn:F3.
      { by_refusal fails F3. }
      eexists _, _. split; [reflexivity |]. split.
      * right. split; [| reflexivity]. right. eexists. split; [reflexivity |].
        simpl. tauto.
      * reflexivity.
Qed.

(** The deletion when the store rejects the [DELETE] on [recipes] (its
    fifth request), after the ingredient rows were deleted: the answer is
    500 and every row is back. *)
Example deleteRecipe_rolls_back_example :
  serve (deleteRecipe (fun n => Nat.eqb n 4) "2") cellar =
    (Some {| status := 500;
             body := JError "Internal server error while deleting recipe." |},
     cellar)
  /\ fst (serve (deleteRecipe reliable "1") cellar) =
     Some {| status := 403; body := JError "Cannot delete standard recipes." |}
  /\ fst (serve (deleteRecipe reliable "7") cellar) =
     Some {| status := 404; body := JError "Recipe not found." |}
  /\ fst (serve (deleteRecipe reliable "2a") cellar) =
     Some {| status := 400; body := JError "Invalid recipe ID format." |}.
Proof. repeat split. Qed.

Lemma refusal_not_200 (o : Outcome Response) :
  refusal o ->
  status_of (match o with Returned a => Some a | Thrown => None end) <> Some 200.
Proof.
  intros [-> | [r [-> Hr]]]; simpl; [discriminate |].
  intros E. injection E as E. rewrite E in Hr. simpl in Hr.
  destruct Hr as [H | [H | [H | []]]]; discriminate H.
Qed.

Lemma ingredients_of_without (rid : Z) (t : Tables) :
  ingredients_of rid (without_recipe rid t) = [].
Proof.
  unfold ingredients_of, without_recipe. cbn [recipe_ingredients].
  apply filter_nil_iff. intros x Hx. apply filter_In in Hx.
  destruct Hx as [_ Hx]. now apply negb_true_iff in Hx.
Qed.

(** C3. For a well-formed identifier, on a store that does not fail:
    [deleteRecipe] answers 404 when no recipe has the identifier and 403
    when the recipe is a standard one, and leaves every row as it was in
    both cases; when the recipe is a custom one it answers 200 with the
    deleted row, and what is committed is the old tables without the recipe
    row and without its ingredient rows, so that no ingredient row of the
    recipe is left.  Wherever the store fails, the deletion is all or
    nothing: either the answer is 200 and both are gone, or it is not and
    the three tables are what they were. *)
Theorem deleteRecipe_spec (id : string) (db : Db) :
  test_digits id = true ->
  ((forall r, In r (recipes (tables db)) -> rec_id r <> int_of_param id) ->
     fst (serve (deleteRecipe reliable id) db) =
       Some {| status := 404; body := JError "Recipe not found." |}
     /\ tables (snd (serve (deleteRecipe reliable id) db)) = tables db)
  /\ (forall row,
        find (fun r => (rec_id r =? int_of_param id)%Z) (recipes (tables db)) = Some row ->
        rec_is_custom row = false ->
        fst (serve (deleteRecipe reliable id) db) =
          Some {| status := 403; body := JError "Cannot delete standard recipes." |}
        /\ tables (snd (serve (deleteRecipe reliable id) db)) = tables db)
  /\ (forall row,
        find (fun r => (rec_id r =? int_of_param id)%Z) (recipes (tables db)) = Some row ->
        rec_is_custom row = true ->
        fst (serve (deleteRecipe reliable id) db) =
          Some {| status := 200;
                  body := JDeletedRecipe "Custom recipe deleted successfully" row |}
        /\ tables (snd (serve (deleteRecipe reliable id) db)) =
           without_recipe (int_of_param id) (tables db)
        /\ List.length
             (ingredients_of (int_of_param id)
                (tables (snd (serve (deleteRecipe reliable id) db)))) = 0%nat
        /\ (forall r, In r (recipes (tables (snd (serve (deleteRecipe reliable id) db)))) ->
                      rec_id r <> int_of_param id))
  /\ (forall fails,
        (status_of (fst (serve (deleteRecipe fails id) db)) = Some 200
         /\ tables (snd (serve (deleteRecipe fails id) db)) =
            without_recipe (int_of_param id) (tables db))
        \/ (status_of (fst (serve (deleteRecipe fails id) db)) <> Some 200
            /\ tables (snd (serve (deleteRecipe fails id) db)) = tables db)).
Proof.
  intros Hid.
  assert (Hall : forall fails,
    (status_of (fst (serve (deleteRecipe fails id) db)) = Some 200
     /\ tables (snd (serve (deleteRecipe fails id) db)) =
        without_recipe (int_of_param id) (tables db))
    \/ (status_of (fst (serve (deleteRecipe fails id) db)) <> Some 200
        /\ tables (snd (serve (deleteRecipe fails id) db)) = tables db)).
  { intros fails.
    destruct (deleteRecipe_run fails id
                {| committed := tables db; tx := None; seqs := sequences db; clock := 0 |}
                Hid) as [o [pg' [E [Ho _]]]].
    unfold serve. rewrite E. cbn [fst snd tables committed] in *.
    destruct Ho as [[row [-> [_ [_ Hc]]]] | [Ho Hc]].
    - left. split; [reflexivity | exact Hc].
    - right. split; [now apply refusal_not_200 | exact Hc]. }
  destruct (deleteRecipe_run reliable id
              {| committed := tables db; tx := None; seqs := sequences db; clock := 0 |}
              Hid) as [o [pg' [E [_ Hr]]]].
  specialize (Hr (fun _ => eq_refl)). cbn [committed] in Hr.
  assert (Ef : fst (serve (deleteRecipe reliable id) db) =
               match o with Returned a => Some a | Thrown => None end).
  { unfold serve. now rewrite E. }
  specialize (Hall reliable) as Hrel. rewrite Ef in Hrel.
  split; [| split; [| split; [| exact Hall]]].
  - intros Hnone.
    assert (Hf : find (fun r => (rec_id r =? int_of_param id)%Z) (recipes (tables db))
                 = None).
    { destruct (find _ _) as [row |] eqn:Efind; [| reflexivity].
      apply find_some in Efind. destruct Efind as [Hin He].
      apply Z.eqb_eq in He. now apply Hnone in Hin. }
    rewrite Hf in Hr. subst o. rewrite Ef. split; [reflexivity |].
    destruct Hrel as [[H _] | [_ H]]; [discriminate H | exact H].
  - intros row Hf Hc. rewrite Hf, Hc in Hr. subst o. rewrite Ef.
    split; [reflexivity |].
    destruct Hrel as [[H _] | [_ H]]; [discriminate H | exact H].
  - intros row Hf Hc. rewrite Hf, Hc in Hr. subst o. rewrite Ef.
    split; [reflexivity |].
    destruct Hrel as [[_ H] | [H _]]; [| now contradiction H].
    rewrite H. split; [reflexivity |]. split.
    + now rewrite ingredients_of_without.
    + intros r Hin. cbn [without_recipe recipes] in Hin.
      apply filter_In in Hin. destruct Hin as [_ Hin].
      apply negb_true_iff, Z.eqb_neq in Hin. exact Hin.
Qed.

Lemma deleteRecipe_spec_witness :
  test_digits "2" = true
  /\ serve (deleteRecipe reliable "2") cellar =
     (Some {| status := 200;
              body := JDeletedRecipe "Custom recipe deleted successfully"
                        {| rec_id := 2; rec_name := "House Punch";
                           rec_instructions := "Stir."; rec_is_custom := true |} |},
      {| tables := without_recipe 2 (tables cellar); sequences := sequences cellar |})
  /\ fst (serve (deleteRecipe reliable "2") cellar) =
     Some {| status := 200;
             body := JDeletedRecipe "Custom recipe deleted successfully"
                       {| rec_id := 2; rec_name := "House Punch";
                          rec_instructions := "Stir."; rec_is_custom := true |} |}.
Proof.
  split; [reflexivity | split; [reflexivity |]].
  destruct (deleteRecipe_spec "2" cellar eq_refl) as [_ [_ [H _]]].
  exact (proj1 (H _ eq_refl eq_refl)).
Defined.

End ServerFacts.

(* ------------------------------------------------------------------ *)
(** ** More facts about the string primitives *)

Module StringFacts.

Ltac each_ascii c := destruct c as [[] [] [] [] [] [] [] []]; reflexivity.

Lemma lowerChar_idem (c : ascii) : lowerChar (lowerChar c) = lowerChar c.
Proof. each_ascii c. Qed.

Lemma upperChar_idem (c : ascii) : upperChar (upperChar c) = upperChar c.
Proof. each_ascii c. Qed.

(** The same enumeration for a fact about the characters of ASCII. *)
Ltac each_ascii_char c H :=
  destruct c as [[] [] [] [] [] [] [] []]; try reflexivity; cbv in H; discriminate H.

(** On ASCII the two case maps undo each other, and stay within ASCII. *)
Lemma lowerChar_upperChar (c : ascii) :
  isAsciiChar c = true -> lowerChar (upperChar c) = lowerChar c.
Proof. intros H. each_ascii_char c H. Qed.

Lemma upperChar_lowerChar (c : ascii) :
  isAsciiChar c = true -> upperChar (lowerChar c) = upperChar c.
Proof. intros H. each_ascii_char c H. Qed.

Lemma isAsciiChar_lowerChar (c : ascii) :
  isAsciiChar c = true -> isAsciiChar (lowerChar c) = true.
Proof. intros H. each_ascii_char c H. Qed.

Lemma isAsciiChar_upperChar (c : ascii) :
  isAsciiChar c = true -> isAsciiChar (upperChar c) = true.
Proof. intros H. each_ascii_char c H. Qed.

Lemma isWhiteSpace_lowerChar (c : ascii) : isWhiteSpace (lowerChar c) = isWhiteSpace c.
Proof. each_ascii c. Qed.

Lemma isWhiteSpace_upperChar (c : ascii) : isWhiteSpace (upperChar c) = isWhiteSpace c.
Proof. each_ascii c. Qed.

Lemma isSpace_lowerChar (c : ascii) : Ascii.eqb (lowerChar c) " " = Ascii.eqb c " ".
Proof. each_ascii c. Qed.

Lemma isSpace_upperChar (c : ascii) : Ascii.eqb (upperChar c) " " = Ascii.eqb c " ".
Proof. each_ascii c. Qed.

Lemma space_isWhiteSpace (c : ascii) : Ascii.eqb c " " = true -> isWhiteSpace c = true.
Proof. intros H. apply Ascii.eqb_eq in H. now subst. Qed.

Lemma toLowerCase_idem (s : string) : toLowerCase (toLowerCase s) = toLowerCase s.
Proof.
  induction s as [| c s IH]; simpl; [reflexivity |].
  now rewrite lowerChar_idem, IH.
Qed.

(** *** [trim] *)

Lemma trimEnd_idem (s : string) : trimEnd (trimEnd s) = trimEnd s.
Proof.
  induction s as [| c s IH]; [reflexivity |].
  cbn [trimEnd]. destruct (trimEnd s) as [| d r] eqn:E.
  - destruct (isWhiteSpace c) eqn:W; [reflexivity |].
    cbn [trimEnd]. now rewrite W.
  - cbn [trimEnd] in *. now rewrite IH.
Qed.



Lemma trimStart_cleanStart (s : string) : cleanStart (trimStart s).
Proof.
  induction s as [| c s IH]; simpl; [exact I |].
  destruct (isWhiteSpace c) eqn:W; [exact IH | exact W].
Qed.

Lemma cleanStart_trimStart (s : string) : cleanStart s -> trimStart s = s.
Proof. destruct s as [| c s]; simpl; [reflexivity | now intros ->]. Qed.

Lemma cleanStart_trimEnd (s : string) : cleanStart s -> cleanStart (trimEnd s).
Proof.
  destruct s as [| c s]; [exact (fun H => H) |].
  cbn [trimEnd cleanStart]. intros W.
  destruct (trimEnd s); [rewrite W |]; exact W.
Qed.

Lemma trim_trimStart (s : string) : trimStart (trim s) = trim s.
Proof.
  apply cleanStart_trimStart, cleanStart_trimEnd, trimStart_cleanStart.
Qed.

Lemma trim_trimEnd (s : string) : trimEnd (trim s) = trim s.
Proof. apply trimEnd_idem. Qed.

Lemma trim_idem (s : string) : trim (trim s) = trim s.
Proof. unfold trim at 1. now rewrite trim_trimStart, trim_trimEnd. Qed.

Lemma trim_fixed (s : string) : trimStart s = s -> trimEnd s = s -> trim s = s.
Proof. unfold trim. now intros -> ->. Qed.

(** *** Strings of ASCII characters *)

Lemma isAscii_String (c : ascii) (s : string) :
  isAscii (String c s) = true <-> isAsciiChar c = true /\ isAscii s = true.
Proof. cbn [isAscii]. apply andb_true_iff. Qed.

Lemma isAscii_trimStart (s : string) : isAscii s = true -> isAscii (trimStart s) = true.
Proof.
  induction s as [| c s IH]; [reflexivity |].
  intros H. cbn [trimStart]. destruct (isWhiteSpace c); [| exact H].
  apply IH. now apply isAscii_String in H.
Qed.

Lemma isAscii_trimEnd (s : string) : isAscii s = true -> isAscii (trimEnd s) = true.
Proof.
  induction s as [| c s IH]; [reflexivity |].
  intros H. apply isAscii_String in H. destruct H as [Hc Hs].
  cbn [trimEnd]. specialize (IH Hs). destruct (trimEnd s) as [| d r].
  - destruct (isWhiteSpace c); [reflexivity |]. apply isAscii_String. now split.
  - apply isAscii_String. now split.
Qed.

Lemma isAscii_trim (s : string) : isAscii s = true -> isAscii (trim s) = true.
Proof. intros H. now apply isAscii_trimEnd, isAscii_trimStart. Qed.

Lemma isAscii_titleCaseBy (sep : ascii -> bool) (b : bool) (s : string) :
  isAscii s = true -> isAscii (titleCaseBy sep b s) = true.
Proof.
  revert b. induction s as [| c s IH]; intros b H; [reflexivity |].
  apply isAscii_String in H. destruct H as [Hc Hs].
  cbn [titleCaseBy]. destruct (sep c); apply isAscii_String.
  - split; [exact Hc | now apply IH].
  - split; [| now apply IH].
    destruct b; [now apply isAsciiChar_upperChar | now apply isAsciiChar_lowerChar].
Qed.

(** *** Title case *)

Lemma toLowerCase_titleCaseBy (sep : ascii -> bool) (b : bool) (s : string) :
  isAscii s = true -> toLowerCase (titleCaseBy sep b s) = toLowerCase s.
Proof.
  revert b. induction s as [| c s IH]; intros b H; cbn [titleCaseBy toLowerCase];
    [reflexivity |].
  apply isAscii_String in H. destruct H as [Hc Hs].
  destruct (sep c); cbn [toLowerCase]; rewrite (IH _ Hs); [reflexivity |].
  destruct b; [now rewrite (lowerChar_upperChar c Hc) | now rewrite lowerChar_idem].
Qed.

Lemma titleCaseBy_empty (sep : ascii -> bool) (b : bool) (s : string) :
  titleCaseBy sep b s = "" <-> s = "".
Proof.
  destruct s as [| c s]; cbn [titleCaseBy]; [tauto |].
  destruct (sep c); split; discriminate.
Qed.

Lemma titleCaseBy_trimStart (sep : ascii -> bool) (b : bool) (s : string) :
  trimStart s = s -> trimStart (titleCaseBy sep b s) = titleCaseBy sep b s.
Proof.
  destruct s as [| c s]; [reflexivity |].
  cbn [trimStart titleCaseBy]. destruct (isWhiteSpace c) eqn:W.
  - intros H. exfalso.
    assert (L : String.length (trimStart s) <= String.length s).
    { clear. induction s as [| d s IH]; simpl; [lia |].
      destruct (isWhiteSpace d); simpl; lia. }
    rewrite H in L. simpl in L. lia.
  - intros _. destruct (sep c); cbn [trimStart]; [now rewrite W |].
    destruct b; now rewrite ?isWhiteSpace_upperChar, ?isWhiteSpace_lowerChar, W.
Qed.

Lemma titleCaseBy_trimEnd (sep : ascii -> bool) (b : bool) (s : string) :
  trimEnd s = s -> trimEnd (titleCaseBy sep b s) = titleCaseBy sep b s.
Proof.
  revert b. induction s as [| c s IH]; intros b; [reflexivity |].
  cbn [trimEnd titleCaseBy]. intros H.
  assert (K : isWhiteSpace
                (if sep c then c else if b then upperChar c else lowerChar c)
              = isWhiteSpace c).
  { destruct (sep c); [reflexivity |].
    destruct b; [apply isWhiteSpace_upperChar | apply isWhiteSpace_lowerChar]. }
  destruct (trimEnd s) as [| d r] eqn:E.
  - destruct (isWhiteSpace c) eqn:W; [discriminate H |].
    injection H as H. subst s.
    destruct (sep c); cbn [titleCaseBy trimEnd]; rewrite ?W in *; try reflexivity.
    now rewrite K.
  - injection H as H.
    destruct (sep c); cbn [trimEnd]; rewrite (IH _ H).
    + destruct (titleCaseBy sep true s) eqn:T; [| reflexivity].
      apply titleCaseBy_empty in T. congruence.
    + destruct (titleCaseBy sep false s) eqn:T; [| reflexivity].
      apply titleCaseBy_empty in T. congruence.
Qed.

Lemma titleCaseBy_space_idem (b : bool) (s : string) :
  titleCaseBy (fun c => Ascii.eqb c " ") b (titleCaseBy (fun c => Ascii.eqb c " ") b s)
  = titleCaseBy (fun c => Ascii.eqb c " ") b s.
Proof.
  revert b. induction s as [| c s IH]; intros b; cbn [titleCaseBy]; cbv beta;
    [reflexivity |].
  destruct (Ascii.eqb c " ") eqn:E; cbn [titleCaseBy]; cbv beta.
  - now rewrite E, IH.
  - destruct b.
    + now rewrite isSpace_upperChar, E, upperChar_idem, IH.
    + now rewrite isSpace_lowerChar, E, lowerChar_idem, IH.
Qed.

End StringFacts.

(* ------------------------------------------------------------------ *)
(** ** The local-storage client beyond the filter *)

Module ClientFacts.
Import App ClientSpec JsFacts StringFacts.

Lemma titleCaseBy_lower (b : bool) (u v : string) :
  isAscii u = true -> isAscii v = true ->
  toLowerCase u = toLowerCase v ->
  titleCaseBy (fun c => Ascii.eqb c " ") b u = titleCaseBy (fun c => Ascii.eqb c " ") b v.
Proof.
  revert b v. induction u as [| c u IH]; intros b [| d v] Hu Hv H; try discriminate H;
    [reflexivity |].
  apply isAscii_String in Hu. destruct Hu as [Ac Au].
  apply isAscii_String in Hv. destruct Hv as [Ad Av].
  cbn [toLowerCase] in H. injection H as Hc Hr.
  cbn [titleCaseBy]. cbv beta.
  assert (Es : Ascii.eqb c " " = Ascii.eqb d " ")
    by now rewrite <- (isSpace_lowerChar c), <- (isSpace_lowerChar d), Hc.
  rewrite <- Es. destruct (Ascii.eqb c " ") eqn:E.
  - apply Ascii.eqb_eq in E. symmetry in Es. apply Ascii.eqb_eq in Es.
    subst. now rewrite (IH true v Au Av Hr).
  - rewrite (IH false v Au Av Hr).
    assert (Eu : upperChar c = upperChar d)
      by now rewrite <- (upperChar_lowerChar c Ac), <- (upperChar_lowerChar d Ad), Hc.
    destruct b; now rewrite ?Eu, ?Hc.
Qed.

Lemma normalizedName_trimmed (name : string) :
  trim (normalizedName name) = normalizedName name.
Proof.
  rewrite AppFacts.normalizedName_titleCase. unfold titleCaseSpaces.
  apply trim_fixed.
  - apply titleCaseBy_trimStart, trim_trimStart.
  - apply titleCaseBy_trimEnd, trim_trimEnd.
Qed.

(** For an ASCII name, the normalised name is the trimmed name up to case,
    and is an ASCII name itself. *)
Lemma normalizedName_lower (name : string) :
  isAscii name = true ->
  toLowerCase (normalizedName name) = toLowerCase (trim name).
Proof.
  intros H. rewrite AppFacts.normalizedName_titleCase.
  now apply toLowerCase_titleCaseBy, isAscii_trim.
Qed.

Lemma normalizedName_ascii (name : string) :
  isAscii name = true -> isAscii (normalizedName name) = true.
Proof.
  intros H. rewrite AppFacts.normalizedName_titleCase.
  now apply isAscii_titleCaseBy, isAscii_trim.
Qed.

Lemma normalizedName_empty (name : string) :
  normalizedName name = "" <-> trim name = "".
Proof. rewrite AppFacts.normalizedName_titleCase. apply titleCaseBy_empty. Qed.

(** Two ASCII names that are equal up to case and outer white space have
    the same normalised name. *)
Lemma normalizedName_same (name other : string) :
  isAscii name = true -> isAscii other = true ->
  toLowerCase (trim other) = toLowerCase (trim name) ->
  normalizedName other = normalizedName name.
Proof.
  intros Hn Ho H. rewrite !AppFacts.normalizedName_titleCase.
  apply titleCaseBy_lower; [now apply isAscii_trim | now apply isAscii_trim | exact H].
Qed.

(** X1. For a name of ASCII characters, the normalised name of an
    ingredient is a canonical form: it is trimmed, normalising it again
    changes nothing, it equals the trimmed name up to case, it is empty
    exactly when the name is blank, it is again a string of ASCII
    characters, and two such names that are equal up to case and outer
    white space have the same normalised name. *)
Theorem normalizedName_canonical (name : string) :
  isAscii name = true ->
  trim (normalizedName name) = normalizedName name
  /\ normalizedName (normalizedName name) = normalizedName name
  /\ toLowerCase (normalizedName name) = toLowerCase (trim name)
  /\ (normalizedName name = "" <-> trim name = "")
  /\ isAscii (normalizedName name) = true
  /\ (forall other, isAscii other = true ->
                    toLowerCase (trim other) = toLowerCase (trim name) ->
                    normalizedName other = normalizedName name).
Proof.
  intros Ha.
  split; [apply normalizedName_trimmed | split; [| split; [| split; [| split]]]].
  - rewrite (AppFacts.normalizedName_titleCase (normalizedName name)).
    rewrite normalizedName_trimmed, AppFacts.normalizedName_titleCase.
    apply titleCaseBy_space_idem.
  - now apply normalizedName_lower.
  - apply normalizedName_empty.
  - now apply normalizedName_ascii.
  - intros other Ho H. now apply normalizedName_same.
Qed.

Lemma normalizedName_canonical_witness :
  normalizedName "  lIME   juice " = "Lime   Juice"
  /\ normalizedName (normalizedName "  lIME   juice ") = normalizedName "  lIME   juice "
  /\ normalizedName "LIME   JUICE" = normalizedName "  lIME   juice ".
Proof.
  destruct (normalizedName_canonical "  lIME   juice " eq_refl)
    as [_ [Hidem [_ [_ [_ Hsame]]]]].
  split; [reflexivity | split; [exact Hidem |]].
  apply Hsame; reflexivity.
Defined.

Lemma hasIngredient_In (ings : list Ingredient) (x : string) :
  hasIngredient ings x = true <->
  In (toLowerCase x) (map (fun i => toLowerCase (i_name i)) ings).
Proof.
  unfold hasIngredient. rewrite existsb_exists, in_map_iff.
  split; intros [i [H1 H2]]; exists i.
  - apply String.eqb_eq in H2. now split.
  - split; [assumption |]. now apply String.eqb_eq.
Qed.

Lemma hasIngredient_lower (ings : list Ingredient) (x y : string) :
  toLowerCase x = toLowerCase y -> hasIngredient ings x = hasIngredient ings y.
Proof. unfold hasIngredient. now intros ->. Qed.

Lemma suggestIngredients_In
    (cmp : string -> string -> Z) (rs : list Recipe) (ings : list Ingredient) (s : string) :
  In s (suggestIngredients cmp rs ings) <->
  In s (allRecipeIngredientNames rs) /\ hasIngredient ings s = false.
Proof.
  unfold suggestIngredients.
  assert (P := sort_Permutation cmp
    (filter (fun suggestion =>
               negb (JsSet.has (toLowerCase suggestion)
                       (JsSet.ofList (map (fun i => toLowerCase (i_name i)) ings))))
            (allRecipeIngredientNames rs))).
  assert (E : JsSet.has (toLowerCase s)
                (JsSet.ofList (map (fun i => toLowerCase (i_name i)) ings))
              = hasIngredient ings s).
  { apply eq_true_iff_eq. unfold JsSet.has.
    now rewrite has_In, ofList_In, hasIngredient_In. }
  split.
  - intros H. apply (Permutation_in _ P), filter_In in H.
    rewrite E in H. destruct H as [H1 H2]. split; [assumption |].
    now apply negb_true_iff.
  - intros [H1 H2]. apply (Permutation_in _ (Permutation_sym P)), filter_In.
    rewrite E. split; [assumption |]. now apply negb_true_iff.
Qed.

(** X2. An ingredient of a recipe whose name is a string of ASCII
    characters and not blank is suggested, under its normalised name,
    exactly when the user does not have it (the trimmed name compared up
    to case), whatever the names of the inventory. *)
Theorem suggestion_iff_missing
    (localeCompare : string -> string -> Z)
    (allRecipes : list Recipe) (ings : list Ingredient)
    (r : Recipe) (ri : RecipeIngredient) :
  In r allRecipes -> In ri (r_ingredients r) ->
  isAscii (ri_name ri) = true -> trim (ri_name ri) <> "" ->
  (In (normalizedName (ri_name ri)) (suggestIngredients localeCompare allRecipes ings)
   <-> hasIngredient ings (trim (ri_name ri)) = false).
Proof.
  intros Hr Hri Ha Hne.
  rewrite suggestIngredients_In.
  rewrite (hasIngredient_lower ings _ _ (normalizedName_lower _ Ha)).
  split; [tauto |]. intros H. split; [| assumption].
  apply AppFacts.allRecipeIngredientNames_In. exists r, ri.
  repeat split; try assumption. rewrite normalizedName_empty. exact Hne.
Qed.

Lemma suggestion_iff_missing_witness :
  In "Triple Sec"
     (suggestIngredients ordinalCompare STANDARD_RECIPES
        [ {| i_id := "1"; i_name := "tequila" |} ])
  /\ ~ In "Tequila"
       (suggestIngredients ordinalCompare STANDARD_RECIPES
          [ {| i_id := "1"; i_name := "tequila" |} ]).
Proof.
  split.
  - apply (suggestion_iff_missing ordinalCompare STANDARD_RECIPES _
             (hd {| r_id := ""; r_name := ""; r_ingredients := [];
                    r_instructions := ""; r_isCustom := false |} STANDARD_RECIPES)
             {| ri_name := "Triple Sec"; ri_quantity := "1"; ri_unit := "oz" |});
      [now left | simpl; tauto | reflexivity | discriminate | reflexivity].
  - intros H.
    apply (suggestion_iff_missing ordinalCompare STANDARD_RECIPES _
             (hd {| r_id := ""; r_name := ""; r_ingredients := [];
                    r_instructions := ""; r_isCustom := false |} STANDARD_RECIPES)
             {| ri_name := "Tequila"; ri_quantity := "2"; ri_unit := "oz" |}) in H;
      [discriminate H | now left | simpl; tauto | reflexivity | discriminate].
Defined.



(** X4. The check marks of the recipe cards agree with the makeable
    filter: a recipe can be made exactly when [hasIngredient] holds of each
    of its ingredient names.  A recipe without ingredients can always be
    made, and from an empty inventory nothing else can. *)
Theorem canMakeRecipe_hasIngredient (ings : list Ingredient) (r : Recipe) :
  canMakeRecipe ings r = forallb (fun ri => hasIngredient ings (ri_name ri)) (r_ingredients r)
  /\ (r_ingredients r = [] -> canMakeRecipe ings r = true)
  /\ (canMakeRecipe [] r = true <-> r_ingredients r = []).
Proof.
  split; [| split].
  - unfold canMakeRecipe.
    induction (r_ingredients r) as [| ri l IH]; simpl; [reflexivity |].
    rewrite IH. f_equal.
    apply eq_true_iff_eq. unfold JsArray.includes.
    now rewrite has_In, hasIngredient_In.
  - unfold canMakeRecipe. now intros ->.
  - unfold canMakeRecipe. destruct (r_ingredients r); simpl; split;
      (reflexivity || discriminate).
Qed.

(** *** Adding to the inventory *)

Lemma asciiNames_In (rs : list Recipe) (r : Recipe) (ri : RecipeIngredient) :
  asciiNames rs = true -> In r rs -> In ri (r_ingredients r) ->
  isAscii (ri_name ri) = true.
Proof.
  unfold asciiNames. intros H Hr Hri.
  rewrite forallb_forall in H. specialize (H r Hr).
  rewrite forallb_forall in H. now apply H.
Qed.

Lemma asciiNames_standard (rs : list Recipe) :
  asciiNames rs = true -> asciiNames (STANDARD_RECIPES ++ rs) = true.
Proof. unfold asciiNames. rewrite forallb_app. now intros ->. Qed.

(** The names collected from recipes with ASCII ingredient names are
    normalised names: not empty, trimmed, in title case and ASCII. *)
Lemma names_of_normalized (rs : list Recipe) (s : string) :
  asciiNames rs = true ->
  In s (allRecipeIngredientNames rs) ->
  s <> "" /\ trim s = s /\ titleCaseSpaces s = s /\ isAscii s = true.
Proof.
  intros Ha H. apply AppFacts.allRecipeIngredientNames_In in H.
  destruct H as [r [ri [Hr [Hri [-> Hne]]]]].
  split; [assumption | split; [apply normalizedName_trimmed | split]].
  - rewrite AppFacts.normalizedName_titleCase. unfold titleCaseSpaces.
    apply titleCaseBy_space_idem.
  - apply normalizedName_ascii. now apply (asciiNames_In rs r).
Qed.

Lemma hasIngredient_app (l1 l2 : list Ingredient) (x : string) :
  hasIngredient (l1 ++ l2) x = hasIngredient l1 x || hasIngredient l2 x.
Proof. unfold hasIngredient. apply existsb_app. Qed.

(** X5. When the ingredient names of the custom recipes are strings of
    ASCII characters, quick-adding a suggestion adds an ingredient of
    exactly that name, which takes the suggestion, and no other, off the
    list, whatever the names of the inventory. *)
Theorem quickAdd_takes_suggestion
    (localeCompare : string -> string -> Z)
    (state : State) (newIngredient now s : string) :
  asciiNames (customRecipes state) = true ->
  In s (availableSuggestions localeCompare state) ->
  quickAddIngredient state newIngredient s now =
    (Some (ADD_INGREDIENT {| i_id := now; i_name := s |}), newIngredient)
  /\ forall x,
       In x (availableSuggestions localeCompare
               (dispatched state (fst (quickAddIngredient state newIngredient s now))))
       <-> In x (availableSuggestions localeCompare state) /\ x <> s.
Proof.
  unfold availableSuggestions. intros Hascii Hs.
  apply asciiNames_standard in Hascii.
  apply suggestIngredients_In in Hs. destruct Hs as [Hs Hmiss].
  destruct (names_of_normalized _ _ Hascii Hs) as [Hne [Ht [Htitle Has]]].
  assert (Hq : quickAddIngredient state newIngredient s now =
               (Some (ADD_INGREDIENT {| i_id := now; i_name := s |}), newIngredient)).
  { unfold quickAddIngredient, addIngredient.
    rewrite (proj2 (AppFacts.truthy_iff s) Hne), Ht.
    rewrite (proj2 (AppFacts.truthy_iff s) Hne).
    change (existsb (fun i => toLowerCase (i_name i) =? toLowerCase s) (ingredients state))
      with (hasIngredient (ingredients state) s).
    now rewrite Hmiss. }
  split; [exact Hq |]. intros x. rewrite Hq. cbn [fst dispatched reducer customRecipes
                                                  ingredients].
  rewrite !suggestIngredients_In, hasIngredient_app, orb_false_iff.
  unfold hasIngredient at 2. cbn [existsb i_name]. rewrite orb_false_r.
  split.
  - intros [Hx [Hm Hd]]. split; [now split |].
    intros ->. now rewrite String.eqb_refl in Hd.
  - intros [[Hx Hm] Hd]. split; [assumption | split; [assumption |]].
    apply String.eqb_neq. intros E. apply Hd.
    destruct (names_of_normalized _ _ Hascii Hx) as [_ [_ [Hxt Hax]]].
    rewrite <- Hxt, <- Htitle. unfold titleCaseSpaces.
    apply titleCaseBy_lower; [exact Hax | exact Has | now symmetry].
Qed.

Lemma quickAdd_takes_suggestion_witness :
  fst (quickAddIngredient
         {| ingredients := [ {| i_id := "1"; i_name := "tequila" |} ];
            customRecipes :=
              [ {| r_id := "9"; r_name := "Mojito"; r_isCustom := true;
                   r_ingredients :=
                     [ {| ri_name := " mint LEAVES"; ri_quantity := "6";
                          ri_unit := "" |} ];
                   r_instructions := "Muddle." |} ] |}
         "" "Mint Leaves" "1700000000000")
  = Some (ADD_INGREDIENT {| i_id := "1700000000000"; i_name := "Mint Leaves" |}).
Proof.
  refine (f_equal fst
            (proj1 (quickAdd_takes_suggestion ordinalCompare
                      {| ingredients := [ {| i_id := "1"; i_name := "tequila" |} ];
                         customRecipes :=
                           [ {| r_id := "9"; r_name := "Mojito"; r_isCustom := true;
                                r_ingredients :=
                                  [ {| ri_name := " mint LEAVES"; ri_quantity := "6";
                                       ri_unit := "" |} ];
                                r_instructions := "Muddle." |} ] |}
                      "" "1700000000000" "Mint Leaves" eq_refl _))).
  vm_compute. tauto.
Defined.

Lemma Subseq_map {A B} (f : A -> B) (l1 l2 : list A) :
  Subseq l1 l2 -> Subseq (map f l1) (map f l2).
Proof. induction 1; simpl; now constructor. Qed.

Lemma inventory_ok_filter (keep : Ingredient -> bool) (ings : list Ingredient) :
  inventory_ok ings -> inventory_ok (filter keep ings).
Proof.
  intros [Hnd Hall]. split.
  - eapply Subseq_NoDup; [apply Subseq_map, filter_Subseq | exact Hnd].
  - rewrite Forall_forall in *. intros i Hi. apply filter_In in Hi. now apply Hall.
Qed.

(** X6. [addIngredient] keeps the inventory free of duplicates: if no two
    names of the inventory are equal up to case and every name is trimmed
    and not empty, the same holds after [addIngredient], whatever the
    input, and after the removal of an ingredient.  The custom recipes are
    not touched, and a second [addIngredient] of the same input adds
    nothing. *)
Theorem addIngredient_keeps_inventory
    (state : State) (newIngredient : string) (nameToAdd : option string)
    (now : string) :
  inventory_ok (ingredients state) ->
  inventory_ok
    (ingredients (dispatched state (fst (addIngredient state newIngredient nameToAdd now))))
  /\ customRecipes (dispatched state (fst (addIngredient state newIngredient nameToAdd now)))
     = customRecipes state
  /\ (forall id, inventory_ok (ingredients (reducer state (REMOVE_INGREDIENT id))))
  /\ (forall later,
        fst (addIngredient
               (dispatched state (fst (addIngredient state newIngredient nameToAdd now)))
               newIngredient nameToAdd later) = None).
Proof.
  intros Hok.
  set (name := trim (match nameToAdd with
                     | Some n => if truthy n then n else newIngredient
                     | None => newIngredient
                     end)).
  assert (Hadd : forall st t,
    addIngredient st newIngredient nameToAdd t =
      if truthy name && negb (hasIngredient (ingredients st) name)
      then (Some (ADD_INGREDIENT {| i_id := t; i_name := name |}),
            match nameToAdd with
            | Some n => if truthy n then newIngredient else ""
            | None => ""
            end)
      else (None, newIngredient)) by reflexivity.
  assert (Hrem : forall id, inventory_ok (ingredients (reducer state (REMOVE_INGREDIENT id))))
    by (intros id; now apply inventory_ok_filter).
  rewrite !Hadd.
  destruct (truthy name && negb (hasIngredient (ingredients state) name)) eqn:Ec;
    cbn [fst dispatched].
  2: { split; [assumption | split; [reflexivity | split; [exact Hrem |]]].
       intros later. now rewrite Hadd, Ec. }
  apply andb_true_iff in Ec. destruct Ec as [Et Eh]. apply negb_true_iff in Eh.
  cbn [reducer ingredients customRecipes].
  split; [| split; [reflexivity | split; [exact Hrem |]]].
  - destruct Hok as [Hnd Hall]. split.
    + rewrite map_app. cbn [map i_name].
      apply NoDup_app; [assumption | repeat constructor; intros [] |].
      intros x Hx [<- | []].
      apply hasIngredient_In in Hx. congruence.
    + apply Forall_app. split; [assumption |].
      repeat constructor; cbn [i_name].
      * apply trim_idem.
      * now apply AppFacts.truthy_iff.
  - intros later. rewrite Hadd, Et. cbn [andb ingredients].
    rewrite hasIngredient_app. unfold hasIngredient at 2. cbn [existsb i_name].
    now rewrite String.eqb_refl, orb_true_r.
Qed.

Lemma addIngredient_keeps_inventory_witness :
  inventory_ok
    (ingredients
       (dispatched initialState (fst (addIngredient initialState " Gin " None "17")))).
Proof.
  apply (addIngredient_keeps_inventory initialState " Gin " None "17").
  split; constructor.
Defined.

Lemma filter_all {A} (f : A -> bool) (l : list A) :
  (forall x, In x l -> f x = true) -> filter f l = l.
Proof.
  induction l as [| y l IH]; intros H; simpl; [reflexivity |].
  rewrite (H y (or_introl eq_refl)), IH; [reflexivity |].
  intros x Hx. apply H. now right.
Qed.

(** X7. Removing what was just added gives the state back: for an
    ingredient, or a recipe, whose identifier the state does not hold
    yet. *)
Theorem reducer_add_remove (state : State) (i : Ingredient) (r : Recipe) :
  (forall j, In j (ingredients state) -> i_id j <> i_id i) ->
  (forall q, In q (customRecipes state) -> r_id q <> r_id r) ->
  reducer (reducer state (ADD_INGREDIENT i)) (REMOVE_INGREDIENT (i_id i)) = state
  /\ reducer (reducer state (ADD_RECIPE r)) (REMOVE_RECIPE (r_id r)) = state.
Proof.
  intros Hi Hr. destruct state as [ings rs]. cbn [reducer ingredients customRecipes] in *.
  split; f_equal.
  - rewrite filter_app. cbn [filter]. rewrite String.eqb_refl. cbn [negb].
    rewrite app_nil_r. apply filter_all. intros j Hj.
    apply negb_true_iff, String.eqb_neq. now apply Hi.
  - rewrite filter_app. cbn [filter]. rewrite String.eqb_refl. cbn [negb].
    rewrite app_nil_r. apply filter_all. intros q Hq.
    apply negb_true_iff, String.eqb_neq. now apply Hr.
Qed.

Lemma reducer_add_remove_witness :
  reducer (reducer initialState (ADD_INGREDIENT {| i_id := "17"; i_name := "Gin" |}))
          (REMOVE_INGREDIENT "17") = initialState.
Proof.
  apply (reducer_add_remove initialState {| i_id := "17"; i_name := "Gin" |}
           {| r_id := "18"; r_name := "Gimlet"; r_ingredients := [];
              r_instructions := "Stir."; r_isCustom := true |});
    intros ? [].
Defined.

(** *** The recipe form *)

Lemma existsb_false_iff {A} (f : A -> bool) (l : list A) :
  existsb f l = false <-> forall x, In x l -> f x = false.
Proof.
  induction l as [| y l IH]; simpl.
  - split; [intros _ x [] | reflexivity].
  - rewrite orb_false_iff, IH. split.
    + intros [H1 H2] x [<- | Hx]; auto.
    + intros H. split; [apply H; now left | intros x Hx; apply H; now right].
Qed.

Lemma forallb_false_iff {A} (f : A -> bool) (l : list A) :
  forallb f l = false <-> exists x, In x l /\ f x = false.
Proof.
  induction l as [| y l IH]; simpl.
  - split; [discriminate | intros [x [[] _]]].
  - rewrite andb_false_iff, IH. split.
    + intros [H | [x [Hx Hf]]]; [exists y | exists x]; auto.
    + intros [x [[<- | Hx] Hf]]; [now left | right; now exists x].
Qed.

Lemma clean_rows (l : list RecipeIngredient) :
  Forall cleanRow
    (filter (fun ing => truthy (ri_name ing) && truthy (ri_quantity ing))
            (map trimmedRow l)).
Proof.
  apply Forall_forall. intros x Hx. apply filter_In in Hx.
  destruct Hx as [Hin Ht]. apply in_map_iff in Hin. destruct Hin as [y [<- _]].
  apply andb_true_iff in Ht. destruct Ht as [Hn Hq].
  apply AppFacts.truthy_iff in Hn, Hq. unfold cleanRow, trimmedRow in *.
  cbn [ri_name ri_quantity ri_unit] in *. rewrite !trim_idem. tauto.
Qed.

(** X8. [saveRecipe] of the local-storage client saves nothing exactly
    when the name or the instructions are empty or some row of the form has
    an empty name or quantity; its inner guard never stops a save.  What it
    saves is a custom recipe under the identifier [now], with the name and
    the instructions as typed (not trimmed) and with the trimmed rows whose
    trimmed name and quantity are not empty, so a form whose rows are all
    blank is saved as a recipe without ingredients. *)
Theorem saveRecipe_spec
    (name instructions : string) (ingredients : list RecipeIngredient) (now : string) :
  (saveRecipe name instructions ingredients now = None <->
   name = "" \/ instructions = ""
   \/ exists row, In row ingredients /\ (ri_name row = "" \/ ri_quantity row = ""))
  /\ (forall action,
        saveRecipe name instructions ingredients now = Some action ->
        action =
          ADD_RECIPE
            {| r_id := now; r_name := name;
               r_ingredients :=
                 filter (fun ing => truthy (ri_name ing) && truthy (ri_quantity ing))
                        (map trimmedRow ingredients);
               r_instructions := instructions; r_isCustom := true |}
        /\ Forall cleanRow
             (filter (fun ing => truthy (ri_name ing) && truthy (ri_quantity ing))
                     (map trimmedRow ingredients)))
  /\ (forall blanks,
        Forall (fun row => row = {| ri_name := " "; ri_quantity := " "; ri_unit := "" |})
               blanks ->
        name <> "" -> instructions <> "" ->
        saveRecipe name instructions blanks now =
          Some (ADD_RECIPE {| r_id := now; r_name := name; r_ingredients := [];
                              r_instructions := instructions; r_isCustom := true |})).
Proof.
  assert (Hcases :
    (truthy name && truthy instructions
     && forallb (fun i => truthy (ri_name i) && truthy (ri_quantity i)) ingredients = true
     /\ saveRecipe name instructions ingredients now =
          Some (ADD_RECIPE
                  {| r_id := now; r_name := name;
                     r_ingredients :=
                       filter (fun ing => truthy (ri_name ing) && truthy (ri_quantity ing))
                              (map trimmedRow ingredients);
                     r_instructions := instructions; r_isCustom := true |}))
    \/ (truthy name && truthy instructions
        && forallb (fun i => truthy (ri_name i) && truthy (ri_quantity i)) ingredients
        = false
        /\ saveRecipe name instructions ingredients now = None)).
  { unfold saveRecipe.
    destruct (truthy name && truthy instructions
              && forallb (fun i => truthy (ri_name i) && truthy (ri_quantity i))
                         ingredients) eqn:E; [left | right; now split].
    split; [reflexivity |].
    apply andb_true_iff in E. destruct E as [_ Hall].
    assert (Hv : filter (fun i => truthy (ri_name i) || truthy (ri_quantity i)
                                  || truthy (ri_unit i)) ingredients = ingredients).
    { apply filter_all. intros x Hx.
      apply (proj1 (forallb_forall _ _) Hall), andb_true_iff in Hx.
      destruct Hx as [-> _]. reflexivity. }
    cbv zeta. rewrite Hv.
    destruct ingredients as [| i0 rest]; [reflexivity |].
    cbn [List.length Nat.eqb andb]. reflexivity. }
  split; [| split].
  - destruct Hcases as [[Hc ->] | [Hc ->]].
    + split; [discriminate |]. intros H. exfalso.
      apply andb_true_iff in Hc. destruct Hc as [Hc Hall].
      apply andb_true_iff in Hc. destruct Hc as [Hn Hi].
      apply AppFacts.truthy_iff in Hn, Hi.
      destruct H as [H | [H | [row [Hin Hrow]]]]; [contradiction | contradiction |].
      apply (proj1 (forallb_forall _ _) Hall), andb_true_iff in Hin.
      destruct Hin as [H1 H2]. apply AppFacts.truthy_iff in H1, H2. tauto.
    + split; [intros _ | reflexivity].
      apply andb_false_iff in Hc. destruct Hc as [Hc | Hc].
      * apply andb_false_iff in Hc. unfold truthy in Hc.
        destruct Hc as [Hc | Hc]; apply negb_false_iff, String.eqb_eq in Hc; auto.
      * right. right. apply forallb_false_iff in Hc.
        destruct Hc as [row [Hin Hrow]]. exists row. split; [assumption |].
        apply andb_false_iff in Hrow. unfold truthy in Hrow.
        destruct Hrow as [H | H]; apply negb_false_iff, String.eqb_eq in H; auto.
  - intros action Ha. destruct Hcases as [[_ Hs] | [_ Hs]]; rewrite Hs in Ha.
    + injection Ha as <-. split; [reflexivity | apply clean_rows].
    + discriminate Ha.
  - intros blanks Hb Hn Hi. unfold saveRecipe.
    rewrite (proj2 (AppFacts.truthy_iff name) Hn),
            (proj2 (AppFacts.truthy_iff instructions) Hi).
    cbn [andb].
    assert (Hall : forallb (fun i => truthy (ri_name i) && truthy (ri_quantity i)) blanks
                   = true).
    { apply forallb_forall. intros x Hx.
      rewrite Forall_forall in Hb. now rewrite (Hb x Hx). }
    assert (Hv : filter (fun i => truthy (ri_name i) || truthy (ri_quantity i)
                                  || truthy (ri_unit i)) blanks = blanks).
    { apply filter_all. intros x Hx. rewrite Forall_forall in Hb.
      now rewrite (Hb x Hx). }
    rewrite Hall. cbv zeta. rewrite Hv.
    assert (Hnone : filter (fun ing => truthy (ri_name ing) && truthy (ri_quantity ing))
                      (map (fun ing => {| ri_name := trim (ri_name ing);
                                          ri_quantity := trim (ri_quantity ing);
                                          ri_unit := trim (ri_unit ing) |}) blanks) = []).
    { clear -Hb. induction Hb as [| x l Hx _ IH]; [reflexivity |].
      subst x. cbn [map filter]. exact IH. }
    rewrite Hnone.
    destruct blanks as [| b0 rest]; [reflexivity |].
    cbn [List.length Nat.eqb andb]. reflexivity.
Qed.

Lemma filterIndex_remove {A} (from k : nat) (l : list A) :
  filterIndex (fun i => negb (i =? from + k)%nat) from l
  = (firstn k l ++ skipn (S k) l)%list.
Proof.
  revert from k. induction l as [| x l IH]; intros from k; cbn [filterIndex].
  - now destruct k.
  - destruct k as [| k].
    + rewrite Nat.add_0_r, Nat.eqb_refl. cbn [negb firstn skipn app].
      clear IH. revert from.
      assert (G : forall m from, (from < m)%nat ->
                  filterIndex (fun i => negb (i =? from)%nat) m l = l).
      { induction l as [| y l IHl]; intros m from Hm; cbn [filterIndex];
          [reflexivity |].
        destruct (Nat.eqb_spec m from); [lia |]. cbn [negb].
        now rewrite IHl by lia. }
      intros from. apply G. lia.
    + destruct (Nat.eqb_spec from (from + S k)); [lia |]. cbn [negb firstn skipn app].
      f_equal. replace (from + S k)%nat with (S from + k)%nat by lia. apply IH.
Qed.

Lemma filterIndex_remove0 {A} (k : nat) (l : list A) :
  filterIndex (fun i => negb (i =? k)%nat) 0 l = (firstn k l ++ skipn (S k) l)%list.
Proof. exact (filterIndex_remove 0 k l). Qed.

(** X9. [removeIngredientField] never leaves the form without a row: it
    takes out the row at the index and keeps the others in order; when
    that was the only row it puts a blank row in its place; an index past
    the end changes nothing.  Removing the row that [addIngredientField]
    has just appended gives the form back. *)
Theorem removeIngredientField_spec (ingredients : list RecipeIngredient) (index : nat) :
  removeIngredientField ingredients index <> []
  /\ ((index < List.length ingredients)%nat -> (2 <= List.length ingredients)%nat ->
      removeIngredientField ingredients index
      = (firstn index ingredients ++ skipn (S index) ingredients)%list
      /\ List.length (removeIngredientField ingredients index)
         = (List.length ingredients - 1)%nat)
  /\ ((List.length ingredients <= 1)%nat -> index = 0%nat ->
      removeIngredientField ingredients index = [blankRow])
  /\ ((List.length ingredients <= index)%nat -> ingredients <> [] ->
      removeIngredientField ingredients index = ingredients)
  /\ (ingredients <> [] ->
      removeIngredientField (addIngredientField ingredients) (List.length ingredients)
      = ingredients).
Proof.
  unfold removeIngredientField.
  rewrite (filterIndex_remove0 index ingredients).
  split; [| split; [| split; [| split]]].
  - destruct (firstn index ingredients ++ skipn (S index) ingredients)%list;
      cbn; discriminate.
  - intros Hi Hl.
    assert (L : List.length (firstn index ingredients ++ skipn (S index) ingredients)
                = (List.length ingredients - 1)%nat).
    { rewrite length_app, length_firstn, length_skipn. lia. }
    destruct (firstn index ingredients ++ skipn (S index) ingredients)%list eqn:E.
    + cbn in L. lia.
    + cbn [List.length Nat.ltb Nat.leb]. split; [reflexivity | exact L].
  - intros Hl ->. destruct ingredients as [| x [| y l]]; cbn in *; try reflexivity. lia.
  - intros Hl Hne. rewrite firstn_all2 by lia. rewrite skipn_all2 by lia.
    rewrite app_nil_r. destruct ingredients; [contradiction | reflexivity].
  - intros Hne. unfold addIngredientField.
    rewrite (filterIndex_remove0 (List.length ingredients)).
    rewrite firstn_app, Nat.sub_diag, firstn_all. cbn [firstn].
    rewrite skipn_all2 by (rewrite length_app; cbn; lia).
    rewrite !app_nil_r. destruct ingredients; [contradiction | reflexivity].
Qed.

Lemma removeIngredientField_spec_witness :
  removeIngredientField
    [ {| ri_name := "rum"; ri_quantity := "2"; ri_unit := "oz" |};
      {| ri_name := "mint"; ri_quantity := "6"; ri_unit := "leaves" |};
      blankRow ] 1
  = [ {| ri_name := "rum"; ri_quantity := "2"; ri_unit := "oz" |}; blankRow ].
Proof.
  refine (proj1 (proj1 (proj2 (removeIngredientField_spec _ 1)) _ _));
    cbn; lia.
Defined.

End ClientFacts.

(* ------------------------------------------------------------------ *)
(** ** The store as a whole: the ingredient routes and the invariants *)

Module StoreFacts.
Import Server ServerSpec StoreSpec JsFacts StringFacts.

(** *** [POST /api/ingredients] under storage failures *)

(** Every way a run of [addIngredient] can end. *)
Lemma addIngredient_run (fails : nat -> bool) (name : option string) (pg : Pg) :
  exists r pg',
    addIngredient fails name pg = (Returned r, pg')
    /\ ((exists n,
           name = Some n /\ trim n <> ""
           /\ (forall row, In row (ingredients (committed pg)) ->
                           toLowerCase (ing_name row) <> toLowerCase (trim n))
           /\ r = {| status := 201;
                     body := JIngredient {| ing_id := ingredients_id_seq (seqs pg);
                                            ing_name := trim n |} |}
           /\ committed pg' =
              with_ingredient {| ing_id := ingredients_id_seq (seqs pg);
                                 ing_name := trim n |} (committed pg))
        \/ (In (status r) [400; 409; 500] /\ committed pg' = committed pg))
    /\ seqs_le (seqs pg) (seqs pg').
Proof.
  assert (Hrefl : seqs_le (seqs pg) (seqs pg)) by (repeat split; lia).
  unfold addIngredient. destruct name as [n |].
  2: { eexists _, _. split; [reflexivity |]. split; [right | exact Hrefl].
       split; [simpl; tauto | reflexivity]. }
  destruct (negb (truthy n) || (trim n =? "")) eqn:Ev.
  { eexists _, _. split; [reflexivity |]. split; [right | exact Hrefl].
    split; [simpl; tauto | reflexivity]. }
  apply orb_false_elim in Ev. destruct Ev as [_ Ev]. apply String.eqb_neq in Ev.
  unfold try_catch, bind at 1, pool_query at 1, select_ingredient_ids_by_lower_name.
  destruct (fails (clock pg)) eqn:F0.
  { eexists _, _. split; [reflexivity |]. split; [right | exact Hrefl].
    split; [simpl; tauto | reflexivity]. }
  cbn [clock committed seqs tx].
  destruct (filter (fun r => toLowerCase (ing_name r) =? toLowerCase (trim n))
              (ingredients (committed pg))) as [| x l] eqn:Ef.
  2: { eexists _, _. split; [reflexivity |]. split; [right | exact Hrefl].
       split; [simpl; tauto | reflexivity]. }
  cbn [map List.length Nat.ltb Nat.leb].
  unfold bind at 1, pool_query at 1. cbn [clock committed seqs tx].
  destruct (fails (S (clock pg))) eqn:F1.
  { eexists _, _. split; [reflexivity |]. split; [right | exact Hrefl].
    split; [simpl; tauto | reflexivity]. }
  assert (Hnone : forall row, In row (ingredients (committed pg)) ->
                  toLowerCase (ing_name row) <> toLowerCase (trim n)).
  { intros row Hrow. apply String.eqb_neq.
    now apply (proj1 (ServerFacts.filter_nil_iff _ _) Ef). }
  unfold insert_ingredient.
  assert (Eu : existsb (fun r => ing_name r =? trim n) (ingredients (committed pg)) = false).
  { destruct (existsb _ _) eqn:E; [| reflexivity].
    apply existsb_exists in E. destruct E as [x [Hx He]].
    apply String.eqb_eq in He. exfalso. apply (Hnone x Hx). now rewrite He. }
  rewrite Eu. eexists _, _. split; [reflexivity |]. split.
  - left. exists n. repeat split; try assumption.
  - unfold seqs_le.
    cbn [seqs ingredients_id_seq recipes_id_seq recipe_ingredients_id_seq].
    repeat split; lia.
Qed.


(** X10. [addIngredient] is all or nothing under any storage failure, and
    it always answers: either 201 with the new row, which is then the one
    row added to [ingredients], or 400, 409 or 500 with every table as it
    was.  The other two tables are never touched. *)
Theorem addIngredient_atomic (fails : nat -> bool) (name : option string) (db : Db) :
  (exists n,
      name = Some n
      /\ fst (serve (addIngredient fails name) db) =
         Some {| status := 201;
                 body := JIngredient {| ing_id := ingredients_id_seq (sequences db);
                                        ing_name := trim n |} |}
      /\ tables (snd (serve (addIngredient fails name) db)) =
         with_ingredient {| ing_id := ingredients_id_seq (sequences db);
                            ing_name := trim n |} (tables db))
  \/ ((exists r, fst (serve (addIngredient fails name) db) = Some r
                 /\ In (status r) [400; 409; 500])
      /\ tables (snd (serve (addIngredient fails name) db)) = tables db).
Proof.
  destruct (addIngredient_run fails name
              {| committed := tables db; tx := None; seqs := sequences db; clock := 0 |})
    as [r [pg' [E [H _]]]].
  unfold serve. rewrite E. cbn [fst snd tables committed seqs] in *.
  destruct H as [[n [-> [_ [_ [-> Hc]]]]] | [Hs Hc]].
  - left. exists n. repeat split. exact Hc.
  - right. split; [now exists r | exact Hc].
Qed.

(** *** [GET /api/ingredients] and [DELETE /api/ingredients/:id] *)

(** X11. [listIngredients] never changes the store.  When the store
    answers, it returns, with 200, every row of [ingredients] once, ordered
    by name (sorted, when the collation is a consistent comparator); when
    the store fails it answers 500. *)
Theorem listIngredients_spec
    (fails : nat -> bool) (collate : string -> string -> Z) (db : Db) :
  snd (serve (listIngredients fails collate) db) = db
  /\ (fails 0%nat = true ->
      fst (serve (listIngredients fails collate) db) =
        Some {| ingredients_status := 500;
                ingredients_body := JIngredientsError "Internal server error" |})
  /\ (fails 0%nat = false ->
      exists rows,
        fst (serve (listIngredients fails collate) db) =
          Some {| ingredients_status := 200; ingredients_body := JIngredients rows |}
        /\ Permutation rows (ingredients (tables db))
        /\ ((forall a b, (0 < collate a b)%Z -> (collate b a <= 0)%Z) ->
            (forall a b c, (collate a b <= 0)%Z -> (collate b c <= 0)%Z ->
                           (collate a c <= 0)%Z) ->
            StronglySorted (fun a b => (collate (ing_name a) (ing_name b) <= 0)%Z) rows)).
Proof.
  unfold serve, listIngredients, try_catch, bind, pool_query, select_ingredients,
    send_ingredients, ret.
  cbn [clock committed seqs tx].
  destruct (fails 0%nat) eqn:F; cbn [fst snd tick committed seqs].
  - split; [apply ServerFacts.db_eta | split; [reflexivity | discriminate]].
  - split; [apply ServerFacts.db_eta | split; [discriminate | intros _]].
    eexists. split; [reflexivity |]. split; [apply sort_Permutation |].
    intros Hflip Htrans. apply sort_StronglySorted.
    + intros a b. apply Hflip.
    + intros a b c. apply Htrans.
Qed.

(** Every way a run of [deleteIngredient] on a well-formed identifier can
    end. *)
Lemma deleteIngredient_run
    (fails : nat -> bool) (sqlstate : nat -> string) (id : string) (pg : Pg) :
  test_digits id = true ->
  exists r pg',
    deleteIngredient fails sqlstate id pg = (Returned r, pg')
    /\ seqs pg' = seqs pg
    /\ (if fails (clock pg) then
          committed pg' = committed pg
          /\ r = {| ingredients_status :=
                      if sqlstate (clock pg) =? "23503" then 409 else 500;
                    ingredients_body :=
                      JIngredientsError
                        (if sqlstate (clock pg) =? "23503"
                         then "Cannot delete ingredient as it is used in recipes."
                         else "Internal server error") |}
        else
          match find (fun r => (ing_id r =? int_of_param id)%Z)
                     (ingredients (committed pg)) with
          | None =>
              committed pg' = committed pg
              /\ r = {| ingredients_status := 404;
                        ingredients_body := JIngredientsError "Ingredient not found." |}
          | Some row =>
              committed pg' = without_ingredient (int_of_param id) (committed pg)
              /\ r = {| ingredients_status := 200;
                        ingredients_body :=
                          JDeletedIngredient "Ingredient deleted successfully" row |}
          end).
Proof.
  intros Hid. unfold deleteIngredient. rewrite Hid. cbn [negb].
  unfold try_catch, bind, pool_query, delete_ingredient.
  destruct (fails (clock pg)) eqn:F.
  - cbn [tick clock pred]. destruct (sqlstate (clock pg) =? "23503");
      eexists _, _; (split; [reflexivity |]); split; try reflexivity; split; reflexivity.
  - cbn [clock committed seqs tx].
    assert (Hfind := ServerFacts.filter_find (fun r => (ing_id r =? int_of_param id)%Z)
                       (ingredients (committed pg))).
    destruct (filter _ (ingredients (committed pg))) as [| row rest] eqn:Ef;
      rewrite Hfind; eexists _, _; (split; [reflexivity |]);
      split; try reflexivity; split; try reflexivity.
    cbn [committed]. rewrite ServerFacts.filter_nil_iff in Ef.
    rewrite ClientFacts.filter_all; [apply ServerFacts.tables_eta |].
    intros x Hx. now rewrite (Ef x Hx).
Qed.

(** X12. For a well-formed identifier, [deleteIngredient] answers 404,
    leaving the store as it was, when no ingredient has the identifier;
    otherwise it answers 200 with the row and removes it, so that no
    ingredient has the identifier afterwards and the recipes are as they
    were.  When the store rejects the request the answer is 409 for the
    error code 23503 and 500 otherwise, and nothing changes.  An
    identifier that is not all digits is answered 400. *)
Theorem deleteIngredient_spec (sqlstate : nat -> string) (id : string) (db : Db) :
  test_digits id = true ->
  ((forall row, In row (ingredients (tables db)) -> ing_id row <> int_of_param id) ->
   serve (deleteIngredient reliable sqlstate id) db =
     (Some {| ingredients_status := 404;
              ingredients_body := JIngredientsError "Ingredient not found." |}, db))
  /\ (forall row,
        find (fun r => (ing_id r =? int_of_param id)%Z) (ingredients (tables db))
          = Some row ->
        serve (deleteIngredient reliable sqlstate id) db =
          (Some {| ingredients_status := 200;
                   ingredients_body :=
                     JDeletedIngredient "Ingredient deleted successfully" row |},
           {| tables := without_ingredient (int_of_param id) (tables db);
              sequences := sequences db |})
        /\ (forall r, In r (ingredients (tables (snd (serve
                            (deleteIngredient reliable sqlstate id) db)))) ->
                      ing_id r <> int_of_param id))
  /\ (forall fails, fails 0%nat = true ->
        serve (deleteIngredient fails sqlstate id) db =
          (Some {| ingredients_status :=
                     if sqlstate 0%nat =? "23503" then 409 else 500;
                   ingredients_body :=
                     JIngredientsError
                       (if sqlstate 0%nat =? "23503"
                        then "Cannot delete ingredient as it is used in recipes."
                        else "Internal server error") |}, db))
  /\ (forall fails bad, test_digits bad = false ->
        serve (deleteIngredient fails sqlstate bad) db =
          (Some {| ingredients_status := 400;
                   ingredients_body :=
                     JIngredientsError "Invalid ingredient ID format." |}, db)).
Proof.
  intros Hid.
  assert (Hrun : forall fails,
    exists r pg',
      deleteIngredient fails sqlstate id
        {| committed := tables db; tx := None; seqs := sequences db; clock := 0 |}
      = (Returned r, pg') /\ _) by (intros fails; now apply deleteIngredient_run).
  split; [| split; [| split]].
  - intros Hnone. destruct (Hrun reliable) as [r [pg' [E [Hs H]]]].
    cbn [clock committed reliable] in H.
    assert (Hf : find (fun r => (ing_id r =? int_of_param id)%Z) (ingredients (tables db))
                 = None).
    { destruct (find _ _) as [row |] eqn:Efind; [| reflexivity].
      apply find_some in Efind. destruct Efind as [Hin He].
      apply Z.eqb_eq in He. now apply Hnone in Hin. }
    rewrite Hf in H. destruct H as [Hc ->].
    unfold serve. rewrite E, Hc, Hs. cbn [seqs]. now rewrite ServerFacts.db_eta.
  - intros row Hf. destruct (Hrun reliable) as [r [pg' [E [Hs H]]]].
    cbn [clock committed reliable] in H. rewrite Hf in H. destruct H as [Hc ->].
    assert (Es : serve (deleteIngredient reliable sqlstate id) db =
                 (Some {| ingredients_status := 200;
                          ingredients_body :=
                            JDeletedIngredient "Ingredient deleted successfully" row |},
                  {| tables := without_ingredient (int_of_param id) (tables db);
                     sequences := sequences db |})).
    { unfold serve. rewrite E, Hc, Hs. reflexivity. }
    split; [exact Es |]. rewrite Es. cbn [snd tables without_ingredient ingredients].
    intros r Hr. apply filter_In in Hr. destruct Hr as [_ Hr].
    now apply negb_true_iff, Z.eqb_neq in Hr.
  - intros fails F. destruct (Hrun fails) as [r [pg' [E [Hs H]]]].
    cbn [clock committed] in H. rewrite F in H. destruct H as [Hc ->].
    unfold serve. rewrite E, Hc, Hs. cbn [seqs]. now rewrite ServerFacts.db_eta.
  - intros fails bad Hbad. unfold serve, deleteIngredient. rewrite Hbad. cbn.
    now rewrite ServerFacts.db_eta.
Qed.

Lemma deleteIngredient_spec_witness :
  test_digits "1" = true
  /\ serve (deleteIngredient reliable (fun _ => "") "1") cellar =
     (Some {| ingredients_status := 200;
              ingredients_body :=
                JDeletedIngredient "Ingredient deleted successfully"
                  {| ing_id := 1; ing_name := "Gin" |} |},
      {| tables := without_ingredient 1 (tables cellar);
         sequences := sequences cellar |}).
Proof.
  split; [reflexivity |].
  destruct (deleteIngredient_spec (fun _ => "") "1" cellar eq_refl) as [_ [H _]].
  exact (proj1 (H _ eq_refl)).
Defined.




(** *** Routes that only read *)

Lemma attach_ingredients_any (fails : nat -> bool) (rows : list RecipeRow) (pg : Pg) :
  exists o pg',
    map_of rows
      (fun recipe =>
         bind (pool_query fails (select_recipe_ingredients (rec_id recipe)))
           (fun ingredientsResult =>
              ret {| json_recipe := recipe;
                     json_ingredients :=
                       map (fun r => {| json_name := rin_name r;
                                        json_quantity := rin_quantity r;
                                        json_unit := rin_unit r |})
                           ingredientsResult |})) pg = (o, pg')
    /\ committed pg' = committed pg /\ seqs pg' = seqs pg.
Proof.
  revert pg. induction rows as [| r rows IH]; intros pg.
  - exists (Returned []), pg. repeat split.
  - cbn [map_of]. unfold bind at 1 2.
    unfold pool_query at 1, select_recipe_ingredients at 1.
    destruct (fails (clock pg)).
    + exists Thrown, (tick pg). repeat split.
    + cbn [clock committed seqs tx ret].
      destruct (IH {| committed := committed pg; tx := tx pg; seqs := seqs pg;
                      clock := S (clock pg) |}) as [o [pg' [E [Hc Hs]]]].
      unfold bind at 1. rewrite E. destruct o; eexists _, pg'; repeat split; assumption.
Qed.

(** X14. [listRecipes] never changes the store, wherever the store fails,
    and it always answers, with 200 or with 500. *)
Theorem listRecipes_reads_only
    (fails : nat -> bool) (collate : string -> string -> Z)
    (query : list (string * string)) (db : Db) :
  snd (serve (listRecipes fails collate query) db) = db
  /\ exists r, fst (serve (listRecipes fails collate query) db) = Some r
               /\ (status r = 200%nat
                   \/ r = {| status := 500; body := JError "Internal server error" |}).
Proof.
  assert (H : exists r,
    serve (listRecipes fails collate query) db = (Some r, db)
    /\ (status r = 200%nat
        \/ r = {| status := 500; body := JError "Internal server error" |})).
  { unfold serve, listRecipes, try_catch, json.
    unfold bind at 1. unfold pool_query at 1, select_custom_recipes at 1.
    cbn [clock committed seqs tx].
    destruct (fails 0%nat).
    { cbn. rewrite ServerFacts.db_eta. eexists. split; [reflexivity | now right]. }
    unfold bind at 1.
    match goal with
    | |- context [map_of ?rows _ ?pg] =>
        destruct (attach_ingredients_any fails rows pg) as [o [pg' [E [Hc Hs]]]]
    end.
    rewrite E. cbn [committed seqs] in Hc, Hs.
    destruct o; cbn [ret fst snd]; rewrite Hc, Hs, ServerFacts.db_eta;
      eexists; (split; [reflexivity |]); [now left | now right]. }
  destruct H as [r [E Hr]]. rewrite E. split; [reflexivity |]. now exists r.
Qed.

(** *** Inventory and recipes are kept apart *)

(** X15. The ingredient routes never touch the recipes, and the recipe
    routes never touch the ingredients, whatever the request and wherever
    the store fails. *)
Theorem inventory_and_recipes_apart
    (fails : nat -> bool) (sqlstate : nat -> string) (db : Db) :
  (forall name,
     recipes (tables (snd (serve (addIngredient fails name) db))) = recipes (tables db)
     /\ recipe_ingredients (tables (snd (serve (addIngredient fails name) db)))
        = recipe_ingredients (tables db))
  /\ (forall id,
        recipes (tables (snd (serve (deleteIngredient fails sqlstate id) db)))
        = recipes (tables db)
        /\ recipe_ingredients (tables (snd (serve (deleteIngredient fails sqlstate id) db)))
           = recipe_ingredients (tables db))
  /\ (forall req,
        ingredients (tables (snd (serve (createRecipe fails req) db)))
        = ingredients (tables db))
  /\ (forall id,
        ingredients (tables (snd (serve (deleteRecipe fails id) db)))
        = ingredients (tables db)).
Proof.
  split; [| split; [| split]].
  - intros name.
    destruct (addIngredient_run fails name
                {| committed := tables db; tx := None; seqs := sequences db; clock := 0 |})
      as [r [pg' [E [H _]]]].
    unfold serve. rewrite E. cbn [fst snd tables committed seqs] in *.
    destruct H as [[n [_ [_ [_ [_ ->]]]]] | [_ ->]]; split; reflexivity.
  - intros id. destruct (test_digits id) eqn:Hid.
    + destruct (deleteIngredient_run fails sqlstate id
                  {| committed := tables db; tx := None; seqs := sequences db;
                     clock := 0 |} Hid) as [r [pg' [E [_ H]]]].
      unfold serve. rewrite E. cbn [fst snd tables committed clock] in *.
      destruct (fails 0%nat); [destruct H as [-> _]; split; reflexivity |].
      destruct (find _ _); destruct H as [-> _]; split; reflexivity.
    + unfold serve, deleteIngredient. rewrite Hid. cbn. split; reflexivity.
  - intros req. destruct (rejected req) eqn:Er.
    + now rewrite (proj2 (ServerFacts.rejected_answer fails req db Er)).
    + destruct (ServerFacts.createRecipe_run fails req
                  {| committed := tables db; tx := None; seqs := sequences db;
                     clock := 0 |} Er) as [o [pg' [E [H _]]]].
      unfold serve. rewrite E. cbn [fst snd tables committed seqs] in *.
      destruct H as [[_ ->] | [_ ->]]; reflexivity.
  - intros id. destruct (test_digits id) eqn:Hid.
    + destruct (ServerFacts.deleteRecipe_run fails id
                  {| committed := tables db; tx := None; seqs := sequences db;
                     clock := 0 |} Hid) as [o [pg' [E [H _]]]].
      unfold serve. rewrite E. cbn [fst snd tables committed] in *.
      destruct H as [[row [_ [_ [_ ->]]]] | [_ ->]]; reflexivity.
    + unfold serve, deleteRecipe. rewrite Hid. cbn. reflexivity.
Qed.

(** *** Referential integrity *)

Lemma with_recipe_references_ok
    (newRecipe : RecipeRow) (rows : list RecipeIngredientRow) (t : Tables) :
  references_ok t ->
  Forall (fun r => rin_recipe_id r = rec_id newRecipe) rows ->
  references_ok (with_recipe newRecipe rows t).
Proof.
  unfold references_ok, with_recipe. cbn [recipes recipe_ingredients].
  intros Hok Hrows. apply Forall_app. split.
  - eapply Forall_impl; [| exact Hok]. cbv beta.
    intros i [r [Hr He]]. exists r. split; [apply in_or_app; now left | exact He].
  - eapply Forall_impl; [| exact Hrows]. cbv beta.
    intros i Hi. exists newRecipe. split; [apply in_or_app; right; now left | now symmetry].
Qed.

Lemma without_recipe_references_ok (rid : Z) (t : Tables) :
  references_ok t -> references_ok (without_recipe rid t).
Proof.
  unfold references_ok, without_recipe. cbn [recipes recipe_ingredients].
  rewrite !Forall_forall. intros Hok i Hi. apply filter_In in Hi.
  destruct Hi as [Hi Hne]. destruct (Hok i Hi) as [r [Hr He]].
  exists r. split; [| exact He]. apply filter_In. split; [assumption |].
  now rewrite He.
Qed.

(** X16. No ingredient row is ever left without its recipe: if every row
    of [recipe_ingredients] belongs to a recipe of [recipes], the same
    holds after [createRecipe] and after [deleteRecipe], whatever the
    request and wherever the store fails. *)
Theorem no_orphaned_ingredient_rows
    (fails : nat -> bool) (req : RecipeInput) (id : string) (db : Db) :
  references_ok (tables db) ->
  references_ok (tables (snd (serve (createRecipe fails req) db)))
  /\ references_ok (tables (snd (serve (deleteRecipe fails id) db))).
Proof.
  intros Hok. split.
  - destruct (rejected req) eqn:Er.
    + now rewrite (proj2 (ServerFacts.rejected_answer fails req db Er)).
    + destruct (ServerFacts.createRecipe_run fails req
                  {| committed := tables db; tx := None; seqs := sequences db;
                     clock := 0 |} Er) as [o [pg' [E [H _]]]].
      unfold serve. rewrite E. cbn [fst snd tables committed seqs] in *.
      destruct H as [[_ ->] | [_ ->]]; [| assumption].
      apply with_recipe_references_ok; [assumption | apply ServerFacts.rows_of_recipe].
  - destruct (test_digits id) eqn:Hid.
    + destruct (ServerFacts.deleteRecipe_run fails id
                  {| committed := tables db; tx := None; seqs := sequences db;
                     clock := 0 |} Hid) as [o [pg' [E [H _]]]].
      unfold serve. rewrite E. cbn [fst snd tables committed] in *.
      destruct H as [[row [_ [_ [_ ->]]]] | [_ ->]]; [| assumption].
      now apply without_recipe_references_ok.
    + unfold serve, deleteRecipe. rewrite Hid. cbn. assumption.
Qed.

Lemma no_orphaned_ingredient_rows_witness :
  references_ok (tables (snd (serve (deleteRecipe reliable "2") cellar))).
Proof.
  refine (proj2 (no_orphaned_ingredient_rows reliable
                   {| body_name := None; body_instructions := None;
                      body_ingredients := None |} "2" cellar _)).
  repeat constructor.
  - eexists. split; [left; reflexivity | reflexivity].
  - eexists. split; [right; left; reflexivity | reflexivity].
Defined.

(** *** Round trips *)

Lemma listRecipes_reliable
    (collate : string -> string -> Z) (query : list (string * string)) (db : Db) :
  serve (listRecipes reliable collate query) db =
    (Some {| status := 200;
             body := JRecipes
                       (map (nested (tables db))
                            (JsArray.sort (fun a b => collate (rec_name a) (rec_name b))
                                          (filter rec_is_custom (recipes (tables db))))) |},
     db).
Proof.
  unfold serve, listRecipes, try_catch, json.
  unfold bind at 1. unfold pool_query at 1, select_custom_recipes at 1, reliable at 1.
  cbn [clock committed seqs tx].
  unfold bind at 1.
  match goal with
  | |- context [map_of ?rows _ ?pg] =>
      destruct (ServerFacts.attach_ingredients rows pg) as [pg' [E [Hc Hs]]]
  end.
  rewrite E. cbn [ret committed seqs] in *.
  now rewrite Hc, Hs, ServerFacts.db_eta.
Qed.

Lemma createRecipe_reliable (req : RecipeInput) (db : Db) :
  rejected req = false ->
  fst (serve (createRecipe reliable req) db) =
    Some {| status := 201;
            body := JRecipe
                      {| json_recipe := recipe_row (recipes_id_seq (sequences db)) req;
                         json_ingredients := map trimmed (ingredients_in req) |} |}
  /\ tables (snd (serve (createRecipe reliable req) db)) =
     with_recipe (recipe_row (recipes_id_seq (sequences db)) req)
       (rows_of (recipes_id_seq (sequences db))
                (recipe_ingredients_id_seq (sequences db))
                (map trimmed (ingredients_in req)))
       (tables db).
Proof.
  intros Er.
  destruct (ServerFacts.createRecipe_run reliable req
              {| committed := tables db; tx := None; seqs := sequences db; clock := 0 |}
              Er) as [o [pg' [E [Ho Hr]]]].
  specialize (Hr (fun _ => eq_refl)). cbn [committed seqs] in *. subst o.
  unfold serve. rewrite E. cbn [fst snd tables].
  split; [reflexivity |].
  destruct Ho as [[_ Hc] | [[Ho | Ho] _]]; [exact Hc | discriminate Ho ..].
Qed.

Lemma filter_rows_of (rid next : Z) (ings : list IngredientJson) :
  filter (fun r => (rin_recipe_id r =? rid)%Z) (rows_of rid next ings)
  = rows_of rid next ings.
Proof.
  apply ClientFacts.filter_all. intros x Hx.
  apply Z.eqb_eq. revert x Hx. apply Forall_forall, ServerFacts.rows_of_recipe.
Qed.

Lemma filter_rows_of_not (rid next : Z) (ings : list IngredientJson) :
  filter (fun r => negb (rin_recipe_id r =? rid)%Z) (rows_of rid next ings) = [].
Proof.
  apply ServerFacts.filter_nil_iff. intros x Hx.
  apply negb_false_iff, Z.eqb_eq. revert x Hx.
  apply Forall_forall, ServerFacts.rows_of_recipe.
Qed.

(** X17. A recipe that was created is listed as it was returned: on a
    store that does not fail, and whose [recipe_ingredients] has no row
    under the identifier the new recipe gets, [listRecipes] after an
    accepted [createRecipe] returns, among the recipes, the very recipe of
    the 201 answer, ingredients included. *)
Theorem created_recipe_is_listed
    (collate : string -> string -> Z) (query : list (string * string))
    (req : RecipeInput) (db : Db) :
  rejected req = false ->
  (forall i, In i (recipe_ingredients (tables db)) ->
             rin_recipe_id i <> recipes_id_seq (sequences db)) ->
  exists created listed,
    fst (serve (createRecipe reliable req) db) =
      Some {| status := 201; body := JRecipe created |}
    /\ fst (serve (listRecipes reliable collate query)
              (snd (serve (createRecipe reliable req) db))) =
       Some {| status := 200; body := JRecipes listed |}
    /\ In created listed.
Proof.
  intros Er Hfresh. destruct (createRecipe_reliable req db Er) as [Hf Ht].
  eexists _, _. split; [exact Hf |].
  rewrite listRecipes_reliable. cbn [fst]. split; [reflexivity |].
  rewrite Ht. apply in_map_iff.
  exists (recipe_row (recipes_id_seq (sequences db)) req). split.
  - unfold nested, ingredients_of, with_recipe.
    cbn [recipe_ingredients recipe_row rec_id]. f_equal.
    rewrite filter_app, filter_rows_of.
    assert (E : filter (fun r => (rin_recipe_id r =? recipes_id_seq (sequences db))%Z)
                  (recipe_ingredients (tables db)) = []).
    { apply ServerFacts.filter_nil_iff. intros x Hx. apply Z.eqb_neq. now apply Hfresh. }
    rewrite E. cbn [app]. apply ServerFacts.rows_of_shown.
  - apply (Permutation_in _ (Permutation_sym (sort_Permutation _ _))).
    apply filter_In. split; [| reflexivity].
    cbn [with_recipe recipes]. apply in_or_app. right. now left.
Qed.

Lemma created_recipe_is_listed_witness :
  exists created listed,
    fst (serve (createRecipe reliable
                  {| body_name := Some "Mojito";
                     body_instructions := Some "Muddle the mint.";
                     body_ingredients :=
                       Some [ {| in_name := Some "rum"; in_quantity := Some "2";
                                 in_unit := None |} ] |}) cellar) =
      Some {| status := 201; body := JRecipe created |}
    /\ fst (serve (listRecipes reliable ordinalCompare [])
              (snd (serve (createRecipe reliable
                             {| body_name := Some "Mojito";
                                body_instructions := Some "Muddle the mint.";
                                body_ingredients :=
                                  Some [ {| in_name := Some "rum";
                                            in_quantity := Some "2";
                                            in_unit := None |} ] |}) cellar))) =
       Some {| status := 200; body := JRecipes listed |}
    /\ In created listed.
Proof.
  apply created_recipe_is_listed; [reflexivity |].
  intros i [<- | [<- | []]]; discriminate.
Defined.

Lemma without_with_recipe (newRecipe : RecipeRow) (ings : list IngredientJson)
    (next : Z) (t : Tables) :
  (forall r, In r (recipes t) -> rec_id r <> rec_id newRecipe) ->
  (forall i, In i (recipe_ingredients t) -> rin_recipe_id i <> rec_id newRecipe) ->
  without_recipe (rec_id newRecipe)
    (with_recipe newRecipe (rows_of (rec_id newRecipe) next ings) t) = t.
Proof.
  intros Hr Hi. unfold without_recipe, with_recipe.
  cbn [ingredients recipes recipe_ingredients].
  rewrite !filter_app, filter_rows_of_not. cbn [filter].
  rewrite Z.eqb_refl. cbn [negb]. rewrite !app_nil_r.
  rewrite !ClientFacts.filter_all; [apply ServerFacts.tables_eta | |].
  - intros x Hx. apply negb_true_iff, Z.eqb_neq. now apply Hi.
  - intros x Hx. apply negb_true_iff, Z.eqb_neq. now apply Hr.
Qed.

(** X18. Deleting a recipe that was just created gives the tables back:
    on a store that does not fail and that holds nothing yet under the
    identifier the new recipe gets, an accepted [createRecipe] followed by
    [deleteRecipe] of that identifier answers 200 and leaves the three
    tables as they were before the creation. *)
Theorem create_then_delete_recipe (req : RecipeInput) (id : string) (db : Db) :
  rejected req = false ->
  test_digits id = true ->
  int_of_param id = recipes_id_seq (sequences db) ->
  (forall r, In r (recipes (tables db)) -> rec_id r <> recipes_id_seq (sequences db)) ->
  (forall i, In i (recipe_ingredients (tables db)) ->
             rin_recipe_id i <> recipes_id_seq (sequences db)) ->
  status_of (fst (serve (deleteRecipe reliable id)
                    (snd (serve (createRecipe reliable req) db)))) = Some 200%nat
  /\ tables (snd (serve (deleteRecipe reliable id)
                    (snd (serve (createRecipe reliable req) db)))) = tables db.
Proof.
  intros Er Hid Hn Hr Hi. destruct (createRecipe_reliable req db Er) as [_ Ht].
  destruct (ServerFacts.deleteRecipe_run reliable id
              {| committed := tables (snd (serve (createRecipe reliable req) db));
                 tx := None;
                 seqs := sequences (snd (serve (createRecipe reliable req) db));
                 clock := 0 |} Hid) as [o [pg' [E [Ho Hrel]]]].
  specialize (Hrel (fun _ => eq_refl)). cbn [committed] in *.
  assert (Hfind : find (fun r => (rec_id r =? int_of_param id)%Z)
                    (recipes (tables (snd (serve (createRecipe reliable req) db))))
                  = Some (recipe_row (recipes_id_seq (sequences db)) req)).
  { rewrite Ht, Hn. cbn [with_recipe recipes].
    induction (recipes (tables db)) as [| x l IH]; cbn [app find].
    - cbn [recipe_row rec_id]. now rewrite Z.eqb_refl.
    - destruct (Z.eqb_spec (rec_id x) (recipes_id_seq (sequences db))) as [e | _].
      + exfalso. apply (Hr x); [now left | exact e].
      + apply IH. intros r Hin. apply Hr. now right. }
  rewrite Hfind in Hrel. cbn [recipe_row rec_is_custom] in Hrel. subst o.
  unfold serve at 1 3. rewrite E. cbn [fst snd tables status_of option_map status].
  split; [reflexivity |].
  destruct Ho as [[row [_ [_ [_ Hc]]]] | [Href _]].
  - rewrite Hc, Ht, Hn.
    apply (without_with_recipe (recipe_row (recipes_id_seq (sequences db)) req));
      assumption.
  - exfalso. destruct Href as [Href | [r [Href Hin]]]; [discriminate Href |].
    injection Href as <-. cbn in Hin. intuition discriminate.
Qed.

Lemma create_then_delete_recipe_witness :
  tables (snd (serve (deleteRecipe reliable "3")
                 (snd (serve (createRecipe reliable
                                {| body_name := Some "Mojito";
                                   body_instructions := Some "Muddle the mint.";
                                   body_ingredients :=
                                     Some [ {| in_name := Some "rum";
                                               in_quantity := Some "2";
                                               in_unit := None |} ] |}) cellar))))
  = tables cellar.
Proof.
  apply create_then_delete_recipe; try reflexivity.
  - intros r [<- | [<- | []]]; discriminate.
  - intros i [<- | [<- | []]]; discriminate.
Defined.

Lemma find_app_last {A} (f : A -> bool) (l : list A) (y : A) :
  (forall x, In x l -> f x = false) -> f y = true -> find f (l ++ [y]) = Some y.
Proof.
  intros Hl Hy. induction l as [| x l IH]; cbn [app find].
  - now rewrite Hy.
  - rewrite (Hl x (or_introl eq_refl)). apply IH. intros z Hz. apply Hl. now right.
Qed.

(** [deleteIngredient] of an identifier the table holds, on a store that
    does not fail. *)
Lemma deleteIngredient_found
    (sqlstate : nat -> string) (id : string) (db : Db) (row : IngredientRow) :
  test_digits id = true ->
  find (fun r => (ing_id r =? int_of_param id)%Z) (ingredients (tables db)) = Some row ->
  serve (deleteIngredient reliable sqlstate id) db =
    (Some {| ingredients_status := 200;
             ingredients_body :=
               JDeletedIngredient "Ingredient deleted successfully" row |},
     {| tables := without_ingredient (int_of_param id) (tables db);
        sequences := sequences db |}).
Proof.
  intros Hid Hf.
  destruct (deleteIngredient_run reliable sqlstate id
              {| committed := tables db; tx := None; seqs := sequences db; clock := 0 |}
              Hid) as [r [pg' [E [Hs H]]]].
  cbn [clock committed reliable] in H. rewrite Hf in H. destruct H as [Hc ->].
  unfold serve. rewrite E, Hc, Hs. reflexivity.
Qed.

(** X19. Deleting an ingredient that was just added gives the table
    back: on a store that does not fail and that holds no ingredient under
    the next identifier, [addIngredient] of a new name followed by
    [deleteIngredient] of the identifier it was given answers 200 with that
    ingredient and leaves the three tables as they were. *)
Theorem add_then_delete_ingredient
    (sqlstate : nat -> string) (name id : string) (db : Db) :
  trim name <> "" ->
  (forall row, In row (ingredients (tables db)) ->
               toLowerCase (ing_name row) <> toLowerCase (trim name)) ->
  test_digits id = true ->
  int_of_param id = ingredients_id_seq (sequences db) ->
  (forall row, In row (ingredients (tables db)) ->
               ing_id row <> ingredients_id_seq (sequences db)) ->
  fst (serve (deleteIngredient reliable sqlstate id)
         (snd (serve (addIngredient reliable (Some name)) db))) =
    Some {| ingredients_status := 200;
            ingredients_body :=
              JDeletedIngredient "Ingredient deleted successfully"
                {| ing_id := ingredients_id_seq (sequences db);
                   ing_name := trim name |} |}
  /\ tables (snd (serve (deleteIngredient reliable sqlstate id)
                    (snd (serve (addIngredient reliable (Some name)) db)))) = tables db.
Proof.
  intros Hne Hnone Hid Hn Hfresh.
  destruct (ServerFacts.addIngredient_cases name db) as [_ [_ Hadd]].
  rewrite (Hadd Hne Hnone). cbn [snd].
  assert (Hdel := deleteIngredient_found sqlstate id
              {| tables := with_ingredient
                             {| ing_id := ingredients_id_seq (sequences db);
                                ing_name := trim name |} (tables db);
                 sequences :=
                   {| ingredients_id_seq := ingredients_id_seq (sequences db) + 1;
                      recipes_id_seq := recipes_id_seq (sequences db);
                      recipe_ingredients_id_seq :=
                        recipe_ingredients_id_seq (sequences db) |} |}).
  assert (Hfind : find (fun r => (ing_id r =? int_of_param id)%Z)
                    (ingredients (tables db) ++
                     [ {| ing_id := ingredients_id_seq (sequences db);
                          ing_name := trim name |} ])
                  = Some {| ing_id := ingredients_id_seq (sequences db);
                            ing_name := trim name |}).
  { rewrite Hn. apply find_app_last.
    - intros x Hx. apply Z.eqb_neq. now apply Hfresh.
    - apply Z.eqb_refl. }
  rewrite (Hdel _ Hid Hfind). cbn [fst snd tables].
  split; [reflexivity |].
  unfold without_ingredient, with_ingredient.
  cbn [ingredients recipes recipe_ingredients].
  rewrite filter_app, Hn. cbn [filter ing_id]. rewrite Z.eqb_refl. cbn [negb].
  rewrite app_nil_r, ClientFacts.filter_all; [apply ServerFacts.tables_eta |].
  intros x Hx. apply negb_true_iff, Z.eqb_neq. now apply Hfresh.
Qed.

Lemma add_then_delete_ingredient_witness :
  tables (snd (serve (deleteIngredient reliable (fun _ => "") "2")
                 (snd (serve (addIngredient reliable (Some " rum ")) cellar))))
  = tables cellar.
Proof.
  apply (add_then_delete_ingredient (fun _ => "") " rum " "2" cellar);
    try reflexivity; try discriminate.
  - intros row [<- | []]. discriminate.
  - intros row [<- | []]. discriminate.
Defined.

(** *** Identifiers *)

Lemma seqs_le_refl (s : Sequences) : seqs_le s s.
Proof. unfold seqs_le. lia. Qed.

Lemma seqs_le_trans (s1 s2 s3 : Sequences) :
  seqs_le s1 s2 -> seqs_le s2 s3 -> seqs_le s1 s3.
Proof. unfold seqs_le. lia. Qed.

Lemma ids_ok_mono (t : Tables) (s s' : Sequences) :
  seqs_le s s' -> ids_ok t s -> ids_ok t s'.
Proof.
  unfold seqs_le, ids_ok. intros [L1 [L2 L3]] [[N1 F1] [[N2 F2] [N3 F3]]].
  repeat split; try assumption;
    (eapply Forall_impl; [| eassumption]); cbv beta; intros; lia.
Qed.

Lemma pg_ids_ok_mono (c : Tables) (t : option Tables) (s s' : Sequences) (k k' : nat) :
  seqs_le s s' ->
  pg_ids_ok {| committed := c; tx := t; seqs := s; clock := k |} ->
  pg_ids_ok {| committed := c; tx := t; seqs := s'; clock := k' |}.
Proof.
  unfold pg_ids_ok. cbn [committed tx seqs]. intros L [Hc Ht]. split.
  - now apply (ids_ok_mono _ s).
  - destruct t; [now apply (ids_ok_mono _ s) | exact I].
Qed.

Lemma keeps_ret {A} (a : A) : keeps (ret a).
Proof. intros pg H. split; [exact H | apply seqs_le_refl]. Qed.

Lemma keeps_throw {A} : keeps (@throw A).
Proof. intros pg H. split; [exact H | apply seqs_le_refl]. Qed.

Lemma keeps_bind {A B} (m : Async A) (k : A -> Async B) :
  keeps m -> (forall a, keeps (k a)) -> keeps (bind m k).
Proof.
  intros Hm Hk pg H. unfold bind. specialize (Hm pg H).
  destruct (m pg) as [[a |] pg1]; cbn [snd] in *; [| exact Hm].
  destruct Hm as [H1 L1]. destruct (Hk a pg1 H1) as [H2 L2].
  split; [exact H2 | now apply (seqs_le_trans _ (seqs pg1))].
Qed.

Lemma keeps_try_catch {A} (body handler : Async A) :
  keeps body -> keeps handler -> keeps (try_catch body handler).
Proof.
  intros Hb Hh pg H. unfold try_catch. specialize (Hb pg H).
  destruct (body pg) as [[a |] pg1]; cbn [snd] in *; [exact Hb |].
  destruct Hb as [H1 L1]. destruct (Hh pg1 H1) as [H2 L2].
  split; [exact H2 | now apply (seqs_le_trans _ (seqs pg1))].
Qed.

Lemma keeps_for_of {A} (xs : list A) (f : A -> Async unit) :
  (forall x, keeps (f x)) -> keeps (for_of xs f).
Proof.
  intros Hf. induction xs as [| x xs IH]; cbn [for_of].
  - apply keeps_ret.
  - apply keeps_bind; [apply Hf | intros _; exact IH].
Qed.

Lemma keeps_map_of {A B} (xs : list A) (f : A -> Async B) :
  (forall x, keeps (f x)) -> keeps (map_of xs f).
Proof.
  intros Hf. induction xs as [| x xs IH]; cbn [map_of].
  - apply keeps_ret.
  - apply keeps_bind; [apply Hf | intros y].
    apply keeps_bind; [exact IH | intros ys; apply keeps_ret].
Qed.

Lemma keeps_tick (pg : Pg) :
  pg_ids_ok pg -> pg_ids_ok (tick pg) /\ seqs_le (seqs pg) (seqs (tick pg)).
Proof. intros H. split; [destruct pg; exact H | apply seqs_le_refl]. Qed.

Lemma keeps_connect (fails : nat -> bool) : keeps (connect fails).
Proof.
  intros pg H. unfold connect. destruct (fails (clock pg)); cbn [snd].
  - now apply keeps_tick.
  - split; [| apply seqs_le_refl]. destruct H as [Hc _]. split; [exact Hc | exact I].
Qed.

Lemma keeps_BEGIN (fails : nat -> bool) : keeps (BEGIN fails).
Proof.
  intros pg H. unfold BEGIN. destruct (fails (clock pg)); cbn [snd].
  - now apply keeps_tick.
  - split; [| apply seqs_le_refl]. destruct H as [Hc Ht]. split; [exact Hc |].
    cbn [tx seqs]. destruct (tx pg); assumption.
Qed.

Lemma keeps_COMMIT (fails : nat -> bool) : keeps (COMMIT fails).
Proof.
  intros pg H. unfold COMMIT. destruct (fails (clock pg)); cbn [snd].
  - now apply keeps_tick.
  - split; [| apply seqs_le_refl]. destruct H as [Hc Ht]. split; [| exact I].
    cbn [committed seqs]. destruct (tx pg); assumption.
Qed.

Lemma keeps_ROLLBACK (fails : nat -> bool) : keeps (ROLLBACK fails).
Proof.
  intros pg H. unfold ROLLBACK. destruct (fails (clock pg)); cbn [snd].
  - now apply keeps_tick.
  - split; [| apply seqs_le_refl]. destruct H as [Hc _]. split; [exact Hc | exact I].
Qed.

Lemma keeps_client_query {A} (fails : nat -> bool) (stmt : Sql A) :
  sql_keeps stmt -> keeps (client_query fails stmt).
Proof.
  intros Hs pg [Hc Ht]. unfold client_query.
  destruct (fails (clock pg)); [now apply keeps_tick |].
  destruct (tx pg) as [t |] eqn:Etx.
  - specialize (Hs t (seqs pg) Ht).
    destruct (stmt t (seqs pg)) as [[[a t'] |] s']; cbn [fst snd] in *;
      destruct Hs as [L Hs]; (split; [| exact L]); split; cbn [committed tx seqs];
      try (now apply (ids_ok_mono _ (seqs pg))); assumption.
  - specialize (Hs (committed pg) (seqs pg) Hc).
    destruct (stmt (committed pg) (seqs pg)) as [[[a t'] |] s']; cbn [fst snd] in *;
      destruct Hs as [L Hs]; (split; [| exact L]); split; cbn [committed tx seqs];
      try exact I; try (now apply (ids_ok_mono _ (seqs pg))); assumption.
Qed.

Lemma keeps_pool_query {A} (fails : nat -> bool) (stmt : Sql A) :
  sql_keeps stmt -> keeps (pool_query fails stmt).
Proof.
  intros Hs pg [Hc Ht]. unfold pool_query.
  destruct (fails (clock pg)); [now apply keeps_tick |].
  specialize (Hs (committed pg) (seqs pg) Hc).
  destruct (stmt (committed pg) (seqs pg)) as [[[a t'] |] s']; cbn [fst snd] in *;
    destruct Hs as [L Hs]; (split; [| exact L]); split; cbn [committed tx seqs];
    try (now apply (ids_ok_mono _ (seqs pg)));
    try assumption;
    (destruct (tx pg); [now apply (ids_ok_mono _ (seqs pg)) | exact I]).
Qed.

(** A statement that changes no table and no sequence. *)
Lemma sql_keeps_select {A} (stmt : Sql A) :
  (forall t s, exists a, stmt t s = (Some (a, t), s)) -> sql_keeps stmt.
Proof.
  intros H t s Hok. destruct (H t s) as [a ->]. cbn [fst snd].
  split; [apply seqs_le_refl | exact Hok].
Qed.

Lemma NoDup_map_filter {A B} (f : A -> B) (keep : A -> bool) (l : list A) :
  NoDup (map f l) -> NoDup (map f (filter keep l)).
Proof.
  apply Subseq_NoDup, ClientFacts.Subseq_map, filter_Subseq.
Qed.

Lemma Forall_filter {A} (P : A -> Prop) (keep : A -> bool) (l : list A) :
  Forall P l -> Forall P (filter keep l).
Proof.
  rewrite !Forall_forall. intros H x Hx. apply filter_In in Hx. now apply H.
Qed.

Lemma NoDup_map_snoc {A} (f : A -> Z) (l : list A) (x : A) (next : Z) :
  NoDup (map f l) -> Forall (fun r => (f r < next)%Z) l -> f x = next ->
  NoDup (map f (l ++ [x])) /\ Forall (fun r => (f r < next + 1)%Z) (l ++ [x]).
Proof.
  intros Hnd Hall Hx. split.
  - rewrite map_app. cbn [map].
    apply NoDup_app; [assumption | repeat constructor; intros [] |].
    intros y Hy [<- | []]. apply in_map_iff in Hy. destruct Hy as [r [He Hr]].
    rewrite Forall_forall in Hall. specialize (Hall r Hr). lia.
  - apply Forall_app. split.
    + eapply Forall_impl; [| exact Hall]. cbv beta. intros; lia.
    + repeat constructor. lia.
Qed.

Lemma sql_keeps_insert_ingredient (p1 : string) : sql_keeps (insert_ingredient p1).
Proof.
  intros t s [[N1 F1] [H2 H3]]. unfold insert_ingredient.
  destruct (existsb _ _); cbn [fst snd].
  - split; [unfold seqs_le; cbn; lia | exact I].
  - split; [unfold seqs_le; cbn; lia |].
    unfold ids_ok. cbn [ingredients recipes recipe_ingredients
                        ingredients_id_seq recipes_id_seq recipe_ingredients_id_seq].
    split; [| now split].
    now apply NoDup_map_snoc.
Qed.

Lemma sql_keeps_insert_recipe (p1 p2 : string) : sql_keeps (insert_recipe p1 p2).
Proof.
  intros t s [H1 [[N2 F2] H3]]. unfold insert_recipe. cbn [fst snd].
  split; [unfold seqs_le; cbn; lia |].
  unfold ids_ok. cbn [ingredients recipes recipe_ingredients
                      ingredients_id_seq recipes_id_seq recipe_ingredients_id_seq].
  split; [assumption | split; [| assumption]].
  now apply NoDup_map_snoc.
Qed.

Lemma sql_keeps_insert_recipe_ingredient (p1 : Z) (p2 p3 p4 : string) :
  sql_keeps (insert_recipe_ingredient p1 p2 p3 p4).
Proof.
  intros t s [H1 [H2 [N3 F3]]]. unfold insert_recipe_ingredient. cbn [fst snd].
  split; [unfold seqs_le; cbn; lia |].
  unfold ids_ok. cbn [ingredients recipes recipe_ingredients
                      ingredients_id_seq recipes_id_seq recipe_ingredients_id_seq].
  split; [assumption | split; [assumption |]].
  now apply NoDup_map_snoc.
Qed.

Lemma sql_keeps_delete_recipe_ingredients (p1 : Z) :
  sql_keeps (delete_recipe_ingredients p1).
Proof.
  intros t s [H1 [H2 [N3 F3]]]. unfold delete_recipe_ingredients. cbn [fst snd].
  split; [apply seqs_le_refl |].
  unfold ids_ok. cbn [ingredients recipes recipe_ingredients].
  split; [assumption | split; [assumption |]].
  split; [now apply NoDup_map_filter | now apply Forall_filter].
Qed.

Lemma sql_keeps_delete_recipe (p1 : Z) : sql_keeps (delete_recipe p1).
Proof.
  intros t s [H1 [[N2 F2] [N3 F3]]]. unfold delete_recipe. cbn [fst snd].
  split; [apply seqs_le_refl |].
  unfold ids_ok. cbn [ingredients recipes recipe_ingredients].
  split; [assumption |].
  split; (split; [now apply NoDup_map_filter | now apply Forall_filter]).
Qed.

Lemma sql_keeps_delete_ingredient (p1 : Z) : sql_keeps (delete_ingredient p1).
Proof.
  intros t s [[N1 F1] [H2 H3]]. unfold delete_ingredient. cbn [fst snd].
  split; [apply seqs_le_refl |].
  unfold ids_ok. cbn [ingredients recipes recipe_ingredients].
  split; [| now split].
  split; [now apply NoDup_map_filter | now apply Forall_filter].
Qed.

(** One step of the proof that a handler keeps the identifiers in order,
    following the structure of the handler. *)
Ltac keeps_step :=
  first
    [ apply keeps_ret
    | apply keeps_throw
    | apply keeps_connect
    | apply keeps_BEGIN
    | apply keeps_COMMIT
    | apply keeps_ROLLBACK
    | apply keeps_bind; [| intro]
    | apply keeps_try_catch
    | apply keeps_for_of; intro
    | apply keeps_map_of; intro
    | apply keeps_client_query
    | apply keeps_pool_query
    | apply sql_keeps_insert_ingredient
    | apply sql_keeps_insert_recipe
    | apply sql_keeps_insert_recipe_ingredient
    | apply sql_keeps_delete_recipe_ingredients
    | apply sql_keeps_delete_recipe
    | apply sql_keeps_delete_ingredient
    | apply sql_keeps_select; intros; eexists; reflexivity
    | match goal with
      | |- keeps (match ?x with _ => _ end) => destruct x
      | |- keeps (let _ := _ in _) => cbv zeta
      end ].

Lemma keeps_addIngredient (fails : nat -> bool) (name : option string) :
  keeps (addIngredient fails name).
Proof. unfold addIngredient, json. repeat keeps_step. Qed.

Lemma keeps_createRecipe (fails : nat -> bool) (req : RecipeInput) :
  keeps (createRecipe fails req).
Proof. unfold createRecipe, json, method_trim, property_id. repeat keeps_step. Qed.

Lemma keeps_deleteRecipe (fails : nat -> bool) (id : string) :
  keeps (deleteRecipe fails id).
Proof. unfold deleteRecipe, json. repeat keeps_step. Qed.

Lemma keeps_deleteIngredient (fails : nat -> bool) (sqlstate : nat -> string) (id : string) :
  keeps (deleteIngredient fails sqlstate id).
Proof.
  unfold deleteIngredient, send_ingredients.
  destruct (negb (test_digits id)); [apply keeps_ret |].
  apply keeps_try_catch; [repeat keeps_step |].
  intros pg H. destruct (sqlstate (pred (clock pg)) =? "23503");
    (split; [exact H | apply seqs_le_refl]).
Qed.

Lemma serve_keeps {A} (handler : Async A) (db : Db) :
  keeps handler ->
  ids_ok (tables db) (sequences db) ->
  ids_ok (tables (snd (serve handler db))) (sequences (snd (serve handler db)))
  /\ seqs_le (sequences db) (sequences (snd (serve handler db))).
Proof.
  intros Hk Hok. unfold serve.
  specialize (Hk {| committed := tables db; tx := None; seqs := sequences db; clock := 0 |}
                 (conj Hok I)).
  destruct (handler _) as [o pg]. cbn [snd tables sequences seqs] in *.
  destruct Hk as [[Hc _] L]. now split.
Qed.

(** X20. Identifiers are never reused: if the identifiers of each table
    are pairwise distinct and below the next value of the table's
    sequence, the same holds after each of the four routes that write,
    whatever the request and wherever the store fails, and no sequence
    goes back.  In such a store the identifier the next row gets is not
    yet in its table. *)
Theorem identifiers_never_reused
    (fails : nat -> bool) (sqlstate : nat -> string) (db : Db) :
  ids_ok (tables db) (sequences db) ->
  (forall name,
     ids_ok (tables (snd (serve (addIngredient fails name) db)))
            (sequences (snd (serve (addIngredient fails name) db)))
     /\ seqs_le (sequences db) (sequences (snd (serve (addIngredient fails name) db))))
  /\ (forall id,
        ids_ok (tables (snd (serve (deleteIngredient fails sqlstate id) db)))
               (sequences (snd (serve (deleteIngredient fails sqlstate id) db)))
        /\ seqs_le (sequences db)
                   (sequences (snd (serve (deleteIngredient fails sqlstate id) db))))
  /\ (forall req,
        ids_ok (tables (snd (serve (createRecipe fails req) db)))
               (sequences (snd (serve (createRecipe fails req) db)))
        /\ seqs_le (sequences db) (sequences (snd (serve (createRecipe fails req) db))))
  /\ (forall id,
        ids_ok (tables (snd (serve (deleteRecipe fails id) db)))
               (sequences (snd (serve (deleteRecipe fails id) db)))
        /\ seqs_le (sequences db) (sequences (snd (serve (deleteRecipe fails id) db))))
  /\ (forall row, In row (ingredients (tables db)) ->
                  ing_id row <> ingredients_id_seq (sequences db))
  /\ (forall r, In r (recipes (tables db)) -> rec_id r <> recipes_id_seq (sequences db)).
Proof.
  intros Hok.
  split; [intros name; apply serve_keeps; [apply keeps_addIngredient | exact Hok] |].
  split; [intros id; apply serve_keeps; [apply keeps_deleteIngredient | exact Hok] |].
  split; [intros req; apply serve_keeps; [apply keeps_createRecipe | exact Hok] |].
  split; [intros id; apply serve_keeps; [apply keeps_deleteRecipe | exact Hok] |].
  destruct Hok as [[_ F1] [[_ F2] _]]. rewrite Forall_forall in F1, F2.
  split; intros x Hx; [specialize (F1 x Hx) | specialize (F2 x Hx)]; lia.
Qed.

Lemma identifiers_never_reused_witness :
  ids_ok (tables (snd (serve (createRecipe (fun n => Nat.eqb n 4)
                                {| body_name := Some "Mojito";
                                   body_instructions := Some "Muddle the mint.";
                                   body_ingredients :=
                                     Some [ {| in_name := Some "rum";
                                               in_quantity := Some "2";
                                               in_unit := None |};
                                            {| in_name := Some "mint";
                                               in_quantity := Some "6";
                                               in_unit := None |} ] |}) cellar)))
         (sequences (snd (serve (createRecipe (fun n => Nat.eqb n 4)
                                   {| body_name := Some "Mojito";
                                      body_instructions := Some "Muddle the mint.";
                                      body_ingredients :=
                                        Some [ {| in_name := Some "rum";
                                                  in_quantity := Some "2";
                                                  in_unit := None |};
                                               {| in_name := Some "mint";
                                                  in_quantity := Some "6";
                                                  in_unit := None |} ] |}) cellar))).
Proof.
  refine (proj1 (proj1 (proj2 (proj2
            (identifiers_never_reused (fun n => Nat.eqb n 4) (fun _ => "") cellar _))) _)).
  unfold ids_ok, cellar. cbn.
  repeat split; repeat constructor; cbn; intuition (try discriminate; try lia).
Defined.

End StoreFacts.

(* ------------------------------------------------------------------ *)
(** ** The API client *)

Module ApiClientFacts.
Import ClientSpec JsFacts StringFacts.
Import Server ServerSpec.
Import ApiClient.

Lemma snoc_ids_distinct {A} (f : A -> Z) (l : list A) (x : A) :
  NoDup (map f l) -> existsb (fun y => (f y =? f x)%Z) l = false ->
  NoDup (map f (l ++ [x])).
Proof.
  intros Hnd He. rewrite map_app. cbn [map].
  apply NoDup_app; [assumption | repeat constructor; intros [] |].
  intros y Hy [<- | []]. apply in_map_iff in Hy. destruct Hy as [z [Hz Hin]].
  rewrite ClientFacts.existsb_false_iff in He. specialize (He z Hin).
  apply Z.eqb_neq in He. contradiction.
Qed.

(** X21. The reducer of the API client never holds an identifier twice:
    if the ingredients and the recipes of the state have pairwise distinct
    identifiers, so they have after any action (a whole list being set must
    itself be free of repeats).  Dispatching the same addition twice is the
    same as dispatching it once. *)
Theorem reducer_keeps_ids_distinct (state : State) (action : Action) :
  ids_distinct state -> payload_distinct action ->
  ids_distinct (reducer state action)
  /\ (forall i, reducer (reducer state (ADD_INGREDIENT i)) (ADD_INGREDIENT i)
                = reducer state (ADD_INGREDIENT i))
  /\ (forall r, reducer (reducer state (ADD_RECIPE r)) (ADD_RECIPE r)
                = reducer state (ADD_RECIPE r)).
Proof.
  intros [Hi Hr] Hp. split; [| split].
  - unfold ids_distinct. destruct action; cbn [reducer payload_distinct] in *;
      try (split; assumption).
    + destruct (existsb _ (ingredients state)) eqn:E; [now split |].
      cbn [ingredients recipes]. split; [now apply snoc_ids_distinct | assumption].
    + cbn [ingredients recipes]. split; [| assumption].
      eapply Subseq_NoDup; [apply ClientFacts.Subseq_map, filter_Subseq | exact Hi].
    + destruct (existsb _ (recipes state)) eqn:E; [now split |].
      cbn [ingredients recipes]. split; [assumption | now apply snoc_ids_distinct].
    + cbn [ingredients recipes]. split; [assumption |].
      eapply Subseq_NoDup; [apply ClientFacts.Subseq_map, filter_Subseq | exact Hr].
  - intros i. cbn [reducer].
    destruct (existsb (fun j => (i_id j =? i_id i)%Z) (ingredients state)) eqn:E.
    + now rewrite E.
    + cbn [ingredients]. rewrite existsb_app. cbn [existsb].
      now rewrite Z.eqb_refl, orb_true_r.
  - intros r. cbn [reducer].
    destruct (existsb (fun q => (r_id q =? r_id r)%Z) (recipes state)) eqn:E.
    + now rewrite E.
    + cbn [recipes]. rewrite existsb_app. cbn [existsb].
      now rewrite Z.eqb_refl, orb_true_r.
Qed.

Lemma reducer_keeps_ids_distinct_witness :
  ids_distinct
    (reducer (reducer initialState (ADD_INGREDIENT {| i_id := 1; i_name := "Gin" |}))
             (ADD_INGREDIENT {| i_id := 1; i_name := "Gin" |})).
Proof.
  apply reducer_keeps_ids_distinct; [| exact I].
  apply (reducer_keeps_ids_distinct initialState
           (ADD_INGREDIENT {| i_id := 1; i_name := "Gin" |})); [| exact I].
  split; constructor.
Defined.

(** *** Saving a recipe *)

(** The ingredient of a request body that a row of [recipeData] becomes. *)
Lemma trimmed_of_clean (row : App.RecipeIngredient) :
  cleanRow row ->
  trimmed {| in_name := Some (App.ri_name row);
             in_quantity := Some (App.ri_quantity row);
             in_unit := Some (App.ri_unit row) |}
  = {| json_name := App.ri_name row; json_quantity := App.ri_quantity row;
       json_unit := App.ri_unit row |}.
Proof.
  intros [Hn [_ [Hq [_ Hu]]]]. unfold trimmed. cbn [in_name in_quantity in_unit field].
  now rewrite Hn, Hq, Hu.
Qed.

Lemma recipeData_cases
    (name instructions : string) (ingredients : list App.RecipeIngredient) :
  saveRecipe_recipeData name instructions ingredients =
    if negb (truthy name) || negb (truthy instructions)
    then None
    else match filter (fun ing => truthy (App.ri_name ing) && truthy (App.ri_quantity ing))
                      (map trimmedRow ingredients) with
         | [] => None
         | row :: rows =>
             Some {| data_name := trim name; data_instructions := trim instructions;
                     data_ingredients := row :: rows |}
         end.
Proof.
  unfold saveRecipe_recipeData.
  destruct (negb (truthy name) || negb (truthy instructions)) eqn:E; cbn [orb];
    [reflexivity |].
  change (fun ing : App.RecipeIngredient =>
            {| App.ri_name := trim (App.ri_name ing);
               App.ri_quantity := trim (App.ri_quantity ing);
               App.ri_unit := trim (App.ri_unit ing) |}) with trimmedRow.
  destruct (filter _ (map trimmedRow ingredients)) as [| row rows] eqn:Ef.
  - now destruct (negb (existsb _ ingredients)).
  - cbn [List.length Nat.eqb].
    destruct (existsb (fun i => truthy (App.ri_name i) && truthy (App.ri_quantity i))
                      ingredients) eqn:Ee; [reflexivity |].
    exfalso. rewrite ClientFacts.existsb_false_iff in Ee.
    assert (Hin : In row (row :: rows)) by now left.
    rewrite <- Ef in Hin. apply filter_In in Hin. destruct Hin as [Hin Ht].
    apply in_map_iff in Hin. destruct Hin as [raw [<- Hraw]].
    specialize (Ee raw Hraw). cbn [trimmedRow App.ri_name App.ri_quantity] in Ht.
    apply andb_true_iff in Ht. destruct Ht as [H1 H2].
    apply AppFacts.truthy_iff in H1, H2.
    apply andb_false_iff in Ee. unfold truthy in Ee.
    destruct Ee as [Ee | Ee]; apply negb_false_iff, String.eqb_eq in Ee;
      rewrite Ee in *; [now apply H1 | now apply H2].
Qed.

(** What the request of [saveRecipe] is made of. *)
Lemma saveRecipe_request_valid
    (name instructions : string) (ingredients : list App.RecipeIngredient)
    (d : RecipeData) :
  saveRecipe_recipeData name instructions ingredients = Some d ->
  data_name d = trim name
  /\ data_instructions d = trim instructions
  /\ Forall cleanRow (data_ingredients d)
  /\ rejected (body_of d) = (trim name =? "") || (trim instructions =? "").
Proof.
  rewrite recipeData_cases. intros Hd.
  destruct (negb (truthy name) || negb (truthy instructions)); [discriminate Hd |].
  assert (Hclean := ClientFacts.clean_rows ingredients).
  destruct (filter _ (map trimmedRow ingredients)) as [| row rows] eqn:Ef;
    [discriminate Hd |].
  injection Hd as <-. cbn [data_name data_instructions data_ingredients].
  split; [reflexivity | split; [reflexivity | split; [exact Hclean |]]].
  unfold rejected, body_of.
  cbn [body_ingredients body_name body_instructions data_name data_instructions
       data_ingredients falsy].
  assert (E : existsb (fun ing => falsy (in_name ing) || falsy (in_quantity ing))
                (map (fun ing => {| in_name := Some (App.ri_name ing);
                                    in_quantity := Some (App.ri_quantity ing);
                                    in_unit := Some (App.ri_unit ing) |})
                     (row :: rows)) = false).
  { apply ClientFacts.existsb_false_iff. intros x Hx. apply in_map_iff in Hx.
    destruct Hx as [y [<- Hy]].
    rewrite Forall_forall in Hclean. destruct (Hclean y Hy) as [_ [Hn [_ [Hq _]]]].
    cbn [in_name in_quantity falsy].
    apply String.eqb_neq in Hn, Hq. now rewrite Hn, Hq. }
  rewrite E. now rewrite orb_false_r.
Qed.

(** X22. What [saveRecipe] of the API client posts.  It posts nothing
    exactly when the name or the instructions are empty or no row has a
    name and a quantity that are not empty once trimmed.  What it posts has
    a trimmed name and trimmed instructions and a non-empty list of rows,
    each trimmed with a non-empty name and quantity, so the server's check
    of the ingredients never turns it down: the server rejects it exactly
    when the name or the instructions are blank, and otherwise the request
    is valid as the specification words it. *)
Theorem saveRecipe_request_spec
    (name instructions : string) (ingredients : list App.RecipeIngredient) :
  (saveRecipe_recipeData name instructions ingredients = None <->
   name = "" \/ instructions = ""
   \/ forall row, In row ingredients ->
                  trim (App.ri_name row) = "" \/ trim (App.ri_quantity row) = "")
  /\ (forall d,
        saveRecipe_recipeData name instructions ingredients = Some d ->
        data_name d = trim name
        /\ data_instructions d = trim instructions
        /\ data_ingredients d <> []
        /\ data_ingredients d =
           filter (fun ing => truthy (App.ri_name ing) && truthy (App.ri_quantity ing))
                  (map trimmedRow ingredients)
        /\ Forall cleanRow (data_ingredients d)
        /\ rejected (body_of d) = (trim name =? "") || (trim instructions =? "")
        /\ valid_as_specified (body_of d) = negb (rejected (body_of d))).
Proof.
  rewrite recipeData_cases. split.
  - destruct (negb (truthy name) || negb (truthy instructions)) eqn:E.
    + split; [intros _ | reflexivity].
      apply orb_true_iff in E. unfold truthy in E. rewrite !negb_involutive in E.
      destruct E as [E | E]; apply String.eqb_eq in E; auto.
    + apply orb_false_elim in E. destruct E as [E1 E2].
      apply negb_false_iff, AppFacts.truthy_iff in E1, E2.
      destruct (filter _ (map trimmedRow ingredients)) as [| row rows] eqn:Ef.
      * split; [intros _ | reflexivity]. right. right. intros row Hrow.
        rewrite ServerFacts.filter_nil_iff in Ef.
        specialize (Ef (trimmedRow row) (in_map _ _ _ Hrow)).
        cbn [trimmedRow App.ri_name App.ri_quantity] in Ef.
        apply andb_false_iff in Ef. unfold truthy in Ef.
        destruct Ef as [Ef | Ef]; apply negb_false_iff, String.eqb_eq in Ef; auto.
      * split; [discriminate |]. intros [H | [H | H]]; try contradiction. exfalso.
        assert (Hin : In row (row :: rows)) by now left.
        rewrite <- Ef in Hin. apply filter_In in Hin. destruct Hin as [Hin Ht].
        apply in_map_iff in Hin. destruct Hin as [raw [<- Hraw]].
        cbn [trimmedRow App.ri_name App.ri_quantity] in Ht.
        apply andb_true_iff in Ht. destruct Ht as [H1 H2].
        apply AppFacts.truthy_iff in H1, H2. destruct (H raw Hraw); contradiction.
  - intros d Hd.
    destruct (negb (truthy name) || negb (truthy instructions)); [discriminate Hd |].
    assert (Hclean := ClientFacts.clean_rows ingredients).
    destruct (filter _ (map trimmedRow ingredients)) as [| row rows] eqn:Ef;
      [discriminate Hd |].
    injection Hd as <-. cbn [data_name data_instructions data_ingredients].
    split; [reflexivity | split; [reflexivity | split; [discriminate |]]].
    split; [reflexivity | split; [exact Hclean |]].
    assert (Hrej : rejected
                     (body_of {| data_name := trim name;
                                 data_instructions := trim instructions;
                                 data_ingredients := row :: rows |})
                   = (trim name =? "") || (trim instructions =? "")).
    { unfold rejected, body_of.
      cbn [body_ingredients body_name body_instructions data_name data_instructions
           data_ingredients falsy].
      assert (E : existsb (fun ing => falsy (in_name ing) || falsy (in_quantity ing))
                    (map (fun ing => {| in_name := Some (App.ri_name ing);
                                        in_quantity := Some (App.ri_quantity ing);
                                        in_unit := Some (App.ri_unit ing) |})
                         (row :: rows)) = false).
      { apply ClientFacts.existsb_false_iff. intros x Hx. apply in_map_iff in Hx.
        destruct Hx as [y [<- Hy]].
        rewrite Forall_forall in Hclean. destruct (Hclean y Hy) as [_ [Hn [_ [Hq _]]]].
        cbn [in_name in_quantity falsy].
        apply String.eqb_neq in Hn, Hq. now rewrite Hn, Hq. }
      rewrite E. now rewrite orb_false_r. }
    split; [exact Hrej |]. rewrite Hrej.
    unfold valid_as_specified, body_of.
    cbn [body_ingredients body_name body_instructions data_name data_instructions
         data_ingredients nonblank map].
    rewrite !trim_idem.
    assert (E : forallb (fun i => nonblank (in_name i) && nonblank (in_quantity i))
                  ({| in_name := Some (App.ri_name row);
                      in_quantity := Some (App.ri_quantity row);
                      in_unit := Some (App.ri_unit row) |}
                   :: map (fun ing => {| in_name := Some (App.ri_name ing);
                                         in_quantity := Some (App.ri_quantity ing);
                                         in_unit := Some (App.ri_unit ing) |}) rows)
                = true).
    { change (forallb (fun i => nonblank (in_name i) && nonblank (in_quantity i))
                (map (fun ing => {| in_name := Some (App.ri_name ing);
                                    in_quantity := Some (App.ri_quantity ing);
                                    in_unit := Some (App.ri_unit ing) |}) (row :: rows))
              = true).
      apply forallb_forall. intros x Hx. apply in_map_iff in Hx.
      destruct Hx as [y [<- Hy]]. rewrite Forall_forall in Hclean.
      destruct (Hclean y Hy) as [Tn [Hn [Tq [Hq _]]]].
      cbn [in_name in_quantity nonblank]. rewrite Tn, Tq.
      apply String.eqb_neq in Hn, Hq. now rewrite Hn, Hq. }
    rewrite E, andb_true_r. now rewrite negb_orb.
Qed.

(** *** [addIngredient] against the server *)









(** *** [saveRecipe] against the server *)

Lemma rows_round_trip (rows : list App.RecipeIngredient) :
  Forall cleanRow rows ->
  map (fun i => {| App.ri_name := json_name i; App.ri_quantity := json_quantity i;
                   App.ri_unit := json_unit i |})
      (map trimmed
           (map (fun ing => {| in_name := Some (App.ri_name ing);
                               in_quantity := Some (App.ri_quantity ing);
                               in_unit := Some (App.ri_unit ing) |}) rows))
  = rows.
Proof.
  induction 1 as [| row rows Hrow _ IH]; [reflexivity |].
  cbn [map]. rewrite IH, (trimmed_of_clean row Hrow).
  cbn [json_name json_quantity json_unit]. now destruct row.
Qed.

(** X24. Saving a recipe end to end.  When [saveRecipe] of the API client
    posts a request, then, wherever the store fails, either the server has
    stored the recipe and the client has dispatched [ADD_RECIPE] with the
    recipe as stored (identifier, trimmed name and instructions, the rows
    posted), or neither has changed.  A blank name or blank instructions change
    nothing; otherwise, on a store that does not fail, the recipe is
    saved. *)
Theorem saveRecipe_end_to_end
    (fails : nat -> bool) (state : State) (name instructions : string)
    (ingredients : list App.RecipeIngredient) (db : Db) (d : RecipeData) :
  saveRecipe_recipeData name instructions ingredients = Some d ->
  ((saveRecipe fails state name instructions ingredients db = (state, db)
    \/ (fst (saveRecipe fails state name instructions ingredients db) = state
        /\ tables (snd (saveRecipe fails state name instructions ingredients db))
           = tables db))
   \/ (fst (saveRecipe fails state name instructions ingredients db) =
         reducer state
           (ADD_RECIPE {| r_id := recipes_id_seq (sequences db);
                          r_name := trim name;
                          r_ingredients := data_ingredients d;
                          r_instructions := trim instructions |})
       /\ tables (snd (saveRecipe fails state name instructions ingredients db)) =
          with_recipe
            {| rec_id := recipes_id_seq (sequences db); rec_name := trim name;
               rec_instructions := trim instructions; rec_is_custom := true |}
            (rows_of (recipes_id_seq (sequences db))
                     (recipe_ingredients_id_seq (sequences db))
                     (map (fun row => {| json_name := App.ri_name row;
                                         json_quantity := App.ri_quantity row;
                                         json_unit := App.ri_unit row |})
                          (data_ingredients d)))
            (tables db)))
  /\ (trim name = "" \/ trim instructions = "" ->
      saveRecipe fails state name instructions ingredients db = (state, db))
  /\ ((forall k, fails k = false) -> trim name <> "" -> trim instructions <> "" ->
      fst (saveRecipe fails state name instructions ingredients db) =
        reducer state
          (ADD_RECIPE {| r_id := recipes_id_seq (sequences db);
                         r_name := trim name;
                         r_ingredients := data_ingredients d;
                         r_instructions := trim instructions |})).
Proof.
  intros Hd.
  destruct (saveRecipe_request_valid name instructions ingredients d Hd)
    as [Hname [Hinstr [Hclean Hrej]]].
  unfold saveRecipe. rewrite Hd.
  destruct (rejected (body_of d)) eqn:Er.
  - (* turned down by the server *)
    destruct (ServerFacts.rejected_answer fails (body_of d) db Er) as [Hs Hdb].
    destruct (serve (createRecipe fails (body_of d)) db) as [response db'].
    cbn [fst snd] in Hs, Hdb. subst db'.
    destruct response as [r |]; [| discriminate Hs].
    injection Hs as Hs. unfold ok. rewrite Hs. cbn [Nat.leb andb].
    split; [now left; left |]. split; [reflexivity |].
    intros _ Hn Hi. exfalso. symmetry in Hrej.
    apply orb_true_iff in Hrej. destruct Hrej as [E | E]; apply String.eqb_eq in E;
      contradiction.
  - destruct (ServerFacts.createRecipe_run fails (body_of d)
                {| committed := tables db; tx := None; seqs := sequences db; clock := 0 |}
                Er) as [o [pg' [E [Ho Hr]]]].
    assert (Hnot : ~ (trim name = "" \/ trim instructions = "")).
    { symmetry in Hrej. apply orb_false_elim in Hrej. destruct Hrej as [E1 E2].
      apply String.eqb_neq in E1, E2. tauto. }
    unfold serve. rewrite E. cbn [committed seqs] in *.
    assert (Hrow : recipe_row (recipes_id_seq (sequences db)) (body_of d) =
                   {| rec_id := recipes_id_seq (sequences db); rec_name := trim name;
                      rec_instructions := trim instructions; rec_is_custom := true |}).
    { unfold recipe_row, body_of. cbn [body_name body_instructions field].
      now rewrite Hname, Hinstr, !trim_idem. }
    assert (Hings : map trimmed (ingredients_in (body_of d)) =
                    map (fun row => {| json_name := App.ri_name row;
                                       json_quantity := App.ri_quantity row;
                                       json_unit := App.ri_unit row |})
                        (data_ingredients d)).
    { unfold ingredients_in, body_of. cbn [body_ingredients].
      rewrite map_map. apply map_ext_in. intros row Hin.
      apply trimmed_of_clean. rewrite Forall_forall in Hclean. now apply Hclean. }
    assert (Hsaved : recipe_of_json
                       (JRecipe {| json_recipe :=
                                     recipe_row (recipes_id_seq (sequences db)) (body_of d);
                                   json_ingredients :=
                                     map trimmed (ingredients_in (body_of d)) |})
                     = Some {| r_id := recipes_id_seq (sequences db);
                               r_name := trim name;
                               r_ingredients := data_ingredients d;
                               r_instructions := trim instructions |}).
    { unfold recipe_of_json. cbn [json_recipe json_ingredients]. rewrite Hrow.
      cbn [rec_id rec_name rec_instructions]. do 2 f_equal.
      unfold ingredients_in, body_of. cbn [body_ingredients].
      now apply rows_round_trip. }
    destruct Ho as [[-> Hc] | [Ho Hc]].
    + cbn [ok status body Nat.leb andb]. rewrite Hsaved. cbn [fst snd tables].
      split; [right; split; [reflexivity |] | split; [tauto | reflexivity]].
      rewrite Hc, Hrow. cbn [rec_id]. now rewrite Hings.
    + assert (Hsame :
        (let '(response, db') :=
           (match o with Returned a => Some a | Thrown => None end,
            {| tables := committed pg'; sequences := seqs pg' |}) in
         match response with
         | Some r =>
             if ok r then
               match recipe_of_json (body r) with
               | Some savedRecipe => (reducer state (ADD_RECIPE savedRecipe), db')
               | None => (state, db')
               end
             else (state, db')
         | None => (state, db')
         end) = (state, {| tables := committed pg'; sequences := seqs pg' |}))
        by (destruct Ho as [-> | ->]; reflexivity).
      rewrite Hsame. cbn [fst snd tables].
      split; [left; right; now split | split; [tauto |]].
      intros Hf. specialize (Hr Hf). exfalso.
      destruct Ho as [-> | ->]; discriminate Hr.
Qed.

Lemma saveRecipe_end_to_end_witness :
  fst (saveRecipe reliable initialState " Mojito " "Muddle the mint."
         [ {| App.ri_name := " rum "; App.ri_quantity := "2"; App.ri_unit := "" |};
           {| App.ri_name := "  "; App.ri_quantity := "1"; App.ri_unit := "" |} ]
         cellar)
  = reducer initialState
      (ADD_RECIPE {| r_id := 3; r_name := "Mojito";
                     r_ingredients :=
                       [ {| App.ri_name := "rum"; App.ri_quantity := "2";
                            App.ri_unit := "" |} ];
                     r_instructions := "Muddle the mint." |}).
Proof.
  refine (proj2 (proj2 (saveRecipe_end_to_end reliable initialState
                          " Mojito " "Muddle the mint."
                          [ {| App.ri_name := " rum "; App.ri_quantity := "2";
                               App.ri_unit := "" |};
                            {| App.ri_name := "  "; App.ri_quantity := "1";
                               App.ri_unit := "" |} ]
                          cellar
                          {| data_name := "Mojito";
                             data_instructions := "Muddle the mint.";
                             data_ingredients :=
                               [ {| App.ri_name := "rum"; App.ri_quantity := "2";
                                    App.ri_unit := "" |} ] |}
                          eq_refl))
                (fun _ => eq_refl) _ _); discriminate.
Defined.

End ApiClientFacts.
